(** * Smart Desktop Activity Tracker: event pipeline and trigger engine

    A shallow embedding of
      - client/src/lib/automationManager.ts  (module [Client]),
      - client/src/lib/activityTracker.ts    (modules [Tracker], [Page]),
      - client/src/lib/keyboardLogger.ts     (module [Keyboard]),
      - server/modules/automationManager.ts and the part of
        server/storage.ts it calls (module [Server]),
      - server/storage.ts as a whole, with captureScreen of
        server/modules/screenCapture.ts (modules [JsMap], [Store]),
    together with the listener registry the three classes share
    (module [Listeners]), and the properties of the design document that
    concern them. *)

From Stdlib Require Import ZArith QArith String Ascii List Bool Lia.
From Stdlib Require Import Sorted Permutation.
From stdpp Require Import base list strings gmap pretty.
Import ListNotations.
Open Scope string_scope.
Open Scope list_scope.

(** ** JavaScript values and runtime services *)

(** A JavaScript number as the code meets it: pixel coordinates, hours,
    minutes and counters are integers; [JNaN] is what [Number] gives for text
    that is no number. Fractions are outside the model. *)
Inductive jsnum : Type :=
| JNum (z : Z)
| JNaN.

(** How a statement ends: normally with a value, or by throwing. *)
Inductive Completion (A : Type) : Type :=
| Returned (a : A)
| Thrown (error : string).
Arguments Returned {A} a.
Arguments Thrown {A} error.

(** What the code takes from the JavaScript runtime and the host:
    [Number] applied to a string, [Date.prototype.getHours] and
    [getMinutes] on an instant (milliseconds since the epoch, read in the
    local time zone), and the system clock, of which [clockAt k] is the
    k-th reading ([Date.now()] and [new Date()]) made by the process. *)
Class JsRuntime : Type := {
  Number : string -> jsnum;
  getHours : Z -> Z;
  getMinutes : Z -> Z;
  clockAt : nat -> Z
}.

(** [l.slice(-n)] for n > 0: the last n elements, all of them when the array
    is shorter. *)
Definition sliceLast {A : Type} (n : nat) (l : list A) : list A :=
  drop (length l - n) l.

(** [s.split(c)] for a one-character separator. [splitAcc] carries the
    characters of the current piece, most recent first. *)
Fixpoint revString (cs : list ascii) (acc : string) : string :=
  match cs with
  | [] => acc
  | c :: cs' => revString cs' (String c acc)
  end.

Fixpoint splitAcc (sep : ascii) (s : string) (cur : list ascii) : list string :=
  match s with
  | EmptyString => [revString cur EmptyString]
  | String c s' =>
      if Ascii.eqb c sep then revString cur EmptyString :: splitAcc sep s' []
      else splitAcc sep s' (c :: cur)
  end.

Definition split (sep : ascii) (s : string) : list string := splitAcc sep s [].

(** [a === b] between a number and an element destructured from an array of
    numbers ([None] is undefined: the array was too short). *)
Definition strictEqNum (a : Z) (b : option jsnum) : bool :=
  match b with
  | Some (JNum z) => Z.eqb a z
  | _ => false
  end.

(** [a + b], [a <= b] and [a >= b] on such values; NaN and undefined make the
    sum NaN and every comparison false. *)
Definition jsAdd (a b : option jsnum) : option jsnum :=
  match a, b with
  | Some (JNum x), Some (JNum y) => Some (JNum (x + y))
  | _, _ => Some JNaN
  end.

Definition jsLe (a b : option jsnum) : bool :=
  match a, b with
  | Some (JNum x), Some (JNum y) => Z.leb x y
  | _, _ => false
  end.

Definition jsGe (a b : option jsnum) : bool := jsLe b a.

(** [Math.abs(a - b) <= tol] with [a] a number. *)
Definition absDiffLe (a : Z) (b : option jsnum) (tol : Z) : bool :=
  match b with
  | Some (JNum z) => Z.leb (Z.abs (a - z)) tol
  | _ => false
  end.

Definition ofZ (o : option Z) : option jsnum :=
  match o with
  | Some z => Some (JNum z)
  | None => None
  end.

(** ** Data model *)

(** An activity object (typed [any] in the source), with the properties the
    pipeline reads. For [type], [text], [name] and [applicationName] the
    empty string also stands for a missing property: both are falsy and
    differ from every literal the code compares with. [timestamp] is the
    instant of the Date the activity carries. *)
Record Activity : Type := {
  atype : string;
  timestamp : option Z;
  key : option string;
  isSpecialKey : bool;
  text : string;
  x : option Z;
  y : option Z;
  mousePosition : option (Z * Z);
  name : string;
  applicationName : string;
  message : string
}.

Record Trigger : Type := {
  ttype : string;
  value : string
}.

Record AutomationTask : Type := {
  id : Z;
  taskName : string;
  taskDescription : string;
  steps : list string;
  triggers : list Trigger;
  executionCount : Z;
  isActive : bool
}.

(** [metadata] is the object createSuggestion bolts onto every suggestion;
    it is the only code that stores suggestions, so the [?.] of
    hasExistingSuggestion never meets a suggestion without it. *)
Record AutomationSuggestion : Type := {
  sid : Z;
  title : string;
  description : string;
  confidence : Q;
  activities : list Activity;
  createdAt : Z;
  mtype : string;
  subtype : string
}.

(** What is handed to listeners. *)
Inductive Payload : Type :=
| PSuggestion (s : AutomationSuggestion)
| PExecution (taskId : Z) (success : bool) (msg : string)
| PActivity (a : Activity).

(** ** Listener registries (the [on] / [notifyListeners] pair of each class) *)

Module Listeners.
Section Registry.
Context {Data World : Type}.

(** A registered callback: it acts on the world outside the component and
    either returns or throws. *)
Definition Listener : Type := Data -> World -> World * Completion unit.

(** The state a notification runs in: the outside world and the lines
    written with console.error. *)
Definition Env : Type := (World * list string)%type.

Definition Registry : Type := gmap string (list Listener).

(** [Array.prototype.forEach]: applies [f] to each element in index order;
    an exception thrown by [f] ends the loop and leaves forEach. *)
Fixpoint forEach {A St : Type} (f : A -> St -> St * Completion unit)
    (l : list A) (st : St) : St * Completion unit :=
  match l with
  | [] => (st, Returned tt)
  | a :: rest =>
      match f a st with
      | (st', Returned _) => forEach f rest st'
      | (st', Thrown e) => (st', Thrown e)
      end
  end.

Definition errorLine (event e : string) : string :=
  "Error in listener for event " +:+ event +:+ ": " +:+ e.

(** The arrow function given to forEach:
    [try { callback(data) } catch (error) { console.error(...) }]. *)
Definition guarded (event : string) (data : Data) (callback : Listener)
    (env : Env) : Env * Completion unit :=
  match callback data (fst env) with
  | (w, Returned _) => ((w, snd env), Returned tt)
  | (w, Thrown e) =>
      ((w, snd env ++ [errorLine event e]), Returned tt)
  end.

Definition notifyListeners (listeners : Registry) (event : string)
    (data : Data) (env : Env) : Env * Completion unit :=
  match listeners !! event with
  | Some callbacks => forEach (guarded event data) callbacks env
  | None => (env, Returned tt)
  end.

Definition on (event : string) (callback : Listener) (listeners : Registry)
    : Registry :=
  match listeners !! event with
  | Some callbacks => <[event := callbacks ++ [callback]]> listeners
  | None => <[event := [callback]]> listeners
  end.

(** The world after the callbacks ran one after the other, each on the
    world the previous one left, thrown or not. *)
Definition runAll (data : Data) (callbacks : list Listener) (w : World)
    : World :=
  fold_left (fun w' cb => fst (cb data w')) callbacks w.

Definition throws (data : Data) (cb : Listener) (w : World) : bool :=
  match snd (cb data w) with
  | Returned _ => false
  | Thrown _ => true
  end.

(** The callbacks that threw during [runAll], counted. *)
Fixpoint thrownCount (data : Data) (callbacks : list Listener) (w : World)
    : nat :=
  match callbacks with
  | [] => 0
  | cb :: rest =>
      (if throws data cb w then 1 else 0)
      + thrownCount data rest (fst (cb data w))
  end.
End Registry.
End Listeners.

(** ** client/src/lib/automationManager.ts *)

Module Client.

Definition dquote : string := String (Ascii.ascii_of_nat 34) EmptyString.

Section Manager.
Context {rt : JsRuntime} {World : Type}.

Definition historyMaxLength : nat := 1000.

(** The fields of the class, then what it acts on: [env] is the world of
    the listeners with the console.error lines, [clockReads] counts the
    readings of the system clock so far, [notified] lists the calls of
    notifyListeners and [executeCalls] the calls of executeTask made by
    checkTriggers (each sends its request and completes later, see
    [executeTask]). Listeners act on [env] only. *)
Record Manager : Type := {
  activityHistory : list Activity;
  tasks : list AutomationTask;
  suggestions : list AutomationSuggestion;
  listeners : @Listeners.Registry Payload World;
  env : @Listeners.Env World;
  clockReads : nat;
  notified : list (string * Payload);
  executeCalls : list Z
}.

Definition setHistory (h : list Activity) (s : Manager) : Manager :=
  {| activityHistory := h; tasks := tasks s; suggestions := suggestions s;
     listeners := listeners s; env := env s; clockReads := clockReads s;
     notified := notified s; executeCalls := executeCalls s |}.

Definition setTasks (ts : list AutomationTask) (s : Manager) : Manager :=
  {| activityHistory := activityHistory s; tasks := ts;
     suggestions := suggestions s; listeners := listeners s; env := env s;
     clockReads := clockReads s; notified := notified s;
     executeCalls := executeCalls s |}.

Definition setSuggestions (l : list AutomationSuggestion) (s : Manager)
    : Manager :=
  {| activityHistory := activityHistory s; tasks := tasks s;
     suggestions := l; listeners := listeners s; env := env s;
     clockReads := clockReads s; notified := notified s;
     executeCalls := executeCalls s |}.

Definition setEnv (e : @Listeners.Env World) (s : Manager) : Manager :=
  {| activityHistory := activityHistory s; tasks := tasks s;
     suggestions := suggestions s; listeners := listeners s; env := e;
     clockReads := clockReads s; notified := notified s;
     executeCalls := executeCalls s |}.

Definition setClockReads (k : nat) (s : Manager) : Manager :=
  {| activityHistory := activityHistory s; tasks := tasks s;
     suggestions := suggestions s; listeners := listeners s; env := env s;
     clockReads := k; notified := notified s;
     executeCalls := executeCalls s |}.

Definition addNotified (event : string) (data : Payload) (s : Manager)
    : Manager :=
  {| activityHistory := activityHistory s; tasks := tasks s;
     suggestions := suggestions s; listeners := listeners s; env := env s;
     clockReads := clockReads s; notified := notified s ++ [(event, data)];
     executeCalls := executeCalls s |}.

Definition addExecuteCalls (ids : list Z) (s : Manager) : Manager :=
  {| activityHistory := activityHistory s; tasks := tasks s;
     suggestions := suggestions s; listeners := listeners s; env := env s;
     clockReads := clockReads s; notified := notified s;
     executeCalls := executeCalls s ++ ids |}.

Definition consoleError (line : string) (s : Manager) : Manager :=
  setEnv (fst (env s), snd (env s) ++ [line]) s.

(** notifyListeners with its completion. *)
Definition notifyListeners (event : string) (data : Payload) (s : Manager)
    : Manager * Completion unit :=
  let r := Listeners.notifyListeners (listeners s) event data (env s) in
  (addNotified event data (setEnv (fst r) s), snd r).

(** notifyListeners where nothing is around it to catch: it completes
    normally whatever the callbacks do ([notifyListeners_returned]). *)
Definition notify (event : string) (data : Payload) (s : Manager) : Manager :=
  fst (notifyListeners event data s).

Definition hasExistingSuggestion (type sub : string) (s : Manager) : bool :=
  existsb (fun sg => (mtype sg =? type) && (subtype sg =? sub))
          (suggestions s).

(** createSuggestion: the clock is read for the id and again for
    createdAt; push, then shift when more than 10 are held. *)
Definition createSuggestion (ttl descr : string) (conf : Q)
    (acts : list Activity) (type sub : string) (s : Manager) : Manager :=
  let suggestion :=
    {| sid := clockAt (clockReads s); title := ttl; description := descr;
       confidence := conf; activities := acts;
       createdAt := clockAt (S (clockReads s));
       mtype := type; subtype := sub |} in
  let pushed := suggestions s ++ [suggestion] in
  let kept := if (10 <? length pushed)%nat then tail pushed else pushed in
  notify "suggestion" (PSuggestion suggestion)
    (setSuggestions kept (setClockReads (S (S (clockReads s))) s)).

(** typeCounts: the object of counters, as the list of its entries in the
    order the keys were first set. (Object.entries lists keys that read
    as array indices before the others; only the entries of keyboard and
    mouse_click change anything below, and those two come in the order
    they were set.) *)
Fixpoint bump (k : string) (tc : list (string * nat)) : list (string * nat) :=
  match tc with
  | [] => [(k, 1)]
  | (k', c) :: rest =>
      if k' =? k then (k', S c) :: rest else (k', c) :: bump k rest
  end.

Definition countTypes (recent : list Activity) : list (string * nat) :=
  fold_left (fun tc a => if atype a =? "" then tc else bump (atype a) tc)
            recent [].

Definition repeatedTextDescription : string :=
  "You've typed similar text multiple times. Would you like to create a template?".

Definition repeatedClicksDescription : string :=
  "You've clicked in the same area multiple times. Want to automate this?".

(** One turn of the loop over the entries of typeCounts. *)
Definition repeatedEntry (recent : list Activity) (entry : string * nat)
    (s : Manager) : Manager :=
  let (type, count) := entry in
  if (3 <=? count)%nat then
    if hasExistingSuggestion "repeated_sequence" type s then s
    else
      let acts := List.filter (fun a => atype a =? type) recent in
      if (type =? "keyboard") && existsb (fun a => negb (text a =? "")) acts
      then createSuggestion "Repeated Text Input" repeatedTextDescription
             0.7%Q acts "repeated_sequence" type s
      else if type =? "mouse_click"
      then createSuggestion "Repeated Clicks Detected"
             repeatedClicksDescription 0.6%Q acts "repeated_sequence" type s
      else s
  else s.

Definition detectRepeatedSequence (s : Manager) : Manager :=
  let recent := sliceLast 20 (activityHistory s) in
  fold_left (fun s' entry => repeatedEntry recent entry s')
            (countTypes recent) s.

Definition detectTimeBasedPatterns (s : Manager) : Manager := s.

Definition isAppActivity (a : Activity) : bool :=
  (atype a =? "application")
  || ((atype a =? "screen_capture") && negb (applicationName a =? "")).

Definition appNameOf (a : Activity) : string :=
  if atype a =? "application" then name a else applicationName a.

Definition includes (k : string) (l : list string) : bool :=
  existsb (fun k' => k' =? k) l.

(** The backward loop of detectApplicationPatterns, over the activities
    from index i down to 0 ([acts] lists them in that order); it ends when
    three names are held. *)
Fixpoint collectApps (acts : list Activity) (recentApps : list string)
    : list string :=
  match acts with
  | [] => recentApps
  | a :: rest =>
      if (length recentApps <? 3)%nat then
        let appName := appNameOf a in
        if negb (appName =? "") && negb (includes appName recentApps)
        then collectApps rest (recentApps ++ [appName])
        else collectApps rest recentApps
      else recentApps
  end.

Definition detectApplicationPatterns (s : Manager) : Manager :=
  let appActivities := List.filter isAppActivity (activityHistory s) in
  if (length appActivities <? 3)%nat then s
  else
    let recentApps := collectApps (rev appActivities) [] in
    if (length recentApps =? 3)%nat then
      let sequenceKey := String.concat "," recentApps in
      if hasExistingSuggestion "app_sequence" sequenceKey s then s
      else createSuggestion "Application Sequence"
             ("You often open " +:+ String.concat ", " recentApps
                +:+ " together. Create a workflow?")
             0.65%Q (sliceLast 5 appActivities) "app_sequence" sequenceKey s
    else s.

Definition detectPatterns (s : Manager) : Manager :=
  if (length (activityHistory s) <? 10)%nat then s
  else detectApplicationPatterns
         (detectTimeBasedPatterns (detectRepeatedSequence s)).

Definition numbersOf (sep : ascii) (v : string) : list jsnum :=
  map Number (split sep v).

(** The switch of checkTriggers: whether [trigger] sets shouldTrigger, with
    [now] the instant read by [new Date()] in the time case. *)
Definition triggerFires (now : Z) (activity : Activity) (trigger : Trigger)
    : bool :=
  if ttype trigger =? "time" then
    let parts := numbersOf ":" (value trigger) in
    strictEqNum (getHours now) (parts !! 0)
    && strictEqNum (getMinutes now) (parts !! 1)
  else if ttype trigger =? "mouse" then
    match mousePosition activity with
    | Some (mx, my) =>
        if atype activity =? "screen_capture" then
          let parts := numbersOf "," (value trigger) in
          absDiffLe mx (parts !! 0) 20 && absDiffLe my (parts !! 1) 20
        else false
    | None => false
    end
  else if ttype trigger =? "keyboard" then
    (atype activity =? "keyboard") && isSpecialKey activity
    && match key activity with
       | Some k => k =? value trigger
       | None => false
       end
  else if ttype trigger =? "click" then
    if atype activity =? "mouse_click" then
      let parts := numbersOf "," (value trigger) in
      jsGe (ofZ (x activity)) (parts !! 0)
      && jsLe (ofZ (x activity)) (jsAdd (parts !! 0) (parts !! 2))
      && jsGe (ofZ (y activity)) (parts !! 1)
      && jsLe (ofZ (y activity)) (jsAdd (parts !! 1) (parts !! 3))
    else false
  else false.

(** The inner loop over the triggers of one task, from clock reading [k]:
    whether executeTask is called (the loop then breaks), and the clock
    readings made. A time trigger reads the clock once. *)
Fixpoint checkTaskTriggers (k : nat) (activity : Activity)
    (trs : list Trigger) : bool * nat :=
  match trs with
  | [] => (false, k)
  | trigger :: rest =>
      let k' := if ttype trigger =? "time" then S k else k in
      if triggerFires (clockAt k) activity trigger then (true, k')
      else checkTaskTriggers k' activity rest
  end.

(** The outer loop: the tasks executeTask is called for, in order. *)
Fixpoint checkTasks (k : nat) (activity : Activity)
    (ts : list AutomationTask) : list AutomationTask * nat :=
  match ts with
  | [] => ([], k)
  | task :: rest =>
      if isActive task then
        let (fired, k') := checkTaskTriggers k activity (triggers task) in
        let (more, k'') := checkTasks k' activity rest in
        (if fired then task :: more else more, k'')
      else checkTasks k activity rest
  end.

Definition checkTriggers (activity : Activity) (s : Manager) : Manager :=
  let (fired, k) := checkTasks (clockReads s) activity (tasks s) in
  addExecuteCalls (map id fired) (setClockReads k s).

Definition checkForPatterns (activity : Activity) (s : Manager) : Manager :=
  let pushed := activityHistory s ++ [activity] in
  let history :=
    if (historyMaxLength <? length pushed)%nat
    then sliceLast historyMaxLength pushed else pushed in
  checkTriggers activity (detectPatterns (setHistory history s)).

(** What the request of executeTask comes to: a response with [ok] set, a
    response without, or a rejected fetch. *)
Inductive FetchOutcome : Type :=
| ResponseOk
| ResponseNotOk
| FetchRejected (error : string).

Definition findTask (taskId : Z) (ts : list AutomationTask)
    : option AutomationTask :=
  List.find (fun t => (id t =? taskId)%Z) ts.

Definition incremented (t : AutomationTask) : AutomationTask :=
  {| id := id t; taskName := taskName t;
     taskDescription := taskDescription t; steps := steps t;
     triggers := triggers t; executionCount := (executionCount t + 1)%Z;
     isActive := isActive t |}.

(** [task.executionCount++] on the object [find] returned: the first task
    of the array with that id. *)
Fixpoint incrementFound (taskId : Z) (ts : list AutomationTask)
    : list AutomationTask :=
  match ts with
  | [] => []
  | t :: rest =>
      if (id t =? taskId)%Z then incremented t :: rest
      else t :: incrementFound taskId rest
  end.

Definition successMessage (task : AutomationTask) : string :=
  "Task " +:+ dquote +:+ taskName task +:+ dquote
    +:+ " executed successfully".

Definition failureMessage (task : AutomationTask) : string :=
  "Failed to execute task " +:+ dquote +:+ taskName task +:+ dquote.

(** The try block of executeTask. *)
Definition executeTry (taskId : Z) (task : AutomationTask)
    (outcome : FetchOutcome) (s : Manager) : Manager * Completion bool :=
  match outcome with
  | FetchRejected e => (s, Thrown e)
  | ResponseNotOk => (s, Thrown "Failed to execute task")
  | ResponseOk =>
      let counted := setTasks (incrementFound taskId (tasks s)) s in
      match notifyListeners "task"
              (PExecution taskId true (successMessage task)) counted with
      | (s', Returned _) => (s', Returned true)
      | (s', Thrown e) => (s', Thrown e)
      end
  end.

(** The catch block. *)
Definition executeCatch (taskId : Z) (task : AutomationTask) (e : string)
    (s : Manager) : Manager * Completion bool :=
  let logged := consoleError ("Error executing task: " +:+ e) s in
  match notifyListeners "task"
          (PExecution taskId false (failureMessage task)) logged with
  | (s', Returned _) => (s', Returned false)
  | (s', Thrown e') => (s', Thrown e')
  end.

(** executeTask, with the outcome of its request. *)
Definition executeTask (taskId : Z) (outcome : FetchOutcome) (s : Manager)
    : Manager * Completion bool :=
  match findTask taskId (tasks s) with
  | None => (consoleError "Task not found" s, Returned false)
  | Some task =>
      match executeTry taskId task outcome s with
      | (s', Returned b) => (s', Returned b)
      | (s', Thrown e) => executeCatch taskId task e s'
      end
  end.

(** The manager as the constructor leaves it, with the tasks loaded. *)
Definition initial (ts : list AutomationTask) (w : World) : Manager :=
  {| activityHistory := []; tasks := ts; suggestions := [];
     listeners := {["suggestion" := []; "task" := []]};
     env := (w, []); clockReads := 0; notified := []; executeCalls := [] |}.

Definition feed (evs : list Activity) (s : Manager) : Manager :=
  fold_left (fun s' a => checkForPatterns a s') evs s.
End Manager.
End Client.

(** ** The words of the design document, for the client manager *)

Module ClientSpec.
Import Client.

Section Words.
Context {rt : JsRuntime} {World : Type}.
Implicit Types (s : @Manager World) (a : Activity) (l acc : list string).

(** The dedup key of a stored suggestion. *)
Definition keyOf (sg : AutomationSuggestion) : string * string :=
  (mtype sg, subtype sg).

Definition keys s : list (string * string) := keyOf <$> suggestions s.

(** The suggestion createSuggestion builds in state [s]. *)
Definition built (ttl descr : string) (conf : Q) (acts : list Activity)
    (type sub : string) s : AutomationSuggestion :=
  {| sid := clockAt (clockReads s); title := ttl; description := descr;
     confidence := conf; activities := acts;
     createdAt := clockAt (S (clockReads s));
     mtype := type; subtype := sub |}.



(** The application names the history carries, most recent first. *)
Definition observedNames (h : list Activity) : list string :=
  List.filter (fun n => negb (n =? ""))
    (map appNameOf (rev (List.filter isAppActivity h))).

(** A list of names without its repetitions: each name stays where it
    comes first. *)
Fixpoint distinctFirst l : list string :=
  match l with
  | [] => []
  | n :: rest => n :: List.filter (fun m => negb (m =? n)) (distinctFirst rest)
  end.

Definition threeDistinct l : Prop :=
  exists n1 n2 n3,
    In n1 l /\ In n2 l /\ In n3 l /\ n1 <> n2 /\ n1 <> n3 /\ n2 <> n3.

(** The names a run of activities carries, in the order of the run. *)
Definition namesOf (acts : list Activity) : list string :=
  List.filter (fun n => negb (n =? "")) (map appNameOf acts).
End Words.
End ClientSpec.

(** ** Measures and shapes used to state what the code does *)

Module Measures.
Import Client.

(** Whether a request came back with [ok] set. *)
Definition succeeded (o : FetchOutcome) : bool :=
  match o with
  | ResponseOk => true
  | _ => false
  end.

(** [typeCounts[k]], 0 when the object has no such key. *)
Definition typeCount (k : string) (tc : list (string * nat)) : nat :=
  match List.find (fun entry => fst entry =? k) tc with
  | Some entry => snd entry
  | None => 0
  end.

(** The activities of kind [k] in a window, counted. *)
Definition occurrences (k : string) (l : list Activity) : nat :=
  length (List.filter (fun a => atype a =? k) l).

(** The kinds the repeated-type detector makes suggestions for. *)
Definition emitKind (k : string) : bool :=
  (k =? "keyboard") || (k =? "mouse_click").

Section Runs.
Context {rt : JsRuntime} {World : Type}.

(** executeTask called for one task once per outcome, each call completing
    before the next. *)
Definition executeAll (taskId : Z) (outcomes : list FetchOutcome)
    (s : @Manager World) : @Manager World :=
  fold_left (fun s' o => fst (executeTask taskId o s')) outcomes s.
End Runs.
End Measures.

Module Shapes.

(** What the detectors make: a suggestion for repeated text (keyboard
    activities, one at least with text), one for repeated clicks, or one
    for a sequence of three distinct applications; 3 to 20 activities of the
    kind for the first two, the last 3 to 5 application activities for the
    third. *)
Definition suggestionShape (sg : AutomationSuggestion) : Prop :=
  (mtype sg = "repeated_sequence" /\ subtype sg = "keyboard"
   /\ confidence sg = 0.7%Q
   /\ Forall (fun a => atype a = "keyboard") (activities sg)
   /\ Exists (fun a => text a <> "") (activities sg)
   /\ 3 <= length (activities sg) <= 20)
  \/ (mtype sg = "repeated_sequence" /\ subtype sg = "mouse_click"
      /\ confidence sg = 0.6%Q
      /\ Forall (fun a => atype a = "mouse_click") (activities sg)
      /\ 3 <= length (activities sg) <= 20)
  \/ (mtype sg = "app_sequence" /\ confidence sg = 0.65%Q
      /\ (exists names, subtype sg = String.concat "," names
                         /\ length names = 3 /\ List.NoDup names
                         /\ Forall (fun n => n <> "") names)
      /\ Forall (fun a => Client.isAppActivity a = true) (activities sg)
      /\ 3 <= length (activities sg) <= 5).

(** The notifications of a run of suggestions. *)
Definition suggestionEvents (sgs : list AutomationSuggestion)
    : list (string * Payload) :=
  map (fun sg => ("suggestion", PSuggestion sg)) sgs.
Section Steps.
Context {World : Type}.

(** What a detector step may do: notify the suggestions [sgs], each of a
    known shape, and keep a store of known shapes so. *)
Definition emits (sgs : list AutomationSuggestion)
    (s s' : @Client.Manager World) : Prop :=
  Client.notified s' = Client.notified s ++ suggestionEvents sgs
  /\ Forall suggestionShape sgs
  /\ (Forall suggestionShape (Client.suggestions s) ->
      Forall suggestionShape (Client.suggestions s')).

End Steps.
End Shapes.

(** ** server/storage.ts and server/modules/automationManager.ts *)

Module Server.

(** A row of the automation_tasks table: the task of the manager's
    interface with the owner and the time of the last execution. *)
Record StoredTask : Type := {
  core : AutomationTask;
  userId : option Z;
  lastExecuted : option Z
}.

Record ActivityLog : Type := {
  logId : Z;
  logUserId : option Z;
  activityType : string;
  logDescription : string;
  logTaskId : Z;
  logExecutionCount : Z;
  logTimestamp : Z
}.

Section Storage.
Context {rt : JsRuntime}.

(** MemStorage, with the tables the automation manager uses, and the
    number of clock readings made so far. *)
Record MemStorage : Type := {
  automationTasks : gmap Z StoredTask;
  activityLogs : gmap Z ActivityLog;
  currentActivityLogId : Z;
  clockReads : nat
}.

Definition getAutomationTask (taskId : Z) (st : MemStorage)
    : option StoredTask :=
  automationTasks st !! taskId.

Definition executed (now : Z) (t : StoredTask) : StoredTask :=
  {| core := Client.incremented (core t); userId := userId t;
     lastExecuted := Some now |}.

Definition updateAutomationTaskExecutionCount (taskId : Z) (st : MemStorage)
    : MemStorage * Completion StoredTask :=
  match automationTasks st !! taskId with
  | None => (st, Thrown "Automation task not found")
  | Some t =>
      let updatedTask := executed (clockAt (clockReads st)) t in
      ({| automationTasks := <[taskId := updatedTask]> (automationTasks st);
          activityLogs := activityLogs st;
          currentActivityLogId := currentActivityLogId st;
          clockReads := S (clockReads st) |},
       Returned updatedTask)
  end.

(** createActivityLog for the record executeTask writes. *)
Definition createActivityLog (owner : option Z) (descr : string)
    (taskId count : Z) (st : MemStorage) : MemStorage :=
  let entry :=
    {| logId := currentActivityLogId st; logUserId := owner;
       activityType := "automation"; logDescription := descr;
       logTaskId := taskId; logExecutionCount := count;
       logTimestamp := clockAt (clockReads st) |} in
  {| automationTasks := automationTasks st;
     activityLogs := <[currentActivityLogId st := entry]> (activityLogs st);
     currentActivityLogId := (currentActivityLogId st + 1)%Z;
     clockReads := S (clockReads st) |}.

(** The try block of executeTask. *)
Definition executeTry (taskId : Z) (st : MemStorage)
    : MemStorage * Completion bool :=
  match getAutomationTask taskId st with
  | None => (st, Thrown "Automation task not found")
  | Some task =>
      match updateAutomationTaskExecutionCount taskId st with
      | (st', Thrown e) => (st', Thrown e)
      | (st', Returned _) =>
          (createActivityLog (userId task)
             ("Executed automation task: " +:+ taskName (core task))
             (id (core task)) (executionCount (core task) + 1)%Z st',
           Returned true)
      end
  end.

(** executeTask: whatever the try block throws is logged and answered
    with false. *)
Definition executeTask (taskId : Z) (st : MemStorage)
    : MemStorage * Completion bool :=
  match executeTry taskId st with
  | (st', Returned b) => (st', Returned b)
  | (st', Thrown _) => (st', Returned false)
  end.

(** activityMatchesTrigger. *)
Definition activityMatchesTrigger (activity : Activity) (trigger : Trigger)
    : bool :=
  if ttype trigger =? "time" then
    match timestamp activity with
    | Some ts =>
        if atype activity =? "system" then
          let parts := Client.numbersOf ":" (value trigger) in
          strictEqNum (getHours ts) (parts !! 0)
          && strictEqNum (getMinutes ts) (parts !! 1)
        else false
    | None => false
    end
  else if ttype trigger =? "mouse" then
    match mousePosition activity with
    | Some (mx, my) =>
        if atype activity =? "screen_capture" then
          let parts := Client.numbersOf "," (value trigger) in
          absDiffLe mx (parts !! 0) 20 && absDiffLe my (parts !! 1) 20
        else false
    | None => false
    end
  else if ttype trigger =? "keyboard" then
    if (atype activity =? "keyboard") && isSpecialKey activity then
      match key activity with
      | Some k => k =? value trigger
      | None => false
      end
    else false
  else if ttype trigger =? "click" then
    if atype activity =? "mouse_click" then
      let parts := Client.numbersOf "," (value trigger) in
      jsGe (ofZ (x activity)) (parts !! 0)
      && jsLe (ofZ (x activity)) (jsAdd (parts !! 0) (parts !! 2))
      && jsGe (ofZ (y activity)) (parts !! 1)
      && jsLe (ofZ (y activity)) (jsAdd (parts !! 1) (parts !! 3))
    else false
  else false.

(** The loops of checkTriggers over [tasks], the array
    getAutomationTasksByUserId answered: the first active task with a
    trigger the activity matches is returned, null when there is none. *)
Fixpoint firstMatching (activity : Activity) (trs : list Trigger) : bool :=
  match trs with
  | [] => false
  | trigger :: rest =>
      if activityMatchesTrigger activity trigger then true
      else firstMatching activity rest
  end.

Fixpoint checkTriggers (tasks : list StoredTask) (activity : Activity)
    : option StoredTask :=
  match tasks with
  | [] => None
  | task :: rest =>
      if isActive (core task) then
        if firstMatching activity (triggers (core task)) then Some task
        else checkTriggers rest activity
      else checkTriggers rest activity
  end.
End Storage.
End Server.

(** ** client/src/lib/activityTracker.ts *)

Module Tracker.

Record Settings : Type := {
  captureIntervalMs : Z;
  enableKeyLogging : bool;
  enableScreenCapture : bool;
  enableAutomationSuggestions : bool
}.

(** The keyboardLogger singleton: whether it logs, its key buffer, and
    whether its keydown handler is attached to the document. *)
Record KeyboardLogger : Type := {
  isLogging : bool;
  keyBuffer : list string;
  keydownAttached : bool
}.

Section ActivityTracker.
Context {World : Type}.

(** The fields of the class ([captureInterval] is the handle setInterval
    answered), then what it acts on: the keyboard logger, the interval
    timers of the window that run (handle and period), the next handle the
    window gives (handles are positive), the world of the listeners with
    the console.error lines, and the calls of notifyListeners. *)
Record ActivityTracker : Type := {
  isTracking : bool;
  settings : Settings;
  captureInterval : option positive;
  listeners : @Listeners.Registry Payload World;
  keyboardLogger : KeyboardLogger;
  activeTimers : list (positive * Z);
  nextHandle : positive;
  env : @Listeners.Env World;
  notified : list (string * Payload)
}.

Definition keyboardStart (k : KeyboardLogger) : KeyboardLogger :=
  if isLogging k then k
  else {| isLogging := true; keyBuffer := []; keydownAttached := true |}.

(** keyboardLogger.stop: the buffered text is flushed to the keypress
    listeners; the tracker's own listener drops it, isTracking being
    false by then. *)
Definition keyboardStop (k : KeyboardLogger) : KeyboardLogger :=
  if isLogging k
  then {| isLogging := false; keyBuffer := []; keydownAttached := false |}
  else k.

Definition notifyListeners (event : string) (data : Payload)
    (t : ActivityTracker) : ActivityTracker * Completion unit :=
  let r := Listeners.notifyListeners (listeners t) event data (env t) in
  ({| isTracking := isTracking t; settings := settings t;
      captureInterval := captureInterval t; listeners := listeners t;
      keyboardLogger := keyboardLogger t; activeTimers := activeTimers t;
      nextHandle := nextHandle t; env := fst r;
      notified := notified t ++ [(event, data)] |},
   snd r).

Definition systemMessage (msg : string) : Activity :=
  {| atype := "system"; timestamp := None; key := None;
     isSpecialKey := false; text := ""; x := None; y := None;
     mousePosition := None; name := ""; applicationName := "";
     message := msg |}.

Definition start (t : ActivityTracker) : ActivityTracker * Completion unit :=
  if isTracking t then (t, Returned tt)
  else
    let keyboard :=
      if enableKeyLogging (settings t) then keyboardStart (keyboardLogger t)
      else keyboardLogger t in
    let capturing := enableScreenCapture (settings t) in
    notifyListeners "activity"
      (PActivity (systemMessage "Activity tracking started"))
      {| isTracking := true; settings := settings t;
         captureInterval :=
           if capturing then Some (nextHandle t) else captureInterval t;
         listeners := listeners t; keyboardLogger := keyboard;
         activeTimers :=
           if capturing
           then activeTimers t
                  ++ [(nextHandle t, captureIntervalMs (settings t))]
           else activeTimers t;
         nextHandle :=
           if capturing then Pos.succ (nextHandle t) else nextHandle t;
         env := env t; notified := notified t |}.

Definition clearInterval (handle : positive) (timers : list (positive * Z))
    : list (positive * Z) :=
  List.filter (fun timer => negb (Pos.eqb (fst timer) handle)) timers.

Definition stop (t : ActivityTracker) : ActivityTracker * Completion unit :=
  if isTracking t then
    notifyListeners "activity"
      (PActivity (systemMessage "Activity tracking stopped"))
      {| isTracking := false; settings := settings t;
         captureInterval := None; listeners := listeners t;
         keyboardLogger := keyboardStop (keyboardLogger t);
         activeTimers :=
           match captureInterval t with
           | Some handle => clearInterval handle (activeTimers t)
           | None => activeTimers t
           end;
         nextHandle := nextHandle t; env := env t;
         notified := notified t |}
  else (t, Returned tt).

Definition defaultSettings : Settings :=
  {| captureIntervalMs := 1000; enableKeyLogging := true;
     enableScreenCapture := true; enableAutomationSuggestions := true |}.

(** The tracker as the constructor leaves it, in a window whose next
    timer handle is [handle]. *)
Definition initial (handle : positive) (w : World) : ActivityTracker :=
  {| isTracking := false; settings := defaultSettings;
     captureInterval := None;
     listeners := {["activity" := []; "screenshot" := []; "automation" := []]};
     keyboardLogger :=
       {| isLogging := false; keyBuffer := []; keydownAttached := false |};
     activeTimers := []; nextHandle := handle; env := (w, []);
     notified := [] |}.
(** *** updateSettings and runs of calls *)

(** A [Partial<Settings>]: the properties it holds. *)
Record PartialSettings : Type := {
  newCaptureIntervalMs : option Z;
  newEnableKeyLogging : option bool;
  newEnableScreenCapture : option bool;
  newEnableAutomationSuggestions : option bool
}.

(** [{ ...old, ...p }]. *)
Definition mergeSettings (old : Settings) (p : PartialSettings) : Settings :=
  {| captureIntervalMs := default (captureIntervalMs old) (newCaptureIntervalMs p);
     enableKeyLogging := default (enableKeyLogging old) (newEnableKeyLogging p);
     enableScreenCapture :=
       default (enableScreenCapture old) (newEnableScreenCapture p);
     enableAutomationSuggestions :=
       default (enableAutomationSuggestions old)
               (newEnableAutomationSuggestions p) |}.

Definition setSettings (st : Settings) (t : ActivityTracker)
    : ActivityTracker :=
  {| isTracking := isTracking t; settings := st;
     captureInterval := captureInterval t; listeners := listeners t;
     keyboardLogger := keyboardLogger t; activeTimers := activeTimers t;
     nextHandle := nextHandle t; env := env t; notified := notified t |}.

(** updateSettings: stop when tracking, merge, start again when it was
    tracking. *)
Definition updateSettings (p : PartialSettings) (t : ActivityTracker)
    : ActivityTracker * Completion unit :=
  if isTracking t then
    match stop t with
    | (stopped, Returned _) =>
        start (setSettings (mergeSettings (settings stopped) p) stopped)
    | (stopped, Thrown e) => (stopped, Thrown e)
    end
  else (setSettings (mergeSettings (settings t) p) t, Returned tt).

(** The calls a page makes on the tracker. *)
Inductive Op : Type :=
| OpStart
| OpStop
| OpUpdateSettings (p : PartialSettings).

Definition applyOp (op : Op) (t : ActivityTracker)
    : ActivityTracker * Completion unit :=
  match op with
  | OpStart => start t
  | OpStop => stop t
  | OpUpdateSettings p => updateSettings p t
  end.

(** A run of calls, each made on the tracker the previous one left. *)
Definition runOps (ops : list Op) (t : ActivityTracker) : ActivityTracker :=
  fold_left (fun t' op => fst (applyOp op t')) ops t.

(** The capture timer and the keyboard logger follow the state and the
    settings: tracking with screen capture enabled, exactly one interval
    timer runs, it is the tracker's and its period is the configured one;
    otherwise no timer runs; the keyboard logger logs exactly when the
    tracker tracks with key logging enabled. *)
Definition cadenceFollowsSettings (t : ActivityTracker) : Prop :=
  (if isTracking t && enableScreenCapture (settings t)
   then exists handle,
          captureInterval t = Some handle
          /\ activeTimers t = [(handle, captureIntervalMs (settings t))]
   else captureInterval t = None /\ activeTimers t = [])
  /\ isLogging (keyboardLogger t)
     = isTracking t && enableKeyLogging (settings t).
End ActivityTracker.
End Tracker.

(** ** The client keyboard logger and its wiring to the tracker *)

Module Keyboard.

(** The event the logger hands to its keypress listeners; [evText] is empty
    when the event has no text. *)
Record KeyboardEvent : Type := {
  evKey : string;
  evIsSpecialKey : bool;
  evText : string;
  evTimestamp : Z
}.

Definition specialKeys : list string :=
  ["Shift"; "Control"; "Alt"; "Meta"; "Enter"; "Tab"; "Escape"; "Backspace";
   "Delete"; "ArrowUp"; "ArrowDown"; "ArrowLeft"; "ArrowRight"; "Home";
   "End"; "PageUp"; "PageDown"].

Definition isDigit (c : ascii) : bool :=
  let n := nat_of_ascii c in ((48 <=? n) && (n <=? 57))%nat.

(** [/F\d+/.test(s)]: somewhere in [s] an F is followed by a digit. *)
Fixpoint testFDigits (s : string) : bool :=
  match s with
  | EmptyString => false
  | String c rest =>
      match rest with
      | String d _ => Ascii.eqb c "F" && isDigit d
      | EmptyString => false
      end
      || testFDigits rest
  end.

Definition startsWithF (s : string) : bool :=
  match s with
  | String c _ => Ascii.eqb c "F"
  | EmptyString => false
  end.

(** The value handleKeyPress computes for isSpecialKey. *)
Definition isSpecial (key : string) : bool :=
  Client.includes key specialKeys || (startsWithF key && testFDigits key).

Definition newline : string := String (Ascii.ascii_of_nat 10) EmptyString.

(** The keys after which the buffer is flushed. *)
Definition flushKeys : list string :=
  [" "; "."; ","; "!"; "?"; ";"; ":"; newline].

Section Logger.
Context {rt : JsRuntime}.
Implicit Types (kl : Tracker.KeyboardLogger) (k : nat).

Definition setBuffer (buffer : list string) kl : Tracker.KeyboardLogger :=
  {| Tracker.isLogging := Tracker.isLogging kl;
     Tracker.keyBuffer := buffer;
     Tracker.keydownAttached := Tracker.keydownAttached kl |}.

(** flushKeyBuffer from clock reading [k]: the logger after, the events
    handed to the listeners, and the clock readings made. *)
Definition flushKeyBuffer k kl
    : Tracker.KeyboardLogger * list KeyboardEvent * nat :=
  match Tracker.keyBuffer kl with
  | [] => (kl, [], k)
  | _ :: _ =>
      (setBuffer [] kl,
       [{| evKey := "text-input"; evIsSpecialKey := false;
           evText := String.concat "" (Tracker.keyBuffer kl);
           evTimestamp := clockAt k |}],
       S k)
  end.

(** handleKeyPress for a keydown event with key [key]. *)
Definition handleKeyPress (key : string) k kl
    : Tracker.KeyboardLogger * list KeyboardEvent * nat :=
  if Tracker.isLogging kl then
    if isSpecial key then
      (kl,
       [{| evKey := key; evIsSpecialKey := true; evText := "";
           evTimestamp := clockAt k |}],
       S k)
    else
      let pushed := setBuffer (Tracker.keyBuffer kl ++ [key]) kl in
      if (key =? " ") || Client.includes key flushKeys
         || (20 <=? length (Tracker.keyBuffer pushed))%nat
      then flushKeyBuffer k pushed
      else (pushed, [], k)
  else (kl, [], k).

(** stop, with the flush it ends on. *)
Definition stop k kl : Tracker.KeyboardLogger * list KeyboardEvent * nat :=
  if Tracker.isLogging kl then
    flushKeyBuffer k
      {| Tracker.isLogging := false;
         Tracker.keyBuffer := Tracker.keyBuffer kl;
         Tracker.keydownAttached := false |}
  else (kl, [], k).

(** A run of keydown events. *)
Fixpoint typeKeys (keys : list string) k kl
    : Tracker.KeyboardLogger * list KeyboardEvent * nat :=
  match keys with
  | [] => (kl, [], k)
  | key :: rest =>
      let '(kl1, evs1, k1) := handleKeyPress key k kl in
      let '(kl2, evs2, k2) := typeKeys rest k1 kl1 in
      (kl2, evs1 ++ evs2, k2)
  end.
End Logger.
End Keyboard.

Module Page.
Import Keyboard.

Section Wiring.
Context {rt : JsRuntime} {World : Type}.

(** The tracker with what its keypress listener reaches: the clock (as the
    number of readings made), the activities handed to saveActivity and the
    activities handed to automationManager.checkForPatterns. *)
Record Page : Type := {
  tracker : @Tracker.ActivityTracker World;
  clockReads : nat;
  saved : list Activity;
  checked : list Activity
}.

(** [{ type: 'keyboard', timestamp: new Date(), ...keyboardEvent }]: the
    event's own timestamp replaces the one just read. *)
Definition keyboardActivity (ev : KeyboardEvent) : Activity :=
  {| atype := "keyboard"; timestamp := Some (evTimestamp ev);
     key := Some (evKey ev); isSpecialKey := evIsSpecialKey ev;
     text := evText ev; x := None; y := None; mousePosition := None;
     name := ""; applicationName := ""; message := "" |}.

(** The keypress listener setupEventListeners registers. *)
Definition onKeypress (p : Page) (ev : KeyboardEvent) : Page :=
  if Tracker.isTracking (tracker p) then
    let activity := keyboardActivity ev in
    {| tracker :=
         fst (Tracker.notifyListeners "activity" (PActivity activity)
                (tracker p));
       clockReads := S (clockReads p);
       saved := saved p ++ [activity];
       checked :=
         if Tracker.enableAutomationSuggestions (Tracker.settings (tracker p))
         then checked p ++ [activity] else checked p |}
  else p.

Definition setKeyboardLogger (kl : Tracker.KeyboardLogger)
    (t : @Tracker.ActivityTracker World) : @Tracker.ActivityTracker World :=
  {| Tracker.isTracking := Tracker.isTracking t;
     Tracker.settings := Tracker.settings t;
     Tracker.captureInterval := Tracker.captureInterval t;
     Tracker.listeners := Tracker.listeners t;
     Tracker.keyboardLogger := kl;
     Tracker.activeTimers := Tracker.activeTimers t;
     Tracker.nextHandle := Tracker.nextHandle t;
     Tracker.env := Tracker.env t; Tracker.notified := Tracker.notified t |}.

(** What the logger emitted, delivered to the listener. *)
Definition deliver
    (r : Tracker.KeyboardLogger * list KeyboardEvent * nat) (p : Page)
    : Page :=
  let '(kl, evs, k) := r in
  fold_left onKeypress evs
    {| tracker := setKeyboardLogger kl (tracker p); clockReads := k;
       saved := saved p; checked := checked p |}.

(** A keydown event of the document. *)
Definition pressKey (key : string) (p : Page) : Page :=
  deliver (handleKeyPress key (clockReads p)
             (Tracker.keyboardLogger (tracker p))) p.

(** ActivityTracker.stop with keyboardLogger.stop as it is: the flag is
    cleared and the timer cancelled, then the logger stops and flushes to
    the listener, then the stop is notified. *)
Definition stop (p : Page) : Page :=
  let t := tracker p in
  if Tracker.isTracking t then
    let halted :=
      {| Tracker.isTracking := false; Tracker.settings := Tracker.settings t;
         Tracker.captureInterval := None;
         Tracker.listeners := Tracker.listeners t;
         Tracker.keyboardLogger := Tracker.keyboardLogger t;
         Tracker.activeTimers :=
           match Tracker.captureInterval t with
           | Some handle =>
               Tracker.clearInterval handle (Tracker.activeTimers t)
           | None => Tracker.activeTimers t
           end;
         Tracker.nextHandle := Tracker.nextHandle t;
         Tracker.env := Tracker.env t; Tracker.notified := Tracker.notified t |} in
    let flushed :=
      deliver (Keyboard.stop (clockReads p) (Tracker.keyboardLogger t))
        {| tracker := halted; clockReads := clockReads p; saved := saved p;
           checked := checked p |} in
    {| tracker :=
         fst (Tracker.notifyListeners "activity"
                (PActivity (Tracker.systemMessage "Activity tracking stopped"))
                (tracker flushed));
       clockReads := clockReads flushed; saved := saved flushed;
       checked := checked flushed |}
  else p.

(** The notifications of a run of keyboard activities. *)
Definition activityEvents (acts : list Activity) : list (string * Payload) :=
  map (fun a => ("activity", PActivity a)) acts.
End Wiring.
End Page.

(** ** server/storage.ts: the whole of MemStorage *)

(** A [Map<number, V>]: the entries in insertion order. [set] on a key the
    map holds replaces the value where the entry stands, [set] on a new key
    appends; a map never holds a key twice. *)
Module JsMap.
Section Map.
Context {V : Type}.

Fixpoint get (k : Z) (m : list (Z * V)) : option V :=
  match m with
  | [] => None
  | (k', v) :: rest => if (k' =? k)%Z then Some v else get k rest
  end.

Fixpoint set (k : Z) (v : V) (m : list (Z * V)) : list (Z * V) :=
  match m with
  | [] => [(k, v)]
  | (k', v') :: rest =>
      if (k' =? k)%Z then (k, v) :: rest else (k', v') :: set k v rest
  end.

Definition delete (k : Z) (m : list (Z * V)) : list (Z * V) :=
  List.filter (fun entry => negb (fst entry =? k)%Z) m.

(** [Array.from(m.values())] and the keys beside them. *)
Definition values (m : list (Z * V)) : list V := map snd m.

Definition keys (m : list (Z * V)) : list Z := map fst m.
End Map.
End JsMap.

Module Store.

(** The insert types of the schema, and the rows: a row is the insert
    object spread, with the columns the storage adds. A column that may be
    null or missing is an option. *)
Record InsertUser : Type := {
  username : string;
  password : string
}.

Record User : Type := {
  userId : Z;
  account : InsertUser
}.

Record InsertScreenshot : Type := {
  shotUserId : option Z;
  fullScreenPath : string;
  mouseAreaPath : string;
  mouseX : Z;
  mouseY : Z;
  activeWindow : option string;
  activeApplication : option string;
  extractedText : option string;
  shotConfidence : option Z
}.

Record Screenshot : Type := {
  shotId : Z;
  shotTimestamp : Z;
  shot : InsertScreenshot
}.

(** The task rows are those of [Server]. [newIsActive] is the truth value
    of the property: the code only tests it, and a missing one reads
    false. [newDescription] is empty when the object has none. *)
Record InsertAutomationTask : Type := {
  newUserId : option Z;
  newName : string;
  newDescription : string;
  newSteps : list string;
  newTriggers : list Trigger;
  newIsActive : bool
}.

(** Every column of settings but [userId] has a default in the schema, so
    the insert object may lack it; MemStorage applies no default. *)
Record InsertSettings : Type := {
  settingsUserId : Z;
  captureInterval : option Z;
  keepHistoryDays : option Z;
  enableKeyLogging : option bool;
  enableScreenCapture : option bool;
  enableAutomationSuggestions : option bool;
  sidebarPosition : option string;
  theme : option string
}.

Record Settings : Type := {
  settingsId : Z;
  prefs : InsertSettings
}.

Section MemStorage.
Context {rt : JsRuntime} {Json : Type}.

Record InsertActivityLog : Type := {
  logUserId : option Z;
  activityType : string;
  logDescription : string;
  data : option Json;
  screenshotId : option Z
}.

Record ActivityLog : Type := {
  logId : Z;
  logTimestamp : Z;
  entry : InsertActivityLog
}.

(** The five maps, the five counters, and the number of clock readings
    made so far. *)
Record MemStorage : Type := {
  users : list (Z * User);
  screenshots : list (Z * Screenshot);
  activityLogs : list (Z * ActivityLog);
  automationTasks : list (Z * Server.StoredTask);
  userSettings : list (Z * Settings);
  currentUserId : Z;
  currentScreenshotId : Z;
  currentActivityLogId : Z;
  currentAutomationTaskId : Z;
  currentSettingsId : Z;
  clockReads : nat
}.

Definition defaultUser : User :=
  {| userId := 1;
     account := {| username := "default"; password := "password" |} |}.

(** The store the constructor leaves, in a process that has read the clock
    [reads] times. *)
Definition empty (reads : nat) : MemStorage :=
  {| users := JsMap.set 1 defaultUser [];
     screenshots := []; activityLogs := []; automationTasks := [];
     userSettings := [];
     currentUserId := 1; currentScreenshotId := 1;
     currentActivityLogId := 1; currentAutomationTaskId := 1;
     currentSettingsId := 1; clockReads := reads |}.

(** [row.userId === userId]. *)
Definition ownedBy (owner : Z) (column : option Z) : bool :=
  match column with
  | Some u => (u =? owner)%Z
  | None => false
  end.

(** *** Users *)

Definition getUser (id : Z) (st : MemStorage) : option User :=
  JsMap.get id (users st).

Definition getUserByUsername (name : string) (st : MemStorage)
    : option User :=
  List.find (fun user => username (account user) =? name)
            (JsMap.values (users st)).

Definition createUser (insertUser : InsertUser) (st : MemStorage)
    : MemStorage * User :=
  let id := currentUserId st in
  let user := {| userId := id; account := insertUser |} in
  ({| users := JsMap.set id user (users st);
      screenshots := screenshots st; activityLogs := activityLogs st;
      automationTasks := automationTasks st;
      userSettings := userSettings st;
      currentUserId := (id + 1)%Z;
      currentScreenshotId := currentScreenshotId st;
      currentActivityLogId := currentActivityLogId st;
      currentAutomationTaskId := currentAutomationTaskId st;
      currentSettingsId := currentSettingsId st;
      clockReads := clockReads st |},
   user).

(** *** Screenshots *)

Definition getScreenshot (id : Z) (st : MemStorage) : option Screenshot :=
  JsMap.get id (screenshots st).

Definition setScreenshots (m : list (Z * Screenshot)) (st : MemStorage)
    : MemStorage :=
  {| users := users st; screenshots := m; activityLogs := activityLogs st;
     automationTasks := automationTasks st;
     userSettings := userSettings st;
     currentUserId := currentUserId st;
     currentScreenshotId := currentScreenshotId st;
     currentActivityLogId := currentActivityLogId st;
     currentAutomationTaskId := currentAutomationTaskId st;
     currentSettingsId := currentSettingsId st;
     clockReads := clockReads st |}.

Definition createScreenshot (insertScreenshot : InsertScreenshot)
    (st : MemStorage) : MemStorage * Screenshot :=
  let id := currentScreenshotId st in
  let screenshot :=
    {| shotId := id; shotTimestamp := clockAt (clockReads st);
       shot := insertScreenshot |} in
  ({| users := users st;
      screenshots := JsMap.set id screenshot (screenshots st);
      activityLogs := activityLogs st;
      automationTasks := automationTasks st;
      userSettings := userSettings st;
      currentUserId := currentUserId st;
      currentScreenshotId := (id + 1)%Z;
      currentActivityLogId := currentActivityLogId st;
      currentAutomationTaskId := currentAutomationTaskId st;
      currentSettingsId := currentSettingsId st;
      clockReads := S (clockReads st) |},
   screenshot).

(** [{ ...screenshot, fullScreenPath, mouseAreaPath }]. *)
Definition withPaths (full mouse : string) (s : Screenshot) : Screenshot :=
  {| shotId := shotId s; shotTimestamp := shotTimestamp s;
     shot :=
       {| shotUserId := shotUserId (shot s);
          fullScreenPath := full; mouseAreaPath := mouse;
          mouseX := mouseX (shot s); mouseY := mouseY (shot s);
          activeWindow := activeWindow (shot s);
          activeApplication := activeApplication (shot s);
          extractedText := extractedText (shot s);
          shotConfidence := shotConfidence (shot s) |} |}.

Definition updateScreenshotPaths (id : Z) (full mouse : string)
    (st : MemStorage) : MemStorage * Completion Screenshot :=
  match JsMap.get id (screenshots st) with
  | None =>
      (st, Thrown ("Screenshot with ID " +:+ pretty id +:+ " not found"))
  | Some screenshot =>
      let updatedScreenshot := withPaths full mouse screenshot in
      (setScreenshots (JsMap.set id updatedScreenshot (screenshots st)) st,
       Returned updatedScreenshot)
  end.

Definition getScreenshotsByUserId (owner : Z) (st : MemStorage)
    : list Screenshot :=
  List.filter (fun s => ownedBy owner (shotUserId (shot s)))
              (JsMap.values (screenshots st)).

(** *** Activity logs *)

(** [logs.sort((a, b) => b.timestamp - a.timestamp)]: newest first; the
    sort is stable, so logs of one instant keep their order. *)
Fixpoint insertByTime (log : ActivityLog) (sorted : list ActivityLog)
    : list ActivityLog :=
  match sorted with
  | [] => [log]
  | other :: rest =>
      if (logTimestamp log <? logTimestamp other)%Z
      then other :: insertByTime log rest
      else log :: other :: rest
  end.

Definition newestFirst (logs : list ActivityLog) : list ActivityLog :=
  fold_right insertByTime [] logs.

(** [first] may stand before [second] in such an array. *)
Definition newerFirst (first second : ActivityLog) : Prop :=
  (logTimestamp second <= logTimestamp first)%Z.

Definition getActivityLogs (st : MemStorage) : list ActivityLog :=
  newestFirst (JsMap.values (activityLogs st)).

Definition getActivityLogsByUserId (owner : Z) (st : MemStorage)
    : list ActivityLog :=
  newestFirst
    (List.filter (fun log => ownedBy owner (logUserId (entry log)))
                 (JsMap.values (activityLogs st))).

Definition setActivityLogs (m : list (Z * ActivityLog)) (st : MemStorage)
    : MemStorage :=
  {| users := users st; screenshots := screenshots st; activityLogs := m;
     automationTasks := automationTasks st;
     userSettings := userSettings st;
     currentUserId := currentUserId st;
     currentScreenshotId := currentScreenshotId st;
     currentActivityLogId := currentActivityLogId st;
     currentAutomationTaskId := currentAutomationTaskId st;
     currentSettingsId := currentSettingsId st;
     clockReads := clockReads st |}.

Definition createActivityLog (insertActivityLog : InsertActivityLog)
    (st : MemStorage) : MemStorage * ActivityLog :=
  let id := currentActivityLogId st in
  let activityLog :=
    {| logId := id; logTimestamp := clockAt (clockReads st);
       entry := insertActivityLog |} in
  ({| users := users st; screenshots := screenshots st;
      activityLogs := JsMap.set id activityLog (activityLogs st);
      automationTasks := automationTasks st;
      userSettings := userSettings st;
      currentUserId := currentUserId st;
      currentScreenshotId := currentScreenshotId st;
      currentActivityLogId := (id + 1)%Z;
      currentAutomationTaskId := currentAutomationTaskId st;
      currentSettingsId := currentSettingsId st;
      clockReads := S (clockReads st) |},
   activityLog).

(** *** Automation tasks *)

Definition getAutomationTasks (st : MemStorage) : list Server.StoredTask :=
  JsMap.values (automationTasks st).

Definition getAutomationTask (id : Z) (st : MemStorage)
    : option Server.StoredTask :=
  JsMap.get id (automationTasks st).

Definition getAutomationTasksByUserId (owner : Z) (st : MemStorage)
    : list Server.StoredTask :=
  List.filter (fun task => ownedBy owner (Server.userId task))
              (JsMap.values (automationTasks st)).

Definition setAutomationTasks (m : list (Z * Server.StoredTask))
    (reads : nat) (st : MemStorage) : MemStorage :=
  {| users := users st; screenshots := screenshots st;
     activityLogs := activityLogs st; automationTasks := m;
     userSettings := userSettings st;
     currentUserId := currentUserId st;
     currentScreenshotId := currentScreenshotId st;
     currentActivityLogId := currentActivityLogId st;
     currentAutomationTaskId := currentAutomationTaskId st;
     currentSettingsId := currentSettingsId st;
     clockReads := reads |}.

Definition createAutomationTask (insertTask : InsertAutomationTask)
    (st : MemStorage) : MemStorage * Server.StoredTask :=
  let taskId := currentAutomationTaskId st in
  let task :=
    {| Server.core :=
         {| id := taskId; taskName := newName insertTask;
            taskDescription := newDescription insertTask;
            steps := newSteps insertTask;
            triggers := newTriggers insertTask;
            executionCount := 0; isActive := newIsActive insertTask |};
       Server.userId := newUserId insertTask;
       Server.lastExecuted := None |} in
  ({| users := users st; screenshots := screenshots st;
      activityLogs := activityLogs st;
      automationTasks := JsMap.set taskId task (automationTasks st);
      userSettings := userSettings st;
      currentUserId := currentUserId st;
      currentScreenshotId := currentScreenshotId st;
      currentActivityLogId := currentActivityLogId st;
      currentAutomationTaskId := (taskId + 1)%Z;
      currentSettingsId := currentSettingsId st;
      clockReads := clockReads st |},
   task).

Definition updateAutomationTaskExecutionCount (taskId : Z) (st : MemStorage)
    : MemStorage * Completion Server.StoredTask :=
  match JsMap.get taskId (automationTasks st) with
  | None =>
      (st,
       Thrown ("Automation task with ID " +:+ pretty taskId +:+ " not found"))
  | Some task =>
      let updatedTask := Server.executed (clockAt (clockReads st)) task in
      (setAutomationTasks
         (JsMap.set taskId updatedTask (automationTasks st))
         (S (clockReads st)) st,
       Returned updatedTask)
  end.

(** *** Settings *)

Definition getSettingsByUserId (owner : Z) (st : MemStorage)
    : option Settings :=
  List.find (fun s => (settingsUserId (prefs s) =? owner)%Z)
            (JsMap.values (userSettings st)).

Definition setUserSettings (m : list (Z * Settings)) (st : MemStorage)
    : MemStorage :=
  {| users := users st; screenshots := screenshots st;
     activityLogs := activityLogs st;
     automationTasks := automationTasks st; userSettings := m;
     currentUserId := currentUserId st;
     currentScreenshotId := currentScreenshotId st;
     currentActivityLogId := currentActivityLogId st;
     currentAutomationTaskId := currentAutomationTaskId st;
     currentSettingsId := currentSettingsId st;
     clockReads := clockReads st |}.

Definition createSettings (insertSettings : InsertSettings)
    (st : MemStorage) : MemStorage * Settings :=
  let id := currentSettingsId st in
  let settingsObj := {| settingsId := id; prefs := insertSettings |} in
  ({| users := users st; screenshots := screenshots st;
      activityLogs := activityLogs st;
      automationTasks := automationTasks st;
      userSettings := JsMap.set id settingsObj (userSettings st);
      currentUserId := currentUserId st;
      currentScreenshotId := currentScreenshotId st;
      currentActivityLogId := currentActivityLogId st;
      currentAutomationTaskId := currentAutomationTaskId st;
      currentSettingsId := (id + 1)%Z;
      clockReads := clockReads st |},
   settingsObj).

(** [{ ...a, ...b }] on one property that [b] may lack. *)
Definition spread {A : Type} (a b : option A) : option A :=
  match b with
  | Some v => Some v
  | None => a
  end.

(** [{ ...settings, ...updatedSettings }]. *)
Definition mergeSettings (settings : Settings) (updated : InsertSettings)
    : Settings :=
  let old := prefs settings in
  {| settingsId := settingsId settings;
     prefs :=
       {| settingsUserId := settingsUserId updated;
          captureInterval :=
            spread (captureInterval old) (captureInterval updated);
          keepHistoryDays :=
            spread (keepHistoryDays old) (keepHistoryDays updated);
          enableKeyLogging :=
            spread (enableKeyLogging old) (enableKeyLogging updated);
          enableScreenCapture :=
            spread (enableScreenCapture old) (enableScreenCapture updated);
          enableAutomationSuggestions :=
            spread (enableAutomationSuggestions old)
                   (enableAutomationSuggestions updated);
          sidebarPosition :=
            spread (sidebarPosition old) (sidebarPosition updated);
          theme := spread (theme old) (theme updated) |} |}.

Definition updateSettings (id : Z) (updatedSettings : InsertSettings)
    (st : MemStorage) : MemStorage * Completion Settings :=
  match JsMap.get id (userSettings st) with
  | None =>
      (st, Thrown ("Settings with ID " +:+ pretty id +:+ " not found"))
  | Some settings =>
      let newSettings := mergeSettings settings updatedSettings in
      (setUserSettings (JsMap.set id newSettings (userSettings st)) st,
       Returned newSettings)
  end.

(** *** clearUserData *)

(** [rows.forEach(row => m.delete(row.id))]. *)
Definition deleteEach {R : Type} (rowId : R -> Z) (rows : list R)
    (m : list (Z * R)) : list (Z * R) :=
  fold_left (fun m' row => JsMap.delete (rowId row) m') rows m.

(** The keys such a loop leaves in the map: the ids of none of the rows. *)
Definition spared {R : Type} (rowId : R -> Z) (rows : list R) (k : Z)
    : bool :=
  negb (existsb (fun row => (rowId row =? k)%Z) rows).

(** One call run to its end, no other call of the storage made between
    its awaits. *)
Definition clearUserData (owner : Z) (st : MemStorage) : MemStorage :=
  let st1 :=
    setScreenshots
      (deleteEach shotId (getScreenshotsByUserId owner st) (screenshots st))
      st in
  let st2 :=
    setActivityLogs
      (deleteEach logId (getActivityLogsByUserId owner st1)
                  (activityLogs st1))
      st1 in
  let st3 :=
    setAutomationTasks
      (deleteEach (fun task => id (Server.core task))
                  (getAutomationTasksByUserId owner st2)
                  (automationTasks st2))
      (clockReads st2) st2 in
  match getSettingsByUserId owner st3 with
  | Some settings =>
      setUserSettings (JsMap.delete (settingsId settings) (userSettings st3))
                      st3
  | None => st3
  end.

(** *** server/modules/automationManager.ts on the store *)

(** checkTriggers(userId, activity): the loops run over what
    getAutomationTasksByUserId answers. *)
Definition checkTriggers (owner : Z) (activity : Activity) (st : MemStorage)
    : option Server.StoredTask :=
  Server.checkTriggers (getAutomationTasksByUserId owner st) activity.

(** *** server/modules/screenCapture.ts on the store *)

(** What captureScreen answers. *)
Record Captured : Type := {
  capturedId : Z;
  capturedFullScreenPath : string;
  capturedMouseAreaPath : string;
  capturedMouseX : Z;
  capturedMouseY : Z;
  capturedTimestamp : Z
}.

Definition placeholder (owner mx my : Z) : InsertScreenshot :=
  {| shotUserId := Some owner;
     fullScreenPath := "placeholder"; mouseAreaPath := "placeholder";
     mouseX := mx; mouseY := my;
     activeWindow := Some "Unknown"; activeApplication := Some "Unknown";
     extractedText := Some ""; shotConfidence := Some 0%Z |}.

(** The paths the record gets; [pretty] writes the id in decimal. *)
Definition apiFullScreenPath (id : Z) : string :=
  "/api/screenshots/" +:+ pretty id.

Definition apiMouseAreaPath (id : Z) : string :=
  "/api/screenshots/" +:+ pretty id +:+ "/mouse-area".

(** captureScreen: the record is created with placeholder paths, the two
    files are written, the record gets its paths. [written] tells whether
    both fs.writeFileSync calls return; the files are outside the model.
    Whatever is thrown inside is answered with one error. *)
Definition captureScreen (owner mx my : Z) (written : bool)
    (st : MemStorage) : MemStorage * Completion Captured :=
  let created := createScreenshot (placeholder owner mx my) st in
  let screenshot := snd created in
  if written then
    match updateScreenshotPaths (shotId screenshot)
            (apiFullScreenPath (shotId screenshot))
            (apiMouseAreaPath (shotId screenshot)) (fst created) with
    | (st', Returned updated) =>
        (st',
         Returned
           {| capturedId := shotId updated;
              capturedFullScreenPath := fullScreenPath (shot updated);
              capturedMouseAreaPath := mouseAreaPath (shot updated);
              capturedMouseX := mouseX (shot updated);
              capturedMouseY := mouseY (shot updated);
              capturedTimestamp := shotTimestamp updated |})
    | (st', Thrown _) => (st', Thrown "Failed to capture screen")
    end
  else (fst created, Thrown "Failed to capture screen").

(** *** Runs of calls *)

(** The calls that write. *)
Inductive Op : Type :=
| OpCreateUser (insertUser : InsertUser)
| OpCreateScreenshot (insertScreenshot : InsertScreenshot)
| OpUpdateScreenshotPaths (id : Z) (full mouse : string)
| OpCreateActivityLog (insertActivityLog : InsertActivityLog)
| OpCreateAutomationTask (insertTask : InsertAutomationTask)
| OpUpdateAutomationTaskExecutionCount (taskId : Z)
| OpCreateSettings (insertSettings : InsertSettings)
| OpUpdateSettings (id : Z) (updatedSettings : InsertSettings)
| OpClearUserData (owner : Z).

Definition applyOp (op : Op) (st : MemStorage) : MemStorage :=
  match op with
  | OpCreateUser u => fst (createUser u st)
  | OpCreateScreenshot s => fst (createScreenshot s st)
  | OpUpdateScreenshotPaths i full mouse =>
      fst (updateScreenshotPaths i full mouse st)
  | OpCreateActivityLog l => fst (createActivityLog l st)
  | OpCreateAutomationTask t => fst (createAutomationTask t st)
  | OpUpdateAutomationTaskExecutionCount i =>
      fst (updateAutomationTaskExecutionCount i st)
  | OpCreateSettings s => fst (createSettings s st)
  | OpUpdateSettings i s => fst (updateSettings i s st)
  | OpClearUserData u => clearUserData u st
  end.

(** A run of calls on the store of a fresh process. *)
Definition runOps (ops : list Op) (reads : nat) : MemStorage :=
  fold_left (fun st op => applyOp op st) ops (empty reads).

(** The counters of a store. *)
Definition counters (st : MemStorage) : list Z :=
  [currentUserId st; currentScreenshotId st; currentActivityLogId st;
   currentAutomationTaskId st; currentSettingsId st].

(** Every row of a table stands under its own id, the ids grow in the
    order of the entries, and all are below the counter. *)
Definition tableOk {R : Type} (rowId : R -> Z) (next : Z)
    (m : list (Z * R)) : Prop :=
  StronglySorted Z.lt (JsMap.keys m)
  /\ Forall (fun k => (k < next)%Z) (JsMap.keys m)
  /\ Forall (fun e => rowId (snd e) = fst e) m.

(** The users' table is the one the constructor writes to without moving
    the counter. *)
Definition storeOk (st : MemStorage) : Prop :=
  (tableOk userId (currentUserId st) (users st)
   \/ (currentUserId st = 1%Z /\ users st = [(1%Z, defaultUser)]))
  /\ tableOk shotId (currentScreenshotId st) (screenshots st)
  /\ tableOk logId (currentActivityLogId st) (activityLogs st)
  /\ tableOk (fun task => id (Server.core task))
             (currentAutomationTaskId st) (automationTasks st)
  /\ tableOk settingsId (currentSettingsId st) (userSettings st).
End MemStorage.
End Store.

(** What a run of calls is expected to leave. *)
Module StoreSpec.
Section Accounts.
Context {Json : Type}.

(** The accounts a run creates, in the order of the calls. *)
Definition createdUsers (ops : list (@Store.Op Json))
    : list Store.InsertUser :=
  flat_map (fun op => match op with
                      | Store.OpCreateUser u => [u]
                      | _ => []
                      end) ops.

(** Accounts numbered from [next] on. *)
Fixpoint numbered (next : Z) (accounts : list Store.InsertUser)
    : list Store.User :=
  match accounts with
  | [] => []
  | a :: rest =>
      {| Store.userId := next; Store.account := a |}
        :: numbered (next + 1) rest
  end.

(** A user as the entry of the map it is. *)
Definition under (u : Store.User) : Z * Store.User := (Store.userId u, u).

Definition expectedUsers (ops : list (@Store.Op Json)) : list Store.User :=
  match createdUsers ops with
  | [] => [Store.defaultUser]
  | accounts => numbered 1 accounts
  end.
End Accounts.

(** A task fires on an activity: it is active and one of its triggers
    matches. *)
Definition fires {rt : JsRuntime} (activity : Activity)
    (task : Server.StoredTask) : bool :=
  isActive (Server.core task)
  && existsb (Server.activityMatchesTrigger activity)
             (triggers (Server.core task)).

(** The first element of an array the predicate holds for is left out. *)
Fixpoint removeFirst {A : Type} (p : A -> bool) (l : list A) : list A :=
  match l with
  | [] => []
  | a :: rest => if p a then rest else a :: removeFirst p rest
  end.
End StoreSpec.

(** ** A runtime to evaluate the code on concrete inputs *)

Module Sample.

Definition digitValue (c : ascii) : option Z :=
  let n := nat_of_ascii c in
  if ((48 <=? n) && (n <=? 57))%nat then Some (Z.of_nat (n - 48)) else None.

Fixpoint digitsValue (s : string) (acc : Z) : option Z :=
  match s with
  | EmptyString => Some acc
  | String c rest =>
      match digitValue c with
      | Some d => digitsValue rest (10 * acc + d)%Z
      | None => None
      end
  end.

(** [Number] on the decimal integer literals ([Number("")] is 0); this sample
    reads every other text as NaN. *)
Definition decimalNumber (s : string) : jsnum :=
  match digitsValue s 0%Z with
  | Some z => JNum z
  | None => JNaN
  end.

(** Hours and minutes of an instant in a zone without offset. *)
Definition utcHours (ms : Z) : Z := ((ms / 3600000) mod 24)%Z.
Definition utcMinutes (ms : Z) : Z := ((ms / 60000) mod 60)%Z.

Definition runtime (clock : nat -> Z) : JsRuntime :=
  {| Number := decimalNumber; getHours := utcHours; getMinutes := utcMinutes;
     clockAt := clock |}.

(** A clock that advances one millisecond per reading from [start]. *)
Definition ticking (start : Z) : nat -> Z := fun k => (start + Z.of_nat k)%Z.

Definition blank : Activity :=
  {| atype := ""; timestamp := None; key := None; isSpecialKey := false;
     text := ""; x := None; y := None; mousePosition := None; name := "";
     applicationName := ""; message := "" |}.

Definition click (cx cy : Z) : Activity :=
  {| atype := "mouse_click"; timestamp := None; key := None;
     isSpecialKey := false; text := ""; x := Some cx; y := Some cy;
     mousePosition := None; name := ""; applicationName := "";
     message := "" |}.

Definition keyPress (k : string) : Activity :=
  {| atype := "keyboard"; timestamp := None; key := Some k;
     isSpecialKey := true; text := ""; x := None; y := None;
     mousePosition := None; name := ""; applicationName := "";
     message := "" |}.

Definition application (n : string) : Activity :=
  {| atype := "application"; timestamp := None; key := None;
     isSpecialKey := false; text := ""; x := None; y := None;
     mousePosition := None; name := n; applicationName := "";
     message := "" |}.

Definition systemAt (ms : Z) : Activity :=
  {| atype := "system"; timestamp := Some ms; key := None;
     isSpecialKey := false; text := ""; x := None; y := None;
     mousePosition := None; name := ""; applicationName := "";
     message := "" |}.

Definition task (i : Z) (trs : list Trigger) (active : bool)
    : AutomationTask :=
  {| id := i; taskName := "task"; taskDescription := ""; steps := [];
     triggers := trs; executionCount := 0; isActive := active |}.

(** *** Inputs of the worked cases *)

Definition rt0 : JsRuntime := Sample.runtime (Sample.ticking 0).

(** 09:30 on the first day of the epoch, and a runtime whose clock stands
    there. *)
Definition halfPastNine : Z := (9 * 3600000 + 30 * 60000)%Z.

Definition rtHalfPastNine : JsRuntime := Sample.runtime (fun _ => halfPastNine).

Definition manager0 (ts : list AutomationTask) : @Client.Manager unit :=
  Client.initial ts tt.

Definition stored (t : AutomationTask) : Server.StoredTask :=
  {| Server.core := t; Server.userId := Some 1%Z;
     Server.lastExecuted := None |}.

Definition clicks (n : nat) : list Activity := repeat (Sample.click 5 5) n.

Definition dummySuggestion : AutomationSuggestion :=
  {| sid := 0; title := ""; description := ""; confidence := 0.5%Q;
     activities := []; createdAt := 0; mtype := "app_sequence";
     subtype := "a,b,c" |}.

Definition afterTenClicks : @Client.Manager unit :=
  @Client.feed rt0 unit (clicks 10) (manager0 []).

Definition afterThreeApps : @Client.Manager unit :=
  @Client.feed rt0 unit
    (clicks 7 ++ map Sample.application ["A"; "B"; "C"]) (manager0 []).

Definition fullStore : @Client.Manager unit :=
  Client.setSuggestions (repeat dummySuggestion 10) (manager0 []).

Definition captureAt (mx my : Z) : Activity :=
  {| atype := "screen_capture"; timestamp := None; key := None;
     isSpecialKey := false; text := ""; x := None; y := None;
     mousePosition := Some (mx, my); name := ""; applicationName := "";
     message := "" |}.

Definition storage0 : Server.MemStorage :=
  {| Server.automationTasks := {[ 7%Z := stored (Sample.task 7 [] true) ]};
     Server.activityLogs := ∅; Server.currentActivityLogId := 1;
     Server.clockReads := 0 |}.

(** *** Inputs for the tracker and the keyboard logger *)

Definition tracker0 : @Tracker.ActivityTracker unit := Tracker.initial 1 tt.

Definition trackingTracker : @Tracker.ActivityTracker unit :=
  fst (Tracker.start tracker0).

Definition halfSecond : Tracker.PartialSettings :=
  {| Tracker.newCaptureIntervalMs := Some 500%Z;
     Tracker.newEnableKeyLogging := None;
     Tracker.newEnableScreenCapture := None;
     Tracker.newEnableAutomationSuggestions := Some false |}.

Definition loggingLogger : Tracker.KeyboardLogger :=
  {| Tracker.isLogging := true; Tracker.keyBuffer := [];
     Tracker.keydownAttached := true |}.

End Sample.

(** Whether the character occurs in the string. *)
Fixpoint hasChar (c : ascii) (s : string) : bool :=
  match s with
  | EmptyString => false
  | String d rest => Ascii.eqb d c || hasChar c rest
  end.

(** ** Lists: the last elements of an array *)

Section SliceLast.
Context {A : Type}.
Implicit Types (l k : list A) (n : nat).

Lemma sliceLast_short n l : length l <= n -> sliceLast n l = l.
Proof.
  intros Hle. unfold sliceLast.
  replace (length l - n) with 0 by lia. reflexivity.
Qed.

Lemma sliceLast_length n l : length (sliceLast n l) = Nat.min n (length l).
Proof. unfold sliceLast. rewrite length_drop. lia. Qed.

Lemma sliceLast_suffix n l : exists older, l = older ++ sliceLast n l.
Proof.
  exists (take (length l - n) l). unfold sliceLast.
  by rewrite take_drop.
Qed.

(** Trimming, appending and trimming again keeps what trimming the whole
    keeps. *)
Lemma sliceLast_app_sliceLast n l k :
  sliceLast n (sliceLast n l ++ k) = sliceLast n (l ++ k).
Proof.
  destruct (Nat.le_gt_cases (length l) n) as [Hle|Hgt].
  - by rewrite (sliceLast_short n l Hle).
  - unfold sliceLast at 1 3.
    rewrite !length_app, sliceLast_length.
    replace (Nat.min n (length l)) with n by lia.
    destruct (sliceLast_suffix n l) as [older Hsplit].
    assert (Holder : length older = length l - n).
    { apply (f_equal length) in Hsplit.
      rewrite length_app, sliceLast_length in Hsplit. lia. }
    rewrite Hsplit at 3. rewrite <- app_assoc.
    replace (length l + length k - n) with (length older + length k) by lia.
    rewrite drop_app_add. f_equal. lia.
Qed.

(** Two suffixes of one list with one length are one list. *)
Lemma suffix_unique l older older' recent recent' :
  l = older ++ recent -> l = older' ++ recent' ->
  length recent = length recent' -> recent = recent'.
Proof.
  intros H1 H2 Hlen. subst l.
  assert (Ho : length older = length older').
  { apply (f_equal length) in H2. rewrite !length_app in H2. lia. }
  by apply app_inj_1 in H2 as [_ ?].
Qed.
End SliceLast.

(** ** Properties of the listener registries *)

Module ListenerProps.
Import Listeners.

Section Notification.
Context {Data World : Type}.
Implicit Types (listeners : @Registry Data World) (env : @Env World).

Lemma forEach_guarded (event : string) (data : Data)
    (callbacks : list (@Listener Data World)) env :
  exists errors,
    forEach (guarded event data) callbacks env
      = ((runAll data callbacks (fst env), snd env ++ errors),
         Returned tt)
    /\ length errors = thrownCount data callbacks (fst env).
Proof.
  revert env. induction callbacks as [|cb rest IH]; intros [w console].
  - exists []. simpl. by rewrite app_nil_r.
  - cbn [forEach thrownCount runAll fold_left fst snd].
    unfold guarded at 1, throws. cbn [fst snd].
    destruct (cb data w) as [w' [u|e]] eqn:Hcb; cbn [fst snd].
    + destruct (IH (w', console)) as (errs & Heq & Hlen).
      exists errs. split; [exact Heq | exact Hlen].
    + destruct (IH (w', console ++ [errorLine event e]))
        as (errs & Heq & Hlen).
      exists (errorLine event e :: errs). rewrite Heq. cbn [fst snd].
      rewrite <- app_assoc. split; [reflexivity | simpl; by rewrite Hlen].
Qed.

(** A notification always completes normally and leaves the world the
    callbacks made of it. *)
Lemma notifyListeners_returns listeners (event : string) (data : Data) env :
  snd (notifyListeners listeners event data env) = Returned tt.
Proof.
  unfold notifyListeners. destruct (listeners !! event) as [cbs|]; [|done].
  destruct (forEach_guarded event data cbs env) as (errs & Heq & _).
  by rewrite Heq.
Qed.

(** C10. notifyListeners completes normally whatever the callbacks do;
    the callbacks registered for the event all ran, in the order of the
    array, each on the world the one before left, whether it returned or
    threw; one console.error line was written per callback that threw;
    [on] registers at the end of the array. *)
Theorem every_listener_notified listeners (event : string) (data : Data) env :
  snd (notifyListeners listeners event data env) = Returned tt
  /\ (forall callbacks, listeners !! event = Some callbacks ->
       exists errors,
         notifyListeners listeners event data env
           = ((runAll data callbacks (fst env), snd env ++ errors),
              Returned tt)
         /\ length errors = thrownCount data callbacks (fst env))
  /\ (listeners !! event = None ->
       notifyListeners listeners event data env = (env, Returned tt))
  /\ (forall (callback : @Listener Data World) rest w,
       runAll data (callback :: rest) w
         = runAll data rest (fst (callback data w)))
  /\ (forall callback : @Listener Data World,
       on event callback listeners !! event
         = Some (default [] (listeners !! event) ++ [callback])).
Proof.
  split; [apply notifyListeners_returns|]. split; [|split; [|split]].
  - intros callbacks Hreg. unfold notifyListeners. rewrite Hreg.
    apply forEach_guarded.
  - intros Hreg. unfold notifyListeners. by rewrite Hreg.
  - done.
  - intros callback. unfold on, Registry in *.
    destruct (listeners !! event) as [callbacks|] eqn:Hreg;
      by rewrite lookup_insert_eq.
Qed.
End Notification.
End ListenerProps.

(** ** Properties of the client manager *)

Module ClientProps.
Import Client ClientSpec.

Section Frame.
Context {rt : JsRuntime} {World : Type}.
Implicit Types (s : @Manager World) (a : Activity).

Lemma notifyListeners_returned event data s :
  snd (notifyListeners event data s) = Returned tt.
Proof. apply ListenerProps.notifyListeners_returns. Qed.

(** *** What each operation leaves alone *)

Lemma createSuggestion_history ttl descr conf acts type sub s :
  activityHistory (createSuggestion ttl descr conf acts type sub s)
    = activityHistory s.
Proof. reflexivity. Qed.

Lemma createSuggestion_tasks ttl descr conf acts type sub s :
  tasks (createSuggestion ttl descr conf acts type sub s) = tasks s.
Proof. reflexivity. Qed.

Lemma repeatedEntry_history recent entry s :
  activityHistory (repeatedEntry recent entry s) = activityHistory s.
Proof.
  unfold repeatedEntry. destruct entry as [type count].
  repeat (case_match; try reflexivity).
Qed.

Lemma fold_left_keeps {B C : Type} (f : @Manager World -> B -> @Manager World)
    (proj : @Manager World -> C) (l : list B) :
  (forall s b, proj (f s b) = proj s) ->
  forall s, proj (fold_left f l s) = proj s.
Proof.
  intros Hf. induction l as [|b l IH]; intros s; simpl; [done|].
  by rewrite IH, Hf.
Qed.

Lemma detectRepeatedSequence_history s :
  activityHistory (detectRepeatedSequence s) = activityHistory s.
Proof.
  unfold detectRepeatedSequence.
  apply (fold_left_keeps _ activityHistory). intros.
  apply repeatedEntry_history.
Qed.

Lemma detectApplicationPatterns_history s :
  activityHistory (detectApplicationPatterns s) = activityHistory s.
Proof.
  unfold detectApplicationPatterns. repeat (case_match; try reflexivity).
Qed.

Lemma detectPatterns_history s :
  activityHistory (detectPatterns s) = activityHistory s.
Proof.
  unfold detectPatterns, detectTimeBasedPatterns. case_match; [done|].
  by rewrite detectApplicationPatterns_history,
    detectRepeatedSequence_history.
Qed.

Lemma checkTriggers_history a s :
  activityHistory (checkTriggers a s) = activityHistory s.
Proof. unfold checkTriggers. by destruct (checkTasks _ _ _). Qed.

Lemma checkTriggers_suggestions a s :
  suggestions (checkTriggers a s) = suggestions s.
Proof. unfold checkTriggers. by destruct (checkTasks _ _ _). Qed.

Lemma checkTriggers_notified a s :
  notified (checkTriggers a s) = notified s.
Proof. unfold checkTriggers. by destruct (checkTasks _ _ _). Qed.

(** The history after one call: the event appended, the array trimmed to
    its last [historyMaxLength] elements. *)
Lemma checkForPatterns_history a s :
  activityHistory (checkForPatterns a s)
    = sliceLast historyMaxLength (activityHistory s ++ [a]).
Proof.
  unfold checkForPatterns.
  rewrite checkTriggers_history, detectPatterns_history. cbn [setHistory activityHistory].
  destruct (Nat.ltb_spec historyMaxLength (length (activityHistory s ++ [a])))
    as [Hlt|Hge]; [done|].
  by rewrite sliceLast_short.
Qed.


Lemma feed_history evs s :
  length (activityHistory s) <= historyMaxLength ->
  activityHistory (feed evs s)
    = sliceLast historyMaxLength (activityHistory s ++ evs).
Proof.
  revert s. induction evs as [|a evs IH]; intros s Hlen.
  - rewrite app_nil_r. by rewrite sliceLast_short.
  - change (feed (a :: evs) s) with (feed evs (checkForPatterns a s)).
    rewrite IH, checkForPatterns_history.
    + rewrite sliceLast_app_sliceLast. by rewrite <- app_assoc.
    + rewrite checkForPatterns_history, sliceLast_length. lia.
Qed.

(** C4. Fed one event per call of checkForPatterns from an empty history,
    the buffer holds min(1000, total) events, they are the most recent
    ones in arrival order (the events fed are some evicted ones followed by
    the buffer), and one more append drops nothing while fewer than 1000
    events were fed and exactly the head afterwards. *)
Theorem history_buffer_keeps_most_recent (evs : list Activity) s :
  activityHistory s = [] ->
  let h := activityHistory (feed evs s) in
  length h = Nat.min 1000 (length evs)
  /\ (exists evicted, evs = evicted ++ h)
  /\ forall a,
       activityHistory (checkForPatterns a (feed evs s))
         = drop (if (length evs <? 1000)%nat then 0 else 1) (h ++ [a]).
Proof.
  intros Hempty h.
  assert (Hh : h = sliceLast historyMaxLength evs).
  { subst h. rewrite feed_history; rewrite Hempty; [done | simpl; lia]. }
  assert (Hlen : length h = Nat.min 1000 (length evs)).
  { rewrite Hh. apply sliceLast_length. }
  split; [exact Hlen|]. split.
  - rewrite Hh. apply sliceLast_suffix.
  - intros a. rewrite checkForPatterns_history. fold h.
    unfold sliceLast. rewrite length_app, Hlen. simpl length.
    unfold historyMaxLength.
    destruct (Nat.ltb_spec (length evs) 1000) as [Hlt|Hge]; f_equal; lia.
Qed.
End Frame.

Section Store.
Context {rt : JsRuntime} {World : Type}.
Implicit Types (s : @Manager World) (a : Activity).

Lemma createSuggestion_suggestions ttl descr conf acts type sub s :
  suggestions (createSuggestion ttl descr conf acts type sub s)
    = let pushed := suggestions s ++ [built ttl descr conf acts type sub s] in
      if (10 <? length pushed)%nat then tail pushed else pushed.
Proof. reflexivity. Qed.

Lemma createSuggestion_notified ttl descr conf acts type sub s :
  notified (createSuggestion ttl descr conf acts type sub s)
    = notified s
        ++ [("suggestion", PSuggestion (built ttl descr conf acts type sub s))].
Proof. reflexivity. Qed.

Lemma createSuggestion_bound ttl descr conf acts type sub s :
  length (suggestions s) <= 10 ->
  length (suggestions (createSuggestion ttl descr conf acts type sub s)) <= 10.
Proof.
  intros Hle. rewrite createSuggestion_suggestions. cbv zeta.
  destruct (Nat.ltb_spec 10
    (length (suggestions s ++ [built ttl descr conf acts type sub s])))
    as [Hlt|Hge]; [|exact Hge].
  rewrite length_tl, length_app. simpl. lia.
Qed.

Lemma hasExistingSuggestion_keys type sub s :
  hasExistingSuggestion type sub s = true <-> (type, sub) ∈ keys s.
Proof.
  unfold hasExistingSuggestion, keys. rewrite existsb_exists, list_elem_of_fmap.
  split.
  - intros (sg & Hin & Hsg). apply andb_prop in Hsg as [Ht Hs].
    apply String.eqb_eq in Ht, Hs. exists sg.
    split; [unfold keyOf; congruence | by apply list_elem_of_In].
  - intros (sg & Hkey & Hin). exists sg.
    split; [by apply list_elem_of_In|].
    unfold keyOf in Hkey. injection Hkey as -> ->.
    by rewrite !String.eqb_refl.
Qed.

Lemma NoDup_tail {A : Type} (l : list A) : NoDup l -> NoDup (tail l).
Proof. destruct l; [done|]. simpl. by intros [_ ?]%NoDup_cons. Qed.

(** A candidate whose key is not stored keeps the keys distinct. *)
Lemma createSuggestion_NoDup ttl descr conf acts type sub s :
  hasExistingSuggestion type sub s = false ->
  NoDup (keys s) ->
  NoDup (keys (createSuggestion ttl descr conf acts type sub s)).
Proof.
  intros Hnew Hnd. unfold keys. rewrite createSuggestion_suggestions. cbv zeta.
  assert (Hpushed : NoDup
    (keyOf <$> suggestions s ++ [built ttl descr conf acts type sub s])).
  { rewrite fmap_app. apply NoDup_app. split; [exact Hnd|]. split.
    - intros k Hk Hk'. change (k ∈ [(type, sub)]) in Hk'.
      apply list_elem_of_singleton in Hk'. subst k.
      apply hasExistingSuggestion_keys in Hk. congruence.
    - apply NoDup_singleton. }
  case_match; [|exact Hpushed].
  rewrite fmap_tail. by apply NoDup_tail.
Qed.

(** *** Invariants of the store

    A property of the stored suggestions that every accepted candidate
    keeps is kept by the detectors, by checkForPatterns and by any number
    of events. *)
Section Invariant.
Variable P : list AutomationSuggestion -> Prop.
Hypothesis P_create : forall ttl descr conf acts type sub s,
  hasExistingSuggestion type sub s = false ->
  P (suggestions s) ->
  P (suggestions (createSuggestion ttl descr conf acts type sub s)).

Lemma repeatedEntry_invariant recent entry s :
  P (suggestions s) -> P (suggestions (repeatedEntry recent entry s)).
Proof.
  intros HP. unfold repeatedEntry. destruct entry as [type count].
  destruct (3 <=? count)%nat; [|exact HP].
  destruct (hasExistingSuggestion "repeated_sequence" type s) eqn:Hex;
    [exact HP|].
  repeat case_match; try exact HP; by apply P_create.
Qed.

Lemma detectRepeatedSequence_invariant s :
  P (suggestions s) -> P (suggestions (detectRepeatedSequence s)).
Proof.
  unfold detectRepeatedSequence.
  generalize (sliceLast 20 (activityHistory s)) at 1. intros recent.
  generalize (countTypes (sliceLast 20 (activityHistory s))).
  intros entries. revert s.
  induction entries as [|e entries IH]; intros s HP; [exact HP|].
  simpl. by apply IH, repeatedEntry_invariant.
Qed.

Lemma detectApplicationPatterns_invariant s :
  P (suggestions s) -> P (suggestions (detectApplicationPatterns s)).
Proof.
  intros HP. unfold detectApplicationPatterns.
  repeat case_match; try exact HP. by apply P_create.
Qed.

Lemma detectPatterns_invariant s :
  P (suggestions s) -> P (suggestions (detectPatterns s)).
Proof.
  intros HP. unfold detectPatterns, detectTimeBasedPatterns.
  case_match; [exact HP|].
  by apply detectApplicationPatterns_invariant,
    detectRepeatedSequence_invariant.
Qed.

Lemma checkForPatterns_invariant a s :
  P (suggestions s) -> P (suggestions (checkForPatterns a s)).
Proof.
  intros HP. unfold checkForPatterns.
  rewrite checkTriggers_suggestions. by apply detectPatterns_invariant.
Qed.

Lemma feed_invariant evs s :
  P (suggestions s) -> P (suggestions (feed evs s)).
Proof.
  revert s. induction evs as [|a evs IH]; intros s HP; [exact HP|].
  apply (IH (checkForPatterns a s)). by apply checkForPatterns_invariant.
Qed.
End Invariant.

(** C8. The store never holds more than 10 suggestions, whatever events
    are fed; a candidate accepted while fewer than 10 are held is appended,
    and one accepted while 10 are held (the 11th) leaves exactly 10: the
    oldest is gone, the others follow unchanged and in order, the new one
    is last. *)
Theorem suggestion_store_bounded_fifo ttl descr conf acts type sub s :
  length (suggestions s) <= 10 ->
  let s' := createSuggestion ttl descr conf acts type sub s in
  let new := built ttl descr conf acts type sub s in
  (forall evs, length (suggestions (feed evs s)) <= 10)
  /\ length (suggestions s') <= 10
  /\ (length (suggestions s) < 10 -> suggestions s' = suggestions s ++ [new])
  /\ (length (suggestions s) = 10 ->
      exists oldest others,
        suggestions s = oldest :: others
        /\ suggestions s' = others ++ [new]
        /\ length (suggestions s') = 10).
Proof.
  intros Hle s' new. split; [|split; [|split]].
  - intros evs. apply (feed_invariant (fun l => length l <= 10)); [|exact Hle].
    intros. by apply createSuggestion_bound.
  - by apply createSuggestion_bound.
  - intros Hlt. subst s'. rewrite createSuggestion_suggestions. cbv zeta.
    fold new. destruct (Nat.ltb_spec 10 (length (suggestions s ++ [new])))
      as [Hgt|_]; [|done].
    rewrite length_app in Hgt. simpl in Hgt. lia.
  - intros Hfull. subst s'. rewrite createSuggestion_suggestions. cbv zeta.
    fold new. destruct (suggestions s) as [|oldest others] eqn:Hs;
      [simpl in Hfull; lia|].
    exists oldest, others.
    destruct (Nat.ltb_spec 10 (length ((oldest :: others) ++ [new])))
      as [_|Hge].
    + simpl. rewrite length_app. simpl in *. split; [done|]. split; [done|lia].
    + rewrite length_app in Hge. simpl in *. lia.
Qed.

(** C5. A candidate whose key is stored is dropped: the turn of the
    repeated-type loop for that kind, and the application-sequence
    detector for that sequence, leave the manager as it was. Whatever
    events are fed, no two stored suggestions share a key. *)
Theorem suggestion_dedup s :
  NoDup (keys s) ->
  (forall recent type count,
      hasExistingSuggestion "repeated_sequence" type s = true ->
      repeatedEntry recent (type, count) s = s)
  /\ (hasExistingSuggestion "app_sequence"
        (String.concat ","
           (collectApps (rev (List.filter isAppActivity (activityHistory s))) []))
        s = true ->
      detectApplicationPatterns s = s)
  /\ (forall a, NoDup (keys (checkForPatterns a s)))
  /\ (forall evs, NoDup (keys (feed evs s))).
Proof.
  intros Hnd. split; [|split; [|split]].
  - intros recent type count Hex. unfold repeatedEntry. rewrite Hex.
    by case_match.
  - intros Hex. unfold detectApplicationPatterns. rewrite Hex.
    by repeat case_match.
  - intros a. apply (checkForPatterns_invariant (fun l => NoDup (keyOf <$> l)));
      [|exact Hnd].
    intros. by apply createSuggestion_NoDup.
  - intros evs. apply (feed_invariant (fun l => NoDup (keyOf <$> l)));
      [|exact Hnd].
    intros. by apply createSuggestion_NoDup.
Qed.
End Store.

Section RepeatedType.
Context {rt : JsRuntime} {World : Type}.
Implicit Types (s : @Manager World) (a : Activity).








Lemma checkForPatterns_unfold a s :
  checkForPatterns a s
    = checkTriggers a
        (detectPatterns
           (setHistory
              (sliceLast historyMaxLength (activityHistory s ++ [a])) s)).
Proof.
  unfold checkForPatterns.
  destruct (Nat.ltb_spec historyMaxLength (length (activityHistory s ++ [a])))
    as [Hlt|Hge]; [done|].
  by rewrite sliceLast_short.
Qed.


End RepeatedType.

Section AppSequence.
Context {rt : JsRuntime} {World : Type}.
Implicit Types (s : @Manager World) (a : Activity) (l acc : list string).

Lemma distinctFirst_In l n : In n (distinctFirst l) <-> In n l.
Proof.
  induction l as [|m l IH]; simpl; [done|].
  rewrite filter_In, IH. split.
  - intros [?|[? _]]; auto.
  - intros [?|Hin]; [by left|].
    destruct (String.eqb_spec n m) as [->|Hne]; [by left|]. by right.
Qed.

Lemma distinctFirst_NoDup l : List.NoDup (distinctFirst l).
Proof.
  induction l as [|m l IH]; simpl; constructor.
  - rewrite filter_In. intros [_ Hm]. by rewrite String.eqb_refl in Hm.
  - by apply List.NoDup_filter.
Qed.

Lemma threeDistinct_length l :
  threeDistinct l <-> 3 <= length (distinctFirst l).
Proof.
  split.
  - intros (n1 & n2 & n3 & H1 & H2 & H3 & H12 & H13 & H23).
    change 3 with (length [n1; n2; n3]).
    apply List.NoDup_incl_length.
    + repeat constructor; simpl; intuition congruence.
    + intros n [<-|[<-|[<-|[]]]]; by apply distinctFirst_In.
  - intros Hlen. pose proof (distinctFirst_NoDup l) as Hnd.
    destruct (distinctFirst l) as [|n1 [|n2 [|n3 rest]]] eqn:Hd;
      simpl in Hlen; try lia.
    assert (Hin : forall n, In n [n1; n2; n3] -> In n l).
    { intros n Hn. apply distinctFirst_In. rewrite Hd. simpl in *. tauto. }
    exists n1, n2, n3.
    apply List.NoDup_cons_iff in Hnd as [Hn1 Hnd].
    apply List.NoDup_cons_iff in Hnd as [Hn2 _].
    simpl in *. repeat split; try (apply Hin; simpl; tauto);
      intros ->; tauto.
Qed.

Lemma includes_snoc m acc n :
  includes m (acc ++ [n]) = includes m acc || (n =? m).
Proof.
  unfold includes. rewrite existsb_app. simpl. by rewrite orb_false_r.
Qed.

Lemma filter_notin_snoc acc n l :
  List.filter (fun m => negb (includes m acc))
    (List.filter (fun m => negb (m =? n)) l)
  = List.filter (fun m => negb (includes m (acc ++ [n]))) l.
Proof.
  induction l as [|m l IH]; simpl; [done|].
  rewrite includes_snoc, (String.eqb_sym n m).
  destruct (m =? n) eqn:Hmn; simpl.
  - rewrite orb_true_r. simpl. exact IH.
  - rewrite orb_false_r. destruct (includes m acc); simpl; by rewrite IH.
Qed.

Lemma filter_notin_absorb acc n l :
  includes n acc = true ->
  List.filter (fun m => negb (includes m acc))
    (List.filter (fun m => negb (m =? n)) l)
  = List.filter (fun m => negb (includes m acc)) l.
Proof.
  intros Hin. induction l as [|m l IH]; simpl; [done|].
  destruct (String.eqb_spec m n) as [->|Hne]; simpl.
  - by rewrite Hin.
  - by rewrite IH.
Qed.

(** The loop holds the first three of: the names it started with, then
    the new distinct names in the order met. *)
Lemma collectApps_spec acts acc :
  length acc <= 3 ->
  collectApps acts acc
    = take 3 (acc ++ List.filter (fun m => negb (includes m acc))
                       (distinctFirst (namesOf acts))).
Proof.
  revert acc. induction acts as [|a acts IH]; intros acc Hlen.
  - simpl. rewrite app_nil_r. by rewrite take_ge.
  - cbn [collectApps]. destruct (Nat.ltb_spec (length acc) 3) as [Hlt|Hge].
    + unfold namesOf. cbn [map List.filter]. fold (namesOf acts).
      destruct (appNameOf a =? "") eqn:Hempty; cbn [negb andb].
      * by apply IH.
      * cbn [distinctFirst List.filter].
        destruct (includes (appNameOf a) acc) eqn:Hinc; cbn [negb].
        -- rewrite IH by done. by rewrite filter_notin_absorb.
        -- rewrite IH by (rewrite length_app; simpl; lia).
           rewrite filter_notin_snoc, <- app_assoc. done.
    + rewrite take_app_le by lia. by rewrite take_ge by lia.
Qed.

Lemma distinctFirst_length l : length (distinctFirst l) <= length l.
Proof.
  induction l as [|n l IH]; simpl; [done|].
  pose proof (List.filter_length_le (fun m => negb (m =? n)) (distinctFirst l)).
  lia.
Qed.

Lemma observedNames_length (h : list Activity) :
  length (observedNames h) <= length (List.filter isAppActivity h).
Proof.
  unfold observedNames.
  etrans; [apply List.filter_length_le|].
  by rewrite length_map, length_rev.
Qed.

(** The scan looks no further back once three names are held. *)
Lemma collectApps_stops recent older acc :
  length (collectApps recent acc) = 3 ->
  collectApps (recent ++ older) acc = collectApps recent acc.
Proof.
  revert acc. induction recent as [|a recent IH]; intros acc Hlen.
  - simpl in *. destruct older as [|b older]; [done|].
    cbn [collectApps]. by rewrite Hlen.
  - cbn [collectApps app] in *.
    destruct (length acc <? 3)%nat; [|done].
    destruct (negb (appNameOf a =? "") && negb (includes (appNameOf a) acc));
      by apply IH.
Qed.

Lemma collectApps_history s :
  collectApps (rev (List.filter isAppActivity (activityHistory s))) []
    = take 3 (distinctFirst (observedNames (activityHistory s))).
Proof.
  rewrite collectApps_spec by (simpl; lia). cbn [app includes existsb negb].
  f_equal. unfold observedNames, namesOf.
  generalize (distinctFirst (List.filter (fun n => negb (n =? ""))
    (map appNameOf (rev (List.filter isAppActivity (activityHistory s)))))).
  intros l. induction l as [|n l IH]; simpl; [done|]. by rewrite IH.
Qed.

(** C7, as the code has it. With three distinct application names in the
    history, the backward scan collects the three most recent distinct
    ones, most recent first, and looks no further back; the detector
    then emits exactly one suggestion keyed (app_sequence, the three names
    joined with commas) with confidence 0.65, unless a suggestion with
    that key is stored, in which case it emits nothing. With fewer than
    three distinct names it emits nothing, and detectPatterns does not run
    it on a history shorter than 10. *)
Theorem application_sequence_detector s :
  let apps := List.filter isAppActivity (activityHistory s) in
  let names := observedNames (activityHistory s) in
  let recent3 := take 3 (distinctFirst names) in
  let sequenceKey := String.concat "," recent3 in
  let s' := detectApplicationPatterns s in
  (threeDistinct names ->
     length recent3 = 3
     /\ collectApps (rev apps) [] = recent3
     /\ (hasExistingSuggestion "app_sequence" sequenceKey s = false ->
         exists sg,
           mtype sg = "app_sequence" /\ subtype sg = sequenceKey
           /\ confidence sg = 0.65%Q
           /\ notified s' = notified s ++ [("suggestion", PSuggestion sg)]
           /\ suggestions s'
              = (if (10 <? length (suggestions s ++ [sg]))%nat
                 then tail (suggestions s ++ [sg])
                 else suggestions s ++ [sg]))
     /\ (hasExistingSuggestion "app_sequence" sequenceKey s = true ->
         s' = s))
  /\ (~ threeDistinct names -> s' = s)
  /\ (length (activityHistory s) < 10 -> detectPatterns s = s)
  /\ (forall recent older acc,
        length (collectApps recent acc) = 3 ->
        collectApps (recent ++ older) acc = collectApps recent acc).
Proof.
  intros apps names recent3 sequenceKey s'.
  assert (Hscan : collectApps (rev apps) [] = recent3)
    by apply collectApps_history.
  assert (Hr3 : length recent3 = Nat.min 3 (length (distinctFirst names)))
    by apply length_take.
  assert (Hbound : length (distinctFirst names) <= length apps).
  { etrans; [apply distinctFirst_length | apply observedNames_length]. }
  split; [|split; [|split]].
  - intros Hthree%threeDistinct_length.
    assert (Hlen3 : length recent3 = 3) by lia.
    split; [exact Hlen3|]. split; [exact Hscan|].
    assert (Hrun : s' = if hasExistingSuggestion "app_sequence" sequenceKey s
      then s
      else createSuggestion "Application Sequence"
             ("You often open " +:+ String.concat ", " recent3
                +:+ " together. Create a workflow?")
             0.65%Q (sliceLast 5 apps) "app_sequence" sequenceKey s).
    { subst s'. unfold detectApplicationPatterns. fold apps.
      destruct (Nat.ltb_spec (length apps) 3) as [Hlt|_]; [lia|].
      rewrite Hscan, Hlen3. done. }
    split; intros Hex; rewrite Hex in Hrun; [|exact Hrun].
    eexists. rewrite Hrun, createSuggestion_notified,
      createSuggestion_suggestions. cbv zeta.
    repeat split; reflexivity.
  - intros Hnot. assert (Hlt : length (distinctFirst names) < 3).
    { destruct (Nat.lt_ge_cases (length (distinctFirst names)) 3); [done|].
      exfalso. by apply Hnot, threeDistinct_length. }
    subst s'. unfold detectApplicationPatterns. fold apps.
    destruct (length apps <? 3)%nat; [done|].
    rewrite Hscan. destruct (Nat.eqb_spec (length recent3) 3); [lia|done].
  - intros Hshort. unfold detectPatterns.
    by destruct (Nat.ltb_spec (length (activityHistory s)) 10); [|lia].
  - apply collectApps_stops.
Qed.
End AppSequence.
End ClientProps.

(** ** Properties of the trigger matchers *)

Module TriggerProps.

Section Triggers.
Context {rt : JsRuntime}.
Implicit Types (a : Activity) (k : nat) (trs : list Trigger)
  (ts : list AutomationTask).

Lemma splitAcc_piece sep s cur :
  hasChar sep s = false -> splitAcc sep s cur = [revString cur s].
Proof.
  revert cur. induction s as [|d s IH]; intros cur Hno; simpl in *; [done|].
  apply orb_false_elim in Hno as [Hd Hs]. rewrite Hd. by rewrite IH.
Qed.

Lemma splitAcc_sep sep s1 s2 cur :
  hasChar sep s1 = false ->
  splitAcc sep (s1 +:+ String sep s2) cur
    = revString cur s1 :: splitAcc sep s2 [].
Proof.
  revert cur. induction s1 as [|d s1 IH]; intros cur Hno; simpl in *.
  - by rewrite Ascii.eqb_refl.
  - apply orb_false_elim in Hno as [Hd Hs]. rewrite Hd. by rewrite IH.
Qed.

(** Splitting hh:mm gives hh and mm. *)
Lemma split_two sep s1 s2 :
  hasChar sep s1 = false -> hasChar sep s2 = false ->
  split sep (s1 +:+ String sep s2) = [s1; s2].
Proof.
  intros H1 H2. unfold split. rewrite splitAcc_sep by done.
  by rewrite splitAcc_piece.
Qed.

Lemma strictEqNum_true z v : strictEqNum z (Some (JNum v)) = true <-> z = v.
Proof. simpl. apply Z.eqb_eq. Qed.

Lemma time_parts hh mm h m :
  hasChar ":" hh = false -> hasChar ":" mm = false ->
  Number hh = JNum h -> Number mm = JNum m ->
  Client.numbersOf ":" (hh +:+ ":" +:+ mm) = [JNum h; JNum m].
Proof.
  intros Hh Hm Hnh Hnm. unfold Client.numbersOf.
  change (hh +:+ ":" +:+ mm) with (hh +:+ String ":" mm).
  rewrite split_two by done. simpl. by rewrite Hnh, Hnm.
Qed.

(** C3, as the code has it. For a time trigger hh:mm, the server's
    activityMatchesTrigger reports a match exactly when the event is a
    system event carrying a timestamp whose wall-clock hour and minute are
    hh and mm. The client's checkTriggers reads the clock instead: the
    trigger fires exactly when the instant read shows hh:mm, whatever the
    kind of the event, and one instant is read per time trigger
    evaluated. *)
Theorem time_trigger_match a (hh mm : string) (h m now : Z) :
  hasChar ":" hh = false -> hasChar ":" mm = false ->
  Number hh = JNum h -> Number mm = JNum m ->
  let trigger := {| ttype := "time"; value := hh +:+ ":" +:+ mm |} in
  (Server.activityMatchesTrigger a trigger = true
     <-> atype a = "system"
         /\ exists t, timestamp a = Some t
                      /\ getHours t = h /\ getMinutes t = m)
  /\ (Client.triggerFires now a trigger = true
        <-> getHours now = h /\ getMinutes now = m)
  /\ (forall k, Client.checkTaskTriggers k a [trigger]
                = (Client.triggerFires (clockAt k) a trigger, S k)).
Proof.
  intros Hh Hm Hnh Hnm trigger.
  pose proof (time_parts hh mm h m Hh Hm Hnh Hnm) as Hparts.
  split; [|split].
  - unfold Server.activityMatchesTrigger. cbn [ttype value trigger].
    change ("time" =? "time") with true. cbv iota. rewrite Hparts.
    destruct (timestamp a) as [t|]; [|split; [done | by intros (_ & t & ? & _)]].
    destruct (String.eqb_spec (atype a) "system") as [Hsys|Hsys];
      [|split; [done | by intros []]].
    change ([JNum h; JNum m] !! 0) with (Some (JNum h)).
    change ([JNum h; JNum m] !! 1) with (Some (JNum m)).
    rewrite andb_true_iff, !strictEqNum_true. split.
    + intros [? ?]. split; [done|]. by exists t.
    + intros (_ & t' & [= <-] & ? & ?). done.
  - unfold Client.triggerFires. cbn [ttype value trigger].
    change ("time" =? "time") with true. cbv iota. rewrite Hparts.
    change ([JNum h; JNum m] !! 0) with (Some (JNum h)).
    change ([JNum h; JNum m] !! 1) with (Some (JNum m)).
    by rewrite andb_true_iff, !strictEqNum_true.
  - intros k. cbn [Client.checkTaskTriggers ttype trigger].
    change ("time" =? "time") with true. cbv iota.
    by destruct (Client.triggerFires _ _ _).
Qed.
End Triggers.

Section Evaluation.
Context {rt : JsRuntime} {World : Type}.
Implicit Types (a : Activity) (k : nat) (trs : list Trigger)
  (ts : list AutomationTask) (s : @Client.Manager World).
Import Client.

(** Once a trigger of the task matched, the triggers after it are not
    looked at: they change neither the outcome nor the clock readings. *)
Lemma checkTaskTriggers_stops k a pre post k' :
  checkTaskTriggers k a pre = (true, k') ->
  checkTaskTriggers k a (pre ++ post) = (true, k').
Proof.
  revert k. induction pre as [|tr pre IH]; intros k; simpl; [done|].
  destruct (triggerFires (clockAt k) a tr); [done|]. apply IH.
Qed.

Lemma checkTasks_sublist k a ts :
  fst (checkTasks k a ts) `sublist_of` List.filter isActive ts.
Proof.
  revert k. induction ts as [|t ts IH]; intros k; simpl; [done|].
  destruct (isActive t); [|apply IH].
  destruct (checkTaskTriggers k a (triggers t)) as [fired k1].
  specialize (IH k1). destruct (checkTasks k1 a ts) as [more k2].
  simpl in *. destruct fired; by constructor.
Qed.

(** The tasks are handled one after the other, each from the clock
    readings the tasks before it made. *)
Lemma checkTasks_app k a ts1 ts2 :
  checkTasks k a (ts1 ++ ts2)
    = (fst (checkTasks k a ts1)
         ++ fst (checkTasks (snd (checkTasks k a ts1)) a ts2),
       snd (checkTasks (snd (checkTasks k a ts1)) a ts2)).
Proof.
  revert k. induction ts1 as [|t ts1 IH]; intros k; simpl.
  - by destruct (checkTasks k a ts2).
  - destruct (isActive t); [|apply IH].
    destruct (checkTaskTriggers k a (triggers t)) as [fired k1].
    rewrite (IH k1). destruct (checkTasks k1 a ts1) as [more k2]. simpl.
    by destruct fired.
Qed.

Lemma checkTaskTriggers_constant now k a trs :
  (forall j, clockAt j = now) ->
  fst (checkTaskTriggers k a trs) = existsb (triggerFires now a) trs.
Proof.
  intros Hclock. revert k. induction trs as [|tr trs IH]; intros k; simpl;
    [done|].
  rewrite Hclock. destruct (triggerFires now a tr); [done|]. apply IH.
Qed.

Lemma checkTasks_constant now k a ts :
  (forall j, clockAt j = now) ->
  fst (checkTasks k a ts)
    = List.filter
        (fun t => isActive t && existsb (triggerFires now a) (triggers t)) ts.
Proof.
  intros Hclock. revert k. induction ts as [|t ts IH]; intros k; simpl;
    [done|].
  destruct (isActive t); simpl; [|apply IH].
  pose proof (checkTaskTriggers_constant now k a (triggers t) Hclock) as Hf.
  destruct (checkTaskTriggers k a (triggers t)) as [fired k1].
  specialize (IH k1). destruct (checkTasks k1 a ts) as [more k2].
  simpl in *. rewrite <- Hf. destruct fired; by rewrite IH.
Qed.

Lemma server_firstMatching a trs :
  Server.firstMatching a trs
    = existsb (Server.activityMatchesTrigger a) trs.
Proof.
  induction trs as [|tr trs IH]; simpl; [done|].
  by destruct (Server.activityMatchesTrigger a tr).
Qed.

Lemma server_checkTriggers a (stored : list Server.StoredTask) :
  Server.checkTriggers stored a
    = List.find
        (fun t => isActive (Server.core t)
                  && existsb (Server.activityMatchesTrigger a)
                             (triggers (Server.core t)))
        stored.
Proof.
  induction stored as [|t stored IH]; simpl; [done|].
  rewrite server_firstMatching.
  destruct (isActive (Server.core t)); simpl; [|exact IH].
  by destruct (existsb _ _).
Qed.

(** C6, as the code has it. In the client, checkTriggers calls executeTask
    for a sublist of the active tasks: each task at most once (at most
    once per id when ids are unique), an inactive task never; the
    evaluation of a task stops at its first matching trigger; the tasks
    are handled one after the other, each on its own triggers, and with a
    clock that stands still every active task with a matching trigger
    fires. The server's checkTriggers answers only the first active task
    with a matching trigger. *)
Theorem trigger_evaluation a s :
  let fired := fst (checkTasks (clockReads s) a (tasks s)) in
  executeCalls (checkTriggers a s) = executeCalls s ++ (id <$> fired)
  /\ fired `sublist_of` List.filter isActive (tasks s)
  /\ (NoDup (id <$> tasks s) -> NoDup (id <$> fired))
  /\ (forall k pre post k',
        checkTaskTriggers k a pre = (true, k') ->
        checkTaskTriggers k a (pre ++ post) = (true, k'))
  /\ (forall k ts1 ts2,
        fst (checkTasks k a (ts1 ++ ts2))
          = fst (checkTasks k a ts1)
              ++ fst (checkTasks (snd (checkTasks k a ts1)) a ts2))
  /\ (forall now, (forall j, clockAt j = now) ->
        fired = List.filter
                  (fun t => isActive t
                            && existsb (triggerFires now a) (triggers t))
                  (tasks s))
  /\ (forall stored,
        Server.checkTriggers stored a
          = List.find
              (fun t => isActive (Server.core t)
                        && existsb (Server.activityMatchesTrigger a)
                                   (triggers (Server.core t)))
              stored).
Proof.
  intros fired. repeat split.
  - unfold checkTriggers. fold fired.
    destruct (checkTasks (clockReads s) a (tasks s)) as [f k] eqn:Hc.
    subst fired. simpl. f_equal.
  - apply checkTasks_sublist.
  - intros Hnd. eapply sublist_NoDup; [exact Hnd|].
    apply fmap_sublist. etrans; [apply checkTasks_sublist|].
    clear. induction (tasks s) as [|t ts IH]; simpl; [done|].
    destruct (isActive t); by constructor.
  - intros k pre post k'. apply checkTaskTriggers_stops.
  - intros k ts1 ts2. by rewrite checkTasks_app.
  - intros now Hclock. by apply checkTasks_constant.
  - apply server_checkTriggers.
Qed.
End Evaluation.
End TriggerProps.

(** ** Properties of the executors *)

Module ExecutionProps.
Import Client.

Section Execution.
Context {rt : JsRuntime} {World : Type}.
Implicit Types (s : @Manager World) (ts : list AutomationTask).

Lemma findTask_incrementFound taskId ts task :
  findTask taskId ts = Some task ->
  findTask taskId (incrementFound taskId ts) = Some (incremented task).
Proof.
  induction ts as [|t ts IH]; simpl; [done|].
  destruct (id t =? taskId)%Z eqn:Hid; simpl.
  - intros [= <-]. by rewrite Hid.
  - intros Hfind. rewrite Hid. by apply IH.
Qed.

Lemma findTask_incrementFound_other taskId other ts :
  other <> taskId ->
  findTask other (incrementFound taskId ts) = findTask other ts.
Proof.
  intros Hne. induction ts as [|t ts IH]; simpl; [done|].
  destruct (id t =? taskId)%Z eqn:Hid; simpl.
  - apply Z.eqb_eq in Hid.
    destruct (Z.eqb_spec (id t) other) as [Heq|_]; [congruence | done].
  - by rewrite IH.
Qed.

Lemma notifyListeners_eq event data s :
  notifyListeners event data s
    = (addNotified event data
         (setEnv (fst (Listeners.notifyListeners (listeners s) event data
                         (env s))) s),
       Returned tt).
Proof.
  unfold notifyListeners. by rewrite ListenerProps.notifyListeners_returns.
Qed.

(** C1, as the code has it. The client's executeTask always returns a
    boolean. For a task it finds: when the request succeeds it returns
    true, the executionCount of that task is one more, the other tasks are
    as they were and a success is notified; when the request fails it
    returns false, no task changes and a failure is notified. For an id
    it does not find it returns false and changes no task. The client
    keeps no time of last execution; the server's
    updateAutomationTaskExecutionCount adds one to the count of a stored
    task and sets lastExecuted to the clock reading. *)
Theorem execute_bookkeeping (taskId : Z) (outcome : FetchOutcome) s :
  let r := executeTask taskId outcome s in
  (exists b, snd r = Returned b)
  /\ (forall task, findTask taskId (tasks s) = Some task ->
       (outcome = ResponseOk ->
          snd r = Returned true
          /\ findTask taskId (tasks (fst r)) = Some (incremented task)
          /\ executionCount (incremented task) = (executionCount task + 1)%Z
          /\ (forall other, other <> taskId ->
                findTask other (tasks (fst r)) = findTask other (tasks s))
          /\ notified (fst r)
             = notified s
                 ++ [("task", PExecution taskId true (successMessage task))])
       /\ (outcome <> ResponseOk ->
          snd r = Returned false
          /\ tasks (fst r) = tasks s
          /\ notified (fst r)
             = notified s
                 ++ [("task", PExecution taskId false (failureMessage task))]))
  /\ (findTask taskId (tasks s) = None ->
        snd r = Returned false /\ tasks (fst r) = tasks s
        /\ notified (fst r) = notified s)
  /\ (forall (st : Server.MemStorage) t,
        Server.automationTasks st !! taskId = Some t ->
        exists st' u,
          Server.updateAutomationTaskExecutionCount taskId st
            = (st', Returned u)
          /\ Server.automationTasks st' !! taskId = Some u
          /\ executionCount (Server.core u)
             = (executionCount (Server.core t) + 1)%Z
          /\ Server.lastExecuted u = Some (clockAt (Server.clockReads st))).
Proof.
  intros r. subst r. unfold executeTask, executeTry, executeCatch.
  split; [|split; [|split]].
  - destruct (findTask taskId (tasks s)) as [task|]; [|by eexists].
    destruct outcome; rewrite !notifyListeners_eq; by eexists.
  - intros task Hfind. rewrite Hfind. split.
    + intros ->. rewrite notifyListeners_eq. cbn [fst snd].
      split; [done|]. split; [by apply findTask_incrementFound|].
      split; [done|]. split; [|done].
      intros other Hne. by apply findTask_incrementFound_other.
    + intros Hfail. destruct outcome; [done| |];
        rewrite notifyListeners_eq; done.
  - intros Hnone. by rewrite Hnone.
  - intros st t Hget. unfold Server.updateAutomationTaskExecutionCount.
    rewrite Hget. eexists _, _. split; [reflexivity|].
    cbn [Server.automationTasks]. rewrite lookup_insert_eq.
    done.
Qed.
End Execution.
End ExecutionProps.

(** ** Properties of the tracker *)

Module TrackerProps.
Import Tracker.

Section Orchestrator.
Context {World : Type}.
Implicit Types (t : @ActivityTracker World).

Lemma tracker_notifyListeners_returned event data t :
  snd (notifyListeners event data t) = Returned tt.
Proof. apply ListenerProps.notifyListeners_returns. Qed.

Lemma start_tracking t : isTracking (fst (start t)) = true.
Proof. unfold start. by destruct (isTracking t) eqn:Ht. Qed.

Lemma stop_stopped t : isTracking (fst (stop t)) = false.
Proof. unfold stop. by destruct (isTracking t) eqn:Ht. Qed.

(** C9. start on a tracking tracker and stop on a stopped one return at
    once and change nothing, so a second start or stop in a row does
    nothing; neither throws; with screen capture enabled and no timer
    running before, two starts in a row leave exactly one interval
    timer. *)
Theorem start_stop_idempotent t :
  (isTracking t = true -> start t = (t, Returned tt))
  /\ (isTracking t = false -> stop t = (t, Returned tt))
  /\ start (fst (start t)) = (fst (start t), Returned tt)
  /\ stop (fst (stop t)) = (fst (stop t), Returned tt)
  /\ snd (start t) = Returned tt
  /\ snd (stop t) = Returned tt
  /\ (isTracking t = false -> activeTimers t = [] ->
      enableScreenCapture (settings t) = true ->
      activeTimers (fst (start (fst (start t))))
        = [(nextHandle t, captureIntervalMs (settings t))]).
Proof.
  assert (Hstart : forall t', isTracking t' = true -> start t' = (t', Returned tt)).
  { intros t' Ht. unfold start. by rewrite Ht. }
  assert (Hstop : forall t', isTracking t' = false -> stop t' = (t', Returned tt)).
  { intros t' Ht. unfold stop. by rewrite Ht. }
  split; [apply Hstart|]. split; [apply Hstop|].
  split; [apply Hstart, start_tracking|].
  split; [apply Hstop, stop_stopped|].
  split; [|split].
  - unfold start. destruct (isTracking t); [done|]. apply tracker_notifyListeners_returned.
  - unfold stop. destruct (isTracking t); [|done]. apply tracker_notifyListeners_returned.
  - intros Ht Htimers Hcapture.
    rewrite (Hstart (fst (start t)) (start_tracking t)). cbn [fst].
    unfold start. rewrite Ht, Hcapture, Htimers. done.
Qed.
End Orchestrator.
End TrackerProps.

(** ** Further properties of the trigger matchers *)

Module MatcherProps.
Import TriggerProps.

Section Kinds.
Context {rt : JsRuntime}.
Implicit Types (a : Activity) (tr : Trigger).

Lemma split_cons sep s1 rest :
  hasChar sep s1 = false ->
  split sep (s1 +:+ String sep rest) = s1 :: split sep rest.
Proof. intros Hno. unfold split. by rewrite splitAcc_sep. Qed.

Lemma split_last sep s : hasChar sep s = false -> split sep s = [s].
Proof. intros Hno. unfold split. by rewrite splitAcc_piece. Qed.

Lemma triggerFires_as_server a tr (now : Z) :
  ttype tr <> "time" ->
  Client.triggerFires now a tr = Server.activityMatchesTrigger a tr.
Proof.
  intros Hnt. apply String.eqb_neq in Hnt.
  unfold Client.triggerFires, Server.activityMatchesTrigger. rewrite Hnt.
  destruct (ttype tr =? "mouse"); [done|].
  destruct (ttype tr =? "keyboard"); [|done].
  by destruct (atype a =? "keyboard"), (isSpecialKey a).
Qed.

Lemma triggerFires_as_server_system a tr (now : Z) :
  atype a = "system" -> timestamp a = Some now ->
  Client.triggerFires now a tr = Server.activityMatchesTrigger a tr.
Proof.
  intros Hsys Hts.
  unfold Client.triggerFires, Server.activityMatchesTrigger.
  rewrite Hts, Hsys. simpl.
  destruct (ttype tr =? "time"); [done|].
  destruct (ttype tr =? "mouse"); [by destruct (mousePosition a) as [[]|]|].
  by destruct (ttype tr =? "keyboard").
Qed.

(** The client's switch and the server's activityMatchesTrigger decide
    alike on every trigger that is not a time trigger, and on a time trigger
    when the event is a system event stamped with the instant the client
    reads. *)
Theorem client_server_agree a tr (now : Z) :
  (ttype tr <> "time" ->
   Client.triggerFires now a tr = Server.activityMatchesTrigger a tr)
  /\ (atype a = "system" -> timestamp a = Some now ->
      Client.triggerFires now a tr = Server.activityMatchesTrigger a tr).
Proof.
  split; [apply triggerFires_as_server | apply triggerFires_as_server_system].
Qed.

Lemma jsLe_true u v : jsLe (Some (JNum u)) (Some (JNum v)) = true <-> (u <= v)%Z.
Proof. simpl. apply Z.leb_le. Qed.

(** A click trigger x,y,width,height matches exactly the mouse_click events
    whose point lies in the rectangle, edges included; server and client
    alike. *)
Theorem click_region_match a (sx sy sw sh : string) (x0 y0 w h now : Z) :
  hasChar "," sx = false -> hasChar "," sy = false ->
  hasChar "," sw = false -> hasChar "," sh = false ->
  Number sx = JNum x0 -> Number sy = JNum y0 ->
  Number sw = JNum w -> Number sh = JNum h ->
  let tr := {| ttype := "click";
               value := sx +:+ "," +:+ sy +:+ "," +:+ sw +:+ "," +:+ sh |} in
  (Server.activityMatchesTrigger a tr = true
     <-> atype a = "mouse_click"
         /\ exists ax ay, x a = Some ax /\ y a = Some ay
              /\ (x0 <= ax <= x0 + w)%Z /\ (y0 <= ay <= y0 + h)%Z)
  /\ Client.triggerFires now a tr = Server.activityMatchesTrigger a tr.
Proof.
  intros Hx Hy Hw Hh Nx Ny Nw Nh tr.
  split; [|by apply (triggerFires_as_server a tr now)].
  assert (Hparts : Client.numbersOf "," (value tr)
                   = [JNum x0; JNum y0; JNum w; JNum h]).
  { unfold Client.numbersOf. cbn [value tr].
    change (sx +:+ "," +:+ sy +:+ "," +:+ sw +:+ "," +:+ sh)
      with (sx +:+ String "," (sy +:+ String "," (sw +:+ String "," sh))).
    rewrite !split_cons, split_last by done. simpl.
    by rewrite Nx, Ny, Nw, Nh. }
  unfold Server.activityMatchesTrigger. rewrite Hparts. cbn [ttype tr].
  change ("click" =? "time") with false.
  change ("click" =? "mouse") with false.
  change ("click" =? "keyboard") with false.
  change ("click" =? "click") with true. cbv iota.
  destruct (String.eqb_spec (atype a) "mouse_click") as [Hk|Hk];
    [|split; [done | by intros []]].
  change ([JNum x0; JNum y0; JNum w; JNum h] !! 0) with (Some (JNum x0)).
  change ([JNum x0; JNum y0; JNum w; JNum h] !! 1) with (Some (JNum y0)).
  change ([JNum x0; JNum y0; JNum w; JNum h] !! 2) with (Some (JNum w)).
  change ([JNum x0; JNum y0; JNum w; JNum h] !! 3) with (Some (JNum h)).
  destruct (x a) as [ax|], (y a) as [ay|]; simpl;
    try (split; [try done; by rewrite ?andb_false_r
                | by intros (_ & ? & ? & ? & ? & _)]).
  rewrite !andb_true_iff, !Z.leb_le. split.
  - intros [[[? ?] ?] ?]. split; [done|]. exists ax, ay. repeat split; done.
  - intros (_ & ? & ? & [= <-] & [= <-] & [? ?] & [? ?]). done.
Qed.

(** A mouse trigger x,y matches exactly the screen_capture events whose
    mouse position is within 20 of x and within 20 of y; server and client
    alike. *)
Theorem mouse_position_match a (sx sy : string) (tx ty now : Z) :
  hasChar "," sx = false -> hasChar "," sy = false ->
  Number sx = JNum tx -> Number sy = JNum ty ->
  let tr := {| ttype := "mouse"; value := sx +:+ "," +:+ sy |} in
  (Server.activityMatchesTrigger a tr = true
     <-> atype a = "screen_capture"
         /\ exists mx my, mousePosition a = Some (mx, my)
              /\ (Z.abs (mx - tx) <= 20)%Z /\ (Z.abs (my - ty) <= 20)%Z)
  /\ Client.triggerFires now a tr = Server.activityMatchesTrigger a tr.
Proof.
  intros Hx Hy Nx Ny tr.
  split; [|by apply (triggerFires_as_server a tr now)].
  assert (Hparts : Client.numbersOf "," (value tr) = [JNum tx; JNum ty]).
  { unfold Client.numbersOf. cbn [value tr].
    change (sx +:+ "," +:+ sy) with (sx +:+ String "," sy).
    rewrite split_cons, split_last by done. simpl. by rewrite Nx, Ny. }
  unfold Server.activityMatchesTrigger. rewrite Hparts. cbn [ttype tr].
  change ("mouse" =? "time") with false.
  change ("mouse" =? "mouse") with true. cbv iota.
  destruct (mousePosition a) as [[mx my]|];
    [|split; [done | by intros (_ & ? & ? & ? & _)]].
  destruct (String.eqb_spec (atype a) "screen_capture") as [Hk|Hk];
    [|split; [done | by intros []]].
  change ([JNum tx; JNum ty] !! 0) with (Some (JNum tx)).
  change ([JNum tx; JNum ty] !! 1) with (Some (JNum ty)).
  simpl. rewrite andb_true_iff, !Z.leb_le. split.
  - intros [? ?]. split; [done|]. by exists mx, my.
  - intros (_ & ? & ? & [= <- <-] & ? & ?). done.
Qed.

(** A keyboard trigger matches exactly the keyboard events flagged as
    special whose key is the trigger's value; a trigger of a kind the
    matchers do not know matches nothing. *)
Theorem keyboard_shortcut_match a tr (now : Z) :
  (ttype tr = "keyboard" ->
   (Server.activityMatchesTrigger a tr = true
      <-> atype a = "keyboard" /\ isSpecialKey a = true
          /\ key a = Some (value tr))
   /\ Client.triggerFires now a tr = Server.activityMatchesTrigger a tr)
  /\ (ttype tr <> "time" -> ttype tr <> "mouse" -> ttype tr <> "keyboard" ->
      ttype tr <> "click" ->
      Server.activityMatchesTrigger a tr = false
      /\ Client.triggerFires now a tr = false).
Proof.
  split.
  - intros Hk.
    split; [|apply (triggerFires_as_server a tr now); by rewrite Hk].
    unfold Server.activityMatchesTrigger. rewrite Hk.
    change ("keyboard" =? "time") with false.
    change ("keyboard" =? "mouse") with false.
    change ("keyboard" =? "keyboard") with true. cbv iota.
    destruct (String.eqb_spec (atype a) "keyboard") as [Ha|Ha];
      [|split; [done | by intros []]].
    destruct (isSpecialKey a); [|split; [done | by intros (_ & ? & _)]].
    simpl. destruct (key a) as [k|]; [|split; [done | by intros (_ & _ & ?)]].
    rewrite String.eqb_eq. split; [by intros -> | by intros (_ & _ & [= ->])].
  - intros H1%String.eqb_neq H2%String.eqb_neq H3%String.eqb_neq
      H4%String.eqb_neq.
    unfold Server.activityMatchesTrigger, Client.triggerFires.
    by rewrite H1, H2, H3, H4.
Qed.
End Kinds.
End MatcherProps.

Module MoreMatcherProps.
Section WellFormed.
Context {rt : JsRuntime}.
Implicit Types (a : Activity) (tr : Trigger).

Lemma two_numbers (l : list jsnum) u v :
  l !! 0 = Some (JNum u) -> l !! 1 = Some (JNum v) ->
  exists rest, l = JNum u :: JNum v :: rest.
Proof.
  destruct l as [|p [|q rest]]; simpl; try done.
  intros [= ->] [= ->]. by exists rest.
Qed.

Lemma strictEqNum_number z o :
  strictEqNum z o = true -> o = Some (JNum z).
Proof.
  destruct o as [[v|]|]; simpl; try done. by intros ->%Z.eqb_eq.
Qed.

Lemma absDiffLe_number z o tol :
  absDiffLe z o tol = true -> exists v, o = Some (JNum v).
Proof. destruct o as [[v|]|]; simpl; try done. by exists v. Qed.

Lemma jsLe_numbers o1 o2 :
  jsLe o1 o2 = true -> exists u v, o1 = Some (JNum u) /\ o2 = Some (JNum v).
Proof.
  destruct o1 as [[u|]|], o2 as [[v|]|]; simpl; try done. by exists u, v.
Qed.

Lemma jsAdd_number o1 o2 v :
  jsAdd o1 o2 = Some (JNum v) ->
  exists u w, o1 = Some (JNum u) /\ o2 = Some (JNum w).
Proof.
  destruct o1 as [[u|]|], o2 as [[w|]|]; simpl; try done. by exists u, w.
Qed.

(** A trigger matches only when its value reads as numbers: two for a time
    or a mouse trigger, four for a click trigger. A value with a piece
    missing or a piece that is no number matches no event, in the client
    and on the server. *)
Theorem matching_trigger_reads_as_numbers a tr (now : Z) :
  Client.triggerFires now a tr = true
  \/ Server.activityMatchesTrigger a tr = true ->
  (ttype tr = "time" ->
   exists h m rest,
     Client.numbersOf ":" (value tr) = JNum h :: JNum m :: rest)
  /\ (ttype tr = "mouse" ->
      exists tx ty rest,
        Client.numbersOf "," (value tr) = JNum tx :: JNum ty :: rest)
  /\ (ttype tr = "click" ->
      exists x0 y0 w h rest,
        Client.numbersOf "," (value tr)
          = JNum x0 :: JNum y0 :: JNum w :: JNum h :: rest).
Proof.
  intros Hfire. split; [|split].
  - intros Hk. unfold Client.triggerFires, Server.activityMatchesTrigger in Hfire.
    rewrite Hk in Hfire. simpl in Hfire.
    assert (Hparts : exists u v,
      strictEqNum u (Client.numbersOf ":" (value tr) !! 0) = true
      /\ strictEqNum v (Client.numbersOf ":" (value tr) !! 1) = true).
    { destruct Hfire as [Hf|Hf].
      - apply andb_prop in Hf as [? ?]. eauto.
      - destruct (timestamp a); [|done]. destruct (atype a =? "system"); [|done].
        apply andb_prop in Hf as [? ?]. eauto. }
    destruct Hparts as (u & v & Hu%strictEqNum_number & Hv%strictEqNum_number).
    exists u, v. by apply two_numbers.
  - intros Hk. assert (Hs : Server.activityMatchesTrigger a tr = true).
    { destruct Hfire as [Hf|]; [|done].
      rewrite <- (MatcherProps.triggerFires_as_server a tr now); [done|].
      by rewrite Hk. }
    unfold Server.activityMatchesTrigger in Hs. rewrite Hk in Hs. simpl in Hs.
    destruct (mousePosition a) as [[mx my]|]; [|done].
    destruct (atype a =? "screen_capture"); [|done].
    apply andb_prop in Hs as [[u Hu]%absDiffLe_number [v Hv]%absDiffLe_number].
    exists u, v. by apply two_numbers.
  - intros Hk. assert (Hs : Server.activityMatchesTrigger a tr = true).
    { destruct Hfire as [Hf|]; [|done].
      rewrite <- (MatcherProps.triggerFires_as_server a tr now); [done|].
      by rewrite Hk. }
    unfold Server.activityMatchesTrigger in Hs. rewrite Hk in Hs. simpl in Hs.
    destruct (atype a =? "mouse_click"); [|done].
    apply andb_prop in Hs as [Hs H4]. apply andb_prop in Hs as [Hs H3].
    apply andb_prop in Hs as [H1 H2].
    apply jsLe_numbers in H2 as (ax & s1 & _ & Hs1).
    apply jsLe_numbers in H4 as (ay & s2 & _ & Hs2).
    apply jsAdd_number in Hs1 as (x0 & w & Hx & Hw).
    apply jsAdd_number in Hs2 as (y0 & h & Hy & Hh).
    exists x0, y0, w, h.
    destruct (Client.numbersOf "," (value tr)) as [|p0 [|p1 [|p2 [|p3 rest]]]];
      simpl in *; try done.
    injection Hx as ->. injection Hy as ->. injection Hw as ->.
    injection Hh as ->. by exists rest.
Qed.
End WellFormed.
End MoreMatcherProps.

(** ** Further properties of the executors *)

Module AuditProps.
Import Client Measures.

Section ClientRuns.
Context {rt : JsRuntime} {World : Type}.
Implicit Types (s : @Manager World) (ts : list AutomationTask).

Lemma executeTask_found taskId o s task :
  findTask taskId (tasks s) = Some task ->
  findTask taskId (tasks (fst (executeTask taskId o s)))
    = Some (if succeeded o then incremented task else task)
  /\ length (notified (fst (executeTask taskId o s)))
     = S (length (notified s)).
Proof.
  intros Hfind. unfold executeTask, executeTry, executeCatch. rewrite Hfind.
  destruct o; rewrite ExecutionProps.notifyListeners_eq;
    cbn [fst snd succeeded addNotified setEnv setTasks consoleError tasks
         notified];
    rewrite length_app; simpl; (split; [|lia]); try done.
  by apply ExecutionProps.findTask_incrementFound.
Qed.

(** The executionCount of a task after a run of executions is its count
    before plus the number of requests that succeeded: failures are
    notified and leave the count alone. One notification is made per
    execution. *)
Theorem execution_count_counts_successes taskId outcomes s task :
  findTask taskId (tasks s) = Some task ->
  exists task',
    findTask taskId (tasks (executeAll taskId outcomes s)) = Some task'
    /\ executionCount task'
       = (executionCount task
          + Z.of_nat (length (List.filter succeeded outcomes)))%Z
    /\ length (notified (executeAll taskId outcomes s))
       = length (notified s) + length outcomes.
Proof.
  revert s task. induction outcomes as [|o outcomes IH]; intros s task Hfind.
  - exists task. simpl. split; [done|]. split; lia.
  - destruct (executeTask_found taskId o s task Hfind) as [Hnext Hn].
    destruct (IH _ _ Hnext) as (task' & Hf & Hc & Hl).
    exists task'. unfold executeAll in *. cbn [fold_left].
    split; [exact Hf|]. rewrite Hc, Hl, Hn. cbn [List.filter length].
    destruct (succeeded o); simpl length; split; try lia.
    unfold incremented. simpl. lia.
Qed.
End ClientRuns.

Section ServerRuns.
Context {rt : JsRuntime}.
Implicit Types (st : Server.MemStorage).

Lemma server_executeTask_found taskId st t :
  Server.automationTasks st !! taskId = Some t ->
  Server.executeTask taskId st
    = (Server.createActivityLog (Server.userId t)
         ("Executed automation task: " +:+ taskName (Server.core t))
         (id (Server.core t)) (executionCount (Server.core t) + 1)%Z
         (fst (Server.updateAutomationTaskExecutionCount taskId st)),
       Returned true)
    /\ fst (Server.updateAutomationTaskExecutionCount taskId st)
       = {| Server.automationTasks :=
              <[taskId := Server.executed (clockAt (Server.clockReads st)) t]>
                (Server.automationTasks st);
            Server.activityLogs := Server.activityLogs st;
            Server.currentActivityLogId := Server.currentActivityLogId st;
            Server.clockReads := S (Server.clockReads st) |}.
Proof.
  intros Hget.
  unfold Server.executeTask, Server.executeTry, Server.getAutomationTask,
    Server.updateAutomationTaskExecutionCount.
  by rewrite Hget.
Qed.

(** The server's executeTask answers true exactly for a stored task. It
    then adds one to the task's executionCount, sets lastExecuted to the
    clock reading, leaves the other tasks alone and writes one activity log
    under the next log id, carrying the new count. For an id that is not
    stored it answers false and changes nothing; it never throws. *)
Theorem server_execute_task taskId st :
  (forall t, Server.automationTasks st !! taskId = Some t ->
     let r := Server.executeTask taskId st in
     snd r = Returned true
     /\ Server.automationTasks (fst r) !! taskId
        = Some (Server.executed (clockAt (Server.clockReads st)) t)
     /\ (forall other, other <> taskId ->
          Server.automationTasks (fst r) !! other
            = Server.automationTasks st !! other)
     /\ (exists entry,
          Server.activityLogs (fst r) !! Server.currentActivityLogId st
            = Some entry
          /\ Server.activityType entry = "automation"
          /\ Server.logTaskId entry = id (Server.core t)
          /\ Server.logExecutionCount entry
             = (executionCount (Server.core t) + 1)%Z)
     /\ Server.currentActivityLogId (fst r)
        = (Server.currentActivityLogId st + 1)%Z)
  /\ (Server.automationTasks st !! taskId = None ->
      Server.executeTask taskId st = (st, Returned false)).
Proof.
  split.
  - intros t Hget r. subst r.
    destruct (server_executeTask_found taskId st t Hget) as [-> ->].
    cbn [fst snd Server.createActivityLog Server.automationTasks
         Server.activityLogs Server.currentActivityLogId].
    split; [done|]. split; [by rewrite lookup_insert_eq|].
    split; [by intros other Hne; rewrite lookup_insert_ne|].
    split; [|done]. eexists. rewrite lookup_insert_eq. done.
  - intros Hnone.
    unfold Server.executeTask, Server.executeTry, Server.getAutomationTask.
    by rewrite Hnone.
Qed.

(** Executing a stored task n times in a row adds n to its executionCount
    and writes n activity logs. *)
Theorem server_executions_accumulate taskId st t (n : nat) :
  Server.automationTasks st !! taskId = Some t ->
  let st' := Nat.iter n (fun st0 => fst (Server.executeTask taskId st0)) st in
  (exists t', Server.automationTasks st' !! taskId = Some t'
              /\ executionCount (Server.core t')
                 = (executionCount (Server.core t) + Z.of_nat n)%Z)
  /\ Server.currentActivityLogId st'
     = (Server.currentActivityLogId st + Z.of_nat n)%Z.
Proof.
  intros Hget. induction n as [|n IH]; intros st'.
  - subst st'. simpl. split; [|lia]. exists t. split; [done|lia].
  - cbv zeta in IH. destruct IH as [(t1 & Hget1 & Hc1) Hid1].
    subst st'. rewrite Nat.iter_succ.
    set (st1 := Nat.iter n _ st) in *.
    destruct (server_executeTask_found taskId st1 t1 Hget1) as [-> ->].
    cbn [fst Server.createActivityLog Server.automationTasks
         Server.currentActivityLogId].
    split; [|lia]. eexists. rewrite lookup_insert_eq. split; [done|].
    cbn [Server.executed Server.core incremented executionCount]. lia.
Qed.
End ServerRuns.
End AuditProps.

(** ** Further properties of the detectors *)

Module DetectorProps.
Import Client ClientSpec Measures ClientProps Shapes.

Section Counting.
Implicit Types (k : string) (tc : list (string * nat)) (l : list Activity).

Lemma typeCount_bump_same k tc : typeCount k (bump k tc) = S (typeCount k tc).
Proof.
  unfold typeCount. induction tc as [|[k' c] tc IH]; simpl.
  - by rewrite String.eqb_refl.
  - destruct (k' =? k) eqn:Hk; simpl; rewrite Hk; [done | exact IH].
Qed.

Lemma typeCount_bump_other k k' tc :
  k' <> k -> typeCount k' (bump k tc) = typeCount k' tc.
Proof.
  intros Hne. unfold typeCount. induction tc as [|[k0 c] tc IH]; simpl.
  - apply String.eqb_neq in Hne. by rewrite String.eqb_sym, Hne.
  - destruct (k0 =? k) eqn:Hk; simpl.
    + apply String.eqb_eq in Hk. subst k0.
      apply String.eqb_neq in Hne. by rewrite String.eqb_sym, Hne.
    + destruct (k0 =? k'); [done | exact IH].
Qed.

Lemma keys_bump k tc :
  map fst (bump k tc)
    = if includes k (map fst tc) then map fst tc else map fst tc ++ [k].
Proof.
  unfold includes. induction tc as [|[k' c] tc IH]; simpl; [done|].
  destruct (k' =? k) eqn:Hk; simpl; [done|]. rewrite IH.
  by destruct (existsb _ _).
Qed.

Lemma typeCount_fold k tc l :
  k <> "" ->
  typeCount k
    (fold_left (fun tc' a => if atype a =? "" then tc' else bump (atype a) tc')
               l tc)
    = typeCount k tc + occurrences k l.
Proof.
  intros Hk. revert tc. unfold occurrences.
  induction l as [|a l IH]; intros tc; simpl; [lia|].
  rewrite IH. destruct (String.eqb_spec (atype a) "") as [He|He].
  - destruct (String.eqb_spec (atype a) k); [congruence | done].
  - destruct (String.eqb_spec (atype a) k) as [->|Hne].
    + rewrite typeCount_bump_same. simpl. lia.
    + by rewrite typeCount_bump_other.
Qed.

Lemma keys_fold tc l :
  map fst
    (fold_left (fun tc' a => if atype a =? "" then tc' else bump (atype a) tc')
               l tc)
    = map fst tc
        ++ List.filter (fun m => negb (includes m (map fst tc)))
             (distinctFirst
                (List.filter (fun n => negb (n =? "")) (map atype l))).
Proof.
  revert tc. induction l as [|a l IH]; intros tc; simpl.
  - by rewrite app_nil_r.
  - rewrite IH. destruct (atype a =? "") eqn:He; simpl; [done|].
    rewrite keys_bump.
    destruct (includes (atype a) (map fst tc)) eqn:Hin; simpl.
    + by rewrite filter_notin_absorb.
    + by rewrite filter_notin_snoc, <- app_assoc.
Qed.

Lemma countTypes_count k l :
  k <> "" -> typeCount k (countTypes l) = occurrences k l.
Proof. intros Hk. unfold countTypes. by rewrite typeCount_fold. Qed.

Lemma countTypes_keys l :
  map fst (countTypes l)
    = distinctFirst (List.filter (fun n => negb (n =? "")) (map atype l)).
Proof.
  unfold countTypes. rewrite keys_fold. simpl.
  generalize (distinctFirst
    (List.filter (fun n => negb (n =? "")) (map atype l))).
  intros d. induction d as [|n d IH]; simpl; [done|]. by rewrite IH.
Qed.

Lemma countTypes_key_named k c l : In (k, c) (countTypes l) -> k <> "".
Proof.
  intros Hin. apply (in_map fst) in Hin. rewrite countTypes_keys in Hin.
  simpl in Hin. apply distinctFirst_In, filter_In in Hin as [_ Hne].
  intros ->. done.
Qed.

Lemma typeCount_In k c tc :
  List.NoDup (map fst tc) -> In (k, c) tc -> typeCount k tc = c.
Proof.
  unfold typeCount. induction tc as [|[k' c'] tc IH]; simpl; [done|].
  intros Hnd [Heq|Hin].
  - injection Heq as -> ->. by rewrite String.eqb_refl.
  - apply List.NoDup_cons_iff in Hnd as [Hnotin Hnd].
    destruct (String.eqb_spec k' k) as [->|_]; [|by apply IH].
    exfalso. apply Hnotin. by apply (in_map fst) in Hin.
Qed.

Lemma countTypes_entry k c l :
  In (k, c) (countTypes l) -> k <> "" /\ c = occurrences k l.
Proof.
  intros Hin. pose proof (countTypes_key_named k c l Hin) as Hk.
  split; [exact Hk|]. rewrite <- (countTypes_count k l Hk). symmetry.
  apply typeCount_In; [|exact Hin].
  rewrite countTypes_keys. apply distinctFirst_NoDup.
Qed.

End Counting.

Section Emission.
Context {rt : JsRuntime} {World : Type}.
Implicit Types (s : @Manager World) (a : Activity).

Lemma emits_nothing s : emits [] s s.
Proof. split; [by rewrite app_nil_r|]. split; [constructor | done]. Qed.

Lemma emits_trans sgs1 sgs2 s1 s2 s3 :
  emits sgs1 s1 s2 -> emits sgs2 s2 s3 -> emits (sgs1 ++ sgs2) s1 s3.
Proof.
  intros (Hn1 & Hs1 & Hk1) (Hn2 & Hs2 & Hk2). split; [|split].
  - rewrite Hn2, Hn1. unfold suggestionEvents.
    by rewrite map_app, app_assoc.
  - by apply Forall_app.
  - auto.
Qed.

Lemma emits_create ttl descr conf acts type sub s :
  suggestionShape (built ttl descr conf acts type sub s) ->
  emits [built ttl descr conf acts type sub s] s
    (createSuggestion ttl descr conf acts type sub s).
Proof.
  intros Hshape. split; [apply createSuggestion_notified|].
  split; [by constructor|].
  intros Hstore. rewrite createSuggestion_suggestions. cbv zeta.
  assert (Hall : Forall suggestionShape
    (suggestions s ++ [built ttl descr conf acts type sub s])).
  { apply Forall_app. split; [done | by constructor]. }
  case_match; [|done]. by apply Forall_tail.
Qed.

Lemma Forall_filter_true {A : Type} (f : A -> bool) (l : list A) :
  Forall (fun y => f y = true) (List.filter f l).
Proof.
  apply List.Forall_forall. intros y Hy. by apply filter_In in Hy as [_ ?].
Qed.

Lemma existsb_text (l : list Activity) :
  existsb (fun a => negb (text a =? "")) l = true ->
  Exists (fun a => text a <> "") l.
Proof.
  intros (a0 & Hin & Ha)%existsb_exists. apply List.Exists_exists.
  exists a0. split; [done|]. intros Heq. by rewrite Heq in Ha.
Qed.

(** One turn of the loop over typeCounts. *)
Lemma repeatedEntry_emits recent k c s :
  length recent <= 20 -> c = occurrences k recent ->
  exists sgs,
    emits sgs s (repeatedEntry recent (k, c) s)
    /\ length sgs <= (if emitKind k then 1 else 0).
Proof.
  intros Hwin Hc. unfold repeatedEntry.
  assert (Hnone : exists sgs, emits sgs s s
                    /\ length sgs <= (if emitKind k then 1 else 0)).
  { exists []. split; [apply emits_nothing | simpl; lia]. }
  destruct (Nat.leb_spec 3 c) as [Hc3|_]; [|exact Hnone].
  destruct (hasExistingSuggestion "repeated_sequence" k s); [exact Hnone|].
  set (acts := List.filter (fun a => atype a =? k) recent).
  assert (Hlen : 3 <= length acts <= 20).
  { subst acts. fold (occurrences k recent). rewrite <- Hc.
    split; [done|]. rewrite Hc. unfold occurrences.
    etrans; [apply List.filter_length_le | done]. }
  assert (Hkind : Forall (fun a => atype a = k) acts).
  { subst acts. eapply Forall_impl; [apply Forall_filter_true|].
    intros a Ha. by apply String.eqb_eq. }
  destruct (String.eqb_spec k "keyboard") as [->|Hkb]; cbn [andb].
  - destruct (existsb _ acts) eqn:Htext.
    + eexists. split; [apply emits_create | simpl; lia].
      left. cbn [built mtype subtype confidence activities].
      repeat split; try done; try lia. by apply existsb_text.
    + exact Hnone.
  - destruct (String.eqb_spec k "mouse_click") as [->|Hmc]; [|exact Hnone].
    eexists. split; [apply emits_create | simpl; lia].
    right; left. cbn [built mtype subtype confidence activities].
    repeat split; try done; lia.
Qed.

Lemma emitKind_twice (keys : list string) :
  List.NoDup keys -> length (List.filter emitKind keys) <= 2.
Proof.
  intros Hnd. change 2 with (length ["keyboard"; "mouse_click"]).
  apply List.NoDup_incl_length; [by apply List.NoDup_filter|].
  intros k [_ Hk]%filter_In. unfold emitKind in Hk.
  apply orb_prop in Hk as [->%String.eqb_eq | ->%String.eqb_eq]; simpl; auto.
Qed.

Lemma repeatedLoop_emits recent (entries : list (string * nat)) s :
  length recent <= 20 ->
  (forall k c, In (k, c) entries -> c = occurrences k recent) ->
  exists sgs,
    emits sgs s (fold_left (fun s' e => repeatedEntry recent e s') entries s)
    /\ length sgs <= length (List.filter emitKind (map fst entries)).
Proof.
  intros Hwin. revert s.
  induction entries as [|[k c] entries IH]; intros s Hentries.
  - exists []. split; [apply emits_nothing | simpl; lia].
  - cbn [fold_left].
    destruct (repeatedEntry_emits recent k c s Hwin) as (sgs1 & He1 & Hl1).
    { apply Hentries. by left. }
    destruct (IH (repeatedEntry recent (k, c) s)) as (sgs2 & He2 & Hl2).
    { intros k' c' Hin. apply Hentries. by right. }
    exists (sgs1 ++ sgs2). split; [by eapply emits_trans|].
    rewrite length_app. cbn [map fst List.filter].
    destruct (emitKind k); simpl length; lia.
Qed.

Lemma detectRepeatedSequence_emits s :
  exists sgs, emits sgs s (detectRepeatedSequence s) /\ length sgs <= 2.
Proof.
  unfold detectRepeatedSequence.
  set (recent := sliceLast 20 (activityHistory s)).
  destruct (repeatedLoop_emits recent (countTypes recent) s)
    as (sgs & He & Hl).
  - subst recent. rewrite sliceLast_length. lia.
  - intros k c Hin. by apply countTypes_entry in Hin as [_ ?].
  - exists sgs. split; [exact He|]. etrans; [exact Hl|].
    apply emitKind_twice. rewrite countTypes_keys. apply distinctFirst_NoDup.
Qed.

Lemma ListNoDup_take {A : Type} (n : nat) (l : list A) :
  List.NoDup l -> List.NoDup (take n l).
Proof.
  intros Hnd%NoDup_ListNoDup. apply NoDup_ListNoDup.
  eapply sublist_NoDup; [exact Hnd | apply sublist_take].
Qed.

Lemma observedNames_named (h : list Activity) :
  Forall (fun n => n <> "") (distinctFirst (observedNames h)).
Proof.
  apply List.Forall_forall. intros n Hin.
  apply (proj1 (distinctFirst_In _ _)) in Hin.
  unfold observedNames in Hin. apply filter_In in Hin as [_ Hne].
  intros ->. done.
Qed.

Lemma detectApplicationPatterns_emits s :
  exists sgs, emits sgs s (detectApplicationPatterns s) /\ length sgs <= 1.
Proof.
  assert (Hnone : exists sgs, emits sgs s s /\ length sgs <= 1).
  { exists []. split; [apply emits_nothing | simpl; lia]. }
  unfold detectApplicationPatterns.
  set (apps := List.filter isAppActivity (activityHistory s)).
  destruct (Nat.ltb_spec (length apps) 3) as [_|Happs]; [exact Hnone|].
  subst apps. rewrite collectApps_history.
  set (names := take 3 (distinctFirst (observedNames (activityHistory s)))).
  destruct (Nat.eqb_spec (length names) 3) as [Hthree|_]; [|exact Hnone].
  destruct (hasExistingSuggestion _ _ s); [exact Hnone|].
  eexists. split; [apply emits_create | simpl; lia].
  right; right. cbn [built mtype subtype confidence activities].
  split; [done|]. split; [done|]. split; [|split].
  - exists names. split; [done|]. split; [done|]. split.
    + apply ListNoDup_take, distinctFirst_NoDup.
    + apply Forall_take, observedNames_named.
  - apply Forall_drop, Forall_filter_true.
  - rewrite sliceLast_length. lia.
Qed.

Lemma detectPatterns_emits s :
  exists sgs, emits sgs s (detectPatterns s) /\ length sgs <= 3.
Proof.
  unfold detectPatterns, detectTimeBasedPatterns.
  destruct (length (activityHistory s) <? 10)%nat.
  { exists []. split; [apply emits_nothing | simpl; lia]. }
  destruct (detectRepeatedSequence_emits s) as (sgs1 & He1 & Hl1).
  destruct (detectApplicationPatterns_emits (detectRepeatedSequence s))
    as (sgs2 & He2 & Hl2).
  exists (sgs1 ++ sgs2). split; [by eapply emits_trans|].
  rewrite length_app. lia.
Qed.

Lemma checkForPatterns_emits a s :
  exists sgs, emits sgs s (checkForPatterns a s) /\ length sgs <= 3.
Proof.
  rewrite checkForPatterns_unfold.
  set (s1 := setHistory _ s).
  destruct (detectPatterns_emits s1) as (sgs & (Hn & Hs & Hk) & Hl).
  exists sgs. split; [|exact Hl]. split; [|split].
  - by rewrite checkTriggers_notified, Hn.
  - exact Hs.
  - rewrite checkTriggers_suggestions. exact Hk.
Qed.

(** One event makes the manager notify at most three suggestions (two from
    the repeated-type detector, one from the application-sequence
    detector), each of a known shape; notifications made before stay. *)
Theorem at_most_three_suggestions_per_event a s :
  exists sgs,
    notified (checkForPatterns a s) = notified s ++ suggestionEvents sgs
    /\ length sgs <= 3
    /\ Forall suggestionShape sgs.
Proof.
  destruct (checkForPatterns_emits a s) as (sgs & (Hn & Hs & _) & Hl).
  by exists sgs.
Qed.

(** The store holds suggestions of the three known shapes only, whatever
    events are fed: the confidence is 0.7, 0.6 or 0.65 as the key says, and
    a repeated-type suggestion is never made for a kind other than keyboard
    and mouse_click. *)
Theorem stored_suggestions_have_known_shapes (evs : list Activity) s :
  Forall suggestionShape (suggestions s) ->
  Forall suggestionShape (suggestions (feed evs s)).
Proof.
  revert s. induction evs as [|a evs IH]; intros s Hstore; [done|].
  apply (IH (checkForPatterns a s)).
  destruct (checkForPatterns_emits a s) as (sgs & (_ & _ & Hk) & _). auto.
Qed.
End Emission.
End DetectorProps.

Module WarmUpProps.
Import Client ClientProps.

Section WarmUp.
Context {rt : JsRuntime} {World : Type}.
Implicit Types (s : @Manager World) (a : Activity).

Lemma checkForPatterns_short a s :
  length (activityHistory s) + 1 < 10 ->
  suggestions (checkForPatterns a s) = suggestions s
  /\ notified (checkForPatterns a s) = notified s
  /\ length (activityHistory (checkForPatterns a s))
     = length (activityHistory s) + 1.
Proof.
  intros Hshort. rewrite checkForPatterns_history, sliceLast_length,
    length_app. simpl length. unfold historyMaxLength.
  split; [|split; [|lia]];
    rewrite checkForPatterns_unfold;
    rewrite ?checkTriggers_suggestions, ?checkTriggers_notified;
    unfold detectPatterns; cbn [setHistory activityHistory];
    rewrite sliceLast_length, length_app; simpl length;
    unfold historyMaxLength;
    (destruct (Nat.ltb_spec (Nat.min 1000 (length (activityHistory s) + 1)) 10);
       [done | lia]).
Qed.

(** While the history holds fewer than 10 events no detector runs: whatever
    the events are, none is turned into a suggestion and nothing is
    notified. *)
Theorem no_detection_below_ten_events (evs : list Activity) s :
  length (activityHistory s) + length evs < 10 ->
  suggestions (feed evs s) = suggestions s
  /\ notified (feed evs s) = notified s.
Proof.
  revert s. induction evs as [|a evs IH]; intros s Hshort; [done|].
  simpl length in Hshort.
  destruct (checkForPatterns_short a s) as (Hs & Hn & Hl); [lia|].
  change (feed (a :: evs) s) with (feed evs (checkForPatterns a s)).
  destruct (IH (checkForPatterns a s)) as [Hs' Hn']; [lia|].
  by rewrite Hs', Hn', Hs, Hn.
Qed.
End WarmUp.
End WarmUpProps.

Module RegistryProps.
Import Listeners.

Section Order.
Context {Data World : Type}.
Implicit Types (listeners : @Registry Data World) (env : @Env World)
  (callback : @Listener Data World).

Lemma guarded_returns (event : string) (data : Data) callback env :
  snd (guarded event data callback env) = Returned tt.
Proof. unfold guarded. by destruct (callback data (fst env)) as [w [u|e]]. Qed.

Lemma forEach_guarded_cons (event : string) (data : Data) callback
    (rest : list (@Listener Data World)) env :
  forEach (guarded event data) (callback :: rest) env
    = forEach (guarded event data) rest
        (fst (guarded event data callback env)).
Proof.
  cbn [forEach]. pose proof (guarded_returns event data callback env) as Hr.
  destruct (guarded event data callback env) as [env' c]. simpl in Hr.
  by subst c.
Qed.

Lemma forEach_guarded_app (event : string) (data : Data)
    (l1 l2 : list (@Listener Data World)) env :
  forEach (guarded event data) (l1 ++ l2) env
    = forEach (guarded event data) l2
        (fst (forEach (guarded event data) l1 env)).
Proof.
  revert env. induction l1 as [|cb l1 IH]; intros env; [done|].
  cbn [app]. by rewrite !forEach_guarded_cons, IH.
Qed.

Lemma forEach_guarded_one (event : string) (data : Data) callback env :
  forEach (guarded event data) [callback] env = guarded event data callback env.
Proof.
  rewrite forEach_guarded_cons. cbn [forEach].
  pose proof (guarded_returns event data callback env) as Hr.
  destruct (guarded event data callback env) as [env' c]. simpl in *.
  by subst c.
Qed.

(** A callback registered with [on] is called after the callbacks that were
    registered before it for that event, on the world they left; the
    listeners of an event are not called for another event. *)
Theorem registered_listener_called_last listeners (event : string)
    (data : Data) callback env :
  notifyListeners (on event callback listeners) event data env
    = guarded event data callback
        (fst (notifyListeners listeners event data env))
  /\ (forall other, other <> event ->
        notifyListeners (on other callback listeners) event data env
          = notifyListeners listeners event data env).
Proof.
  split.
  - unfold notifyListeners, on, Registry in *.
    destruct (listeners !! event) as [callbacks|] eqn:Hreg;
      rewrite lookup_insert_eq.
    + by rewrite forEach_guarded_app, forEach_guarded_one.
    + by rewrite forEach_guarded_one.
  - intros other Hne. unfold notifyListeners, on, Registry in *.
    destruct (listeners !! other); by rewrite lookup_insert_ne.
Qed.
End Order.
End RegistryProps.

(** ** Properties of the tracker under runs of calls *)

Module CadenceProps.
Import Tracker.

Section Cadence.
Context {World : Type}.
Implicit Types (t : @ActivityTracker World) (p : PartialSettings).

Lemma start_cadence t :
  cadenceFollowsSettings t -> cadenceFollowsSettings (fst (start t)).
Proof.
  intros Hinv. unfold start.
  destruct (isTracking t) eqn:Ht; [exact Hinv|].
  destruct Hinv as [Htimer Hkeys]. rewrite Ht in Htimer, Hkeys.
  simpl in Htimer, Hkeys. destruct Htimer as [Hnone Hempty].
  unfold cadenceFollowsSettings.
  cbn [fst notifyListeners isTracking settings captureInterval activeTimers
       keyboardLogger andb].
  split.
  - destruct (enableScreenCapture (settings t)); [|done].
    exists (nextHandle t). by rewrite Hempty.
  - unfold keyboardStart. rewrite Hkeys.
    by destruct (enableKeyLogging (settings t)).
Qed.

Lemma stop_cadence t :
  cadenceFollowsSettings t -> cadenceFollowsSettings (fst (stop t)).
Proof.
  intros Hinv. unfold stop.
  destruct (isTracking t) eqn:Ht; [|exact Hinv].
  destruct Hinv as [Htimer Hkeys]. rewrite Ht in Htimer, Hkeys.
  unfold cadenceFollowsSettings.
  cbn [fst notifyListeners isTracking settings captureInterval activeTimers
       keyboardLogger andb].
  split.
  - split; [done|]. simpl in Htimer.
    destruct (enableScreenCapture (settings t)).
    + destruct Htimer as (handle & -> & ->). unfold clearInterval. simpl.
      by rewrite Pos.eqb_refl.
    + by destruct Htimer as [-> ->].
  - unfold keyboardStop. by destruct (isLogging (keyboardLogger t)) eqn:Hl.
Qed.

Lemma start_returns t : snd (start t) = Returned tt.
Proof.
  unfold start. destruct (isTracking t); [done|].
  apply ListenerProps.notifyListeners_returns.
Qed.

Lemma stop_returns t : snd (stop t) = Returned tt.
Proof.
  unfold stop. destruct (isTracking t); [|done].
  apply ListenerProps.notifyListeners_returns.
Qed.

Lemma setSettings_stopped st t :
  isTracking t = false -> cadenceFollowsSettings t ->
  cadenceFollowsSettings (setSettings st t).
Proof.
  intros Ht [Htimer Hkeys]. unfold cadenceFollowsSettings in *.
  cbn [setSettings isTracking settings captureInterval activeTimers
       keyboardLogger].
  rewrite Ht in *. done.
Qed.

Lemma stop_isTracking t : isTracking (fst (stop t)) = false.
Proof. unfold stop. by destruct (isTracking t) eqn:Ht. Qed.

Lemma stop_settings t : settings (fst (stop t)) = settings t.
Proof. unfold stop. by destruct (isTracking t). Qed.

Lemma start_settings t : settings (fst (start t)) = settings t.
Proof. unfold start. by destruct (isTracking t). Qed.

Lemma start_isTracking t : isTracking (fst (start t)) = true.
Proof. unfold start. by destruct (isTracking t) eqn:Ht. Qed.

Lemma updateSettings_unfold p t :
  updateSettings p t
    = if isTracking t
      then start (setSettings (mergeSettings (settings t) p) (fst (stop t)))
      else (setSettings (mergeSettings (settings t) p) t, Returned tt).
Proof.
  unfold updateSettings. destruct (isTracking t); [|done].
  pose proof (stop_returns t) as Hr. pose proof (stop_settings t) as Hs.
  destruct (stop t) as [stopped c]. simpl in *. subst c. by rewrite Hs.
Qed.

Lemma updateSettings_cadence p t :
  cadenceFollowsSettings t ->
  cadenceFollowsSettings (fst (updateSettings p t)).
Proof.
  intros Hinv. rewrite updateSettings_unfold.
  destruct (isTracking t) eqn:Ht.
  - apply start_cadence, setSettings_stopped;
      [apply stop_isTracking | by apply stop_cadence].
  - by apply setSettings_stopped.
Qed.

Lemma applyOp_cadence op t :
  cadenceFollowsSettings t -> cadenceFollowsSettings (fst (applyOp op t)).
Proof.
  destruct op; simpl;
    [apply start_cadence | apply stop_cadence | apply updateSettings_cadence].
Qed.

Lemma cadence_one_timer t :
  cadenceFollowsSettings t -> length (activeTimers t) <= 1.
Proof.
  intros [Htimer _]. destruct (_ && _).
  - destruct Htimer as (handle & _ & ->). simpl. lia.
  - destruct Htimer as [_ ->]. simpl. lia.
Qed.

(** Whatever calls of start, stop and updateSettings are made, in any
    order, the capture timer and the keyboard logger follow the state and
    the settings; at most one interval timer runs at any time. No call
    throws. *)
Theorem cadence_follows_settings (ops : list Op) t :
  cadenceFollowsSettings t ->
  cadenceFollowsSettings (runOps ops t)
  /\ length (activeTimers (runOps ops t)) <= 1
  /\ forall op, snd (applyOp op (runOps ops t)) = Returned tt.
Proof.
  intros Hinv.
  assert (Hrun : cadenceFollowsSettings (runOps ops t)).
  { revert t Hinv. induction ops as [|op ops IH]; intros t Hinv; [done|].
    apply (IH (fst (applyOp op t))). by apply applyOp_cadence. }
  split; [exact Hrun|]. split; [by apply cadence_one_timer|].
  intros [| |p]; simpl; [apply start_returns | apply stop_returns|].
  rewrite updateSettings_unfold. destruct (isTracking _); [|done].
  apply start_returns.
Qed.

(** updateSettings keeps the tracker tracking or stopped as it was and
    leaves it with the merged settings; when it tracks, the timer that runs
    afterwards has the new period, and the old timer is gone. *)
Theorem update_settings_applies p t :
  cadenceFollowsSettings t ->
  let t' := fst (updateSettings p t) in
  isTracking t' = isTracking t
  /\ settings t' = mergeSettings (settings t) p
  /\ (isTracking t = true ->
      enableScreenCapture (mergeSettings (settings t) p) = true ->
      exists handle,
        activeTimers t'
          = [(handle, captureIntervalMs (mergeSettings (settings t) p))])
  /\ (enableScreenCapture (mergeSettings (settings t) p) = false ->
      activeTimers t' = []).
Proof.
  intros Hinv t'.
  pose proof (updateSettings_cadence p t Hinv) as [Htimer _]. fold t' in Htimer.
  assert (Htr : isTracking t' = isTracking t).
  { subst t'. rewrite updateSettings_unfold.
    destruct (isTracking t) eqn:Ht; [apply start_isTracking | done]. }
  assert (Hst : settings t' = mergeSettings (settings t) p).
  { subst t'. rewrite updateSettings_unfold.
    destruct (isTracking t); [by rewrite start_settings | done]. }
  split; [exact Htr|]. split; [exact Hst|]. rewrite Htr, Hst in Htimer. split.
  - intros Ht Hcap. rewrite Ht, Hcap in Htimer.
    destruct Htimer as (handle & _ & Htimers). by exists handle.
  - intros Hcap. rewrite Hcap, andb_false_r in Htimer. by destruct Htimer.
Qed.
End Cadence.
End CadenceProps.

(** ** Properties of the keyboard logger and of its wiring *)

Module KeyboardProps.
Import Keyboard.

Section Logger.
Context {rt : JsRuntime}.
Implicit Types (kl : Tracker.KeyboardLogger) (k : nat) (keys : list string).

Lemma append_empty_r (s : string) : s +:+ "" = s.
Proof.
  induction s as [|c s IH]; [done|].
  change (String c (s +:+ "") = String c s). by f_equal.
Qed.

Lemma append_assoc (s1 s2 s3 : string) :
  (s1 +:+ s2) +:+ s3 = s1 +:+ (s2 +:+ s3).
Proof.
  induction s1 as [|c s1 IH]; [done|].
  change (String c ((s1 +:+ s2) +:+ s3) = String c (s1 +:+ s2 +:+ s3)).
  by f_equal.
Qed.

Lemma join_cons (x : string) (xs : list string) :
  String.concat "" (x :: xs) = x +:+ String.concat "" xs.
Proof. destruct xs; [by rewrite append_empty_r | done]. Qed.

Lemma join_app (l1 l2 : list string) :
  String.concat "" (l1 ++ l2) = String.concat "" l1 +:+ String.concat "" l2.
Proof.
  induction l1 as [|x l1 IH]; [done|].
  cbn [app]. by rewrite !join_cons, IH, append_assoc.
Qed.

(** What one keydown does while the logger logs: a special key is emitted
    at once, a regular key joins the buffer, and the buffer is emitted as
    one text event when it is flushed. *)
Lemma handleKeyPress_logging key k kl :
  Tracker.isLogging kl = true ->
  let '(kl', evs, k') := handleKeyPress key k kl in
  k' = k + length evs
  /\ Tracker.isLogging kl' = true
  /\ String.concat "" (map evText evs)
       +:+ String.concat "" (Tracker.keyBuffer kl')
     = String.concat "" (Tracker.keyBuffer kl)
         +:+ (if isSpecial key then "" else key)
  /\ map evKey (List.filter evIsSpecialKey evs)
     = (if isSpecial key then [key] else [])
  /\ (length (Tracker.keyBuffer kl) < 20 ->
      length (Tracker.keyBuffer kl') < 20).
Proof.
  intros Hlog. unfold handleKeyPress. rewrite Hlog.
  destruct (isSpecial key).
  - simpl. split; [lia|]. split; [done|].
    split; [by rewrite append_empty_r | done].
  - cbn [setBuffer Tracker.keyBuffer].
    destruct ((key =? " ") || Client.includes key flushKeys
              || (20 <=? length (Tracker.keyBuffer kl ++ [key]))%nat) eqn:Hf.
    + unfold flushKeyBuffer. cbn [setBuffer Tracker.keyBuffer].
      destruct (Tracker.keyBuffer kl ++ [key]) as [|b bs] eqn:Hb.
      { by destruct (Tracker.keyBuffer kl). }
      cbn [setBuffer Tracker.isLogging Tracker.keyBuffer map List.filter
           evText evIsSpecialKey length].
      split; [lia|]. split; [done|]. rewrite <- Hb, join_app.
      change (String.concat "" [String.concat "" (Tracker.keyBuffer kl) +:+ String.concat "" [key]])
        with (String.concat "" (Tracker.keyBuffer kl) +:+ String.concat "" [key]).
      change (String.concat "" []) with "". rewrite append_empty_r.
      split; [done|]. split; [done | simpl; lia].
    + cbn [setBuffer Tracker.isLogging Tracker.keyBuffer map List.filter
           length].
      split; [lia|]. split; [done|]. rewrite join_app. split; [done|].
      split; [done|]. intros _.
      apply orb_false_elim in Hf as [_ Hlen].
      apply Nat.leb_gt in Hlen. exact Hlen.
Qed.

(** While the logger logs nothing typed is lost or reordered: the texts
    emitted so far followed by the buffer are the buffer at the start
    followed by the regular keys typed, in order; the special keys are
    emitted one by one in the order typed; one clock reading is made per
    event; a buffer shorter than 20 keys stays shorter than 20. *)
Theorem typed_text_is_conserved keys k kl :
  Tracker.isLogging kl = true ->
  exists kl' evs,
    typeKeys keys k kl = (kl', evs, k + length evs)
    /\ String.concat "" (map evText evs)
         +:+ String.concat "" (Tracker.keyBuffer kl')
       = String.concat "" (Tracker.keyBuffer kl)
           +:+ String.concat ""
                 (List.filter (fun key => negb (isSpecial key)) keys)
    /\ map evKey (List.filter evIsSpecialKey evs) = List.filter isSpecial keys
    /\ (length (Tracker.keyBuffer kl) < 20 ->
        length (Tracker.keyBuffer kl') < 20).
Proof.
  revert k kl. induction keys as [|key keys IH]; intros k kl Hlog.
  - exists kl, []. simpl. rewrite Nat.add_0_r, append_empty_r. done.
  - pose proof (handleKeyPress_logging key k kl Hlog) as Hstep1.
    destruct (handleKeyPress key k kl) as [[kl1 evs1] k1] eqn:Hstep.
    destruct Hstep1 as (-> & Hlog1 & Htext1 & Hsp1 & Hb1).
    destruct (IH (k + length evs1) kl1 Hlog1)
      as (kl2 & evs2 & Hrun & Htext2 & Hsp2 & Hb2).
    exists kl2, (evs1 ++ evs2). cbn [typeKeys]. rewrite Hstep, Hrun.
    split; [by rewrite length_app, Nat.add_assoc|].
    split; [|split; [|auto]].
    + rewrite map_app, join_app, append_assoc, Htext2.
      rewrite <- append_assoc, Htext1, append_assoc. f_equal.
      cbn [List.filter]. destruct (isSpecial key); cbn [negb]; [done|].
      by rewrite join_cons.
    + rewrite List.filter_app, map_app, Hsp1, Hsp2. cbn [List.filter].
      by destruct (isSpecial key).
Qed.

Lemma includes_In key (l : list string) :
  Client.includes key l = true <-> In key l.
Proof.
  unfold Client.includes. rewrite existsb_exists. split.
  - by intros (key' & Hin & ->%String.eqb_eq).
  - intros Hin. exists key. split; [done | apply String.eqb_refl].
Qed.

(** Which keys are special: the seventeen named keys and every key that
    starts with F followed by a digit (F1 to F12 among them); a key made of
    one character is never special, so it goes to the buffer. *)
Theorem special_keys_are_named_or_function_keys :
  (forall key, In key specialKeys -> isSpecial key = true)
  /\ (forall d rest, isDigit d = true ->
        isSpecial (String "F" (String d rest)) = true)
  /\ (forall c, isSpecial (String c EmptyString) = false).
Proof.
  split; [|split].
  - intros key Hin. unfold isSpecial.
    by rewrite (proj2 (includes_In key specialKeys) Hin).
  - intros d rest Hd. unfold isSpecial. apply orb_true_iff. right.
    cbn [startsWithF testFDigits]. rewrite Hd. done.
  - intros c. unfold isSpecial. apply orb_false_iff. split.
    + destruct (Client.includes (String c "") specialKeys) eqn:Hin; [|done].
      apply includes_In in Hin. simpl in Hin.
      repeat (destruct Hin as [Hin|Hin]; [discriminate|]). done.
    + simpl. by destruct (Ascii.eqb c "F").
Qed.
End Logger.
End KeyboardProps.

Module PageProps.
Import Keyboard Page.

Section Wiring.
Context {rt : JsRuntime} {World : Type}.
Implicit Types (p : @Page World) (ev : KeyboardEvent).

Lemma handleKeyPress_one_event key k kl :
  length (snd (fst (handleKeyPress key k kl))) <= 1.
Proof.
  unfold handleKeyPress, flushKeyBuffer.
  destruct (Tracker.isLogging kl); [|simpl; lia].
  destruct (isSpecial key); [simpl; lia|].
  destruct (_ || _); [|simpl; lia].
  cbn [setBuffer Tracker.keyBuffer].
  destruct (Tracker.keyBuffer kl ++ [key]); simpl; lia.
Qed.

Lemma setKeyboardLogger_same (t : @Tracker.ActivityTracker World) :
  setKeyboardLogger (Tracker.keyboardLogger t) t = t.
Proof. by destruct t. Qed.

(** What the listener does with one event of the logger. *)
Lemma onKeypress_effects p ev :
  let p' := onKeypress p ev in
  let acts :=
    if Tracker.isTracking (tracker p) then [keyboardActivity ev] else [] in
  saved p' = saved p ++ acts
  /\ checked p'
     = checked p
         ++ (if Tracker.enableAutomationSuggestions
                  (Tracker.settings (tracker p))
             then acts else [])
  /\ Tracker.notified (tracker p')
     = Tracker.notified (tracker p) ++ activityEvents acts
  /\ Tracker.isTracking (tracker p') = Tracker.isTracking (tracker p)
  /\ Tracker.settings (tracker p') = Tracker.settings (tracker p)
  /\ Tracker.keyboardLogger (tracker p')
     = Tracker.keyboardLogger (tracker p).
Proof.
  unfold onKeypress. destruct (Tracker.isTracking (tracker p)) eqn:Ht.
  - cbn [tracker saved checked Tracker.notifyListeners fst
         Tracker.isTracking Tracker.settings Tracker.notified
         Tracker.keyboardLogger activityEvents map].
    by destruct (Tracker.enableAutomationSuggestions _);
      rewrite ?app_nil_r.
  - cbv zeta. cbn [activityEvents map]. rewrite !app_nil_r.
    by destruct (Tracker.enableAutomationSuggestions _);
      rewrite ?app_nil_r.
Qed.

Lemma fold_onKeypress_effects (evs : list KeyboardEvent) p :
  let p' := fold_left onKeypress evs p in
  let acts :=
    if Tracker.isTracking (tracker p) then map keyboardActivity evs else [] in
  saved p' = saved p ++ acts
  /\ checked p'
     = checked p
         ++ (if Tracker.enableAutomationSuggestions
                  (Tracker.settings (tracker p))
             then acts else [])
  /\ Tracker.notified (tracker p')
     = Tracker.notified (tracker p) ++ activityEvents acts
  /\ Tracker.isTracking (tracker p') = Tracker.isTracking (tracker p)
  /\ Tracker.settings (tracker p') = Tracker.settings (tracker p)
  /\ Tracker.keyboardLogger (tracker p')
     = Tracker.keyboardLogger (tracker p).
Proof.
  revert p. induction evs as [|ev evs IH]; intros p; cbv zeta.
  - cbn [fold_left map activityEvents].
    destruct (Tracker.isTracking (tracker p)),
      (Tracker.enableAutomationSuggestions _); by rewrite !app_nil_r.
  - cbn [fold_left].
    destruct (onKeypress_effects p ev) as (Hs1 & Hc1 & Hn1 & Hi1 & Hst1 & Hk1).
    destruct (IH (onKeypress p ev)) as (Hs & Hc & Hn & Hi & Hst & Hk).
    rewrite Hs, Hc, Hn, Hi, Hst, Hk, Hs1, Hc1, Hn1, Hi1, Hst1, Hk1.
    destruct (Tracker.isTracking (tracker p)),
      (Tracker.enableAutomationSuggestions _);
      cbn [map activityEvents app]; rewrite <- ?app_assoc, ?app_nil_r; done.
Qed.

(** What the delivery of the logger's events does to the page. *)
Lemma deliver_effects kl (evs : list KeyboardEvent) k p :
  let p' := deliver (kl, evs, k) p in
  let acts :=
    if Tracker.isTracking (tracker p) then map keyboardActivity evs else [] in
  saved p' = saved p ++ acts
  /\ checked p'
     = checked p
         ++ (if Tracker.enableAutomationSuggestions
                  (Tracker.settings (tracker p))
             then acts else [])
  /\ Tracker.notified (tracker p')
     = Tracker.notified (tracker p) ++ activityEvents acts.
Proof.
  unfold deliver.
  destruct (fold_onKeypress_effects evs
    {| tracker := setKeyboardLogger kl (tracker p); clockReads := k;
       saved := saved p; checked := checked p |}) as (Hs & Hc & Hn & _).
  by split; [|split].
Qed.

(** A keydown hands at most one keyboard activity to saveActivity and to
    the activity listeners; the same activity goes to
    automationManager.checkForPatterns when automation suggestions are
    enabled and nothing goes there when they are not (so no trigger is
    checked either); a page that is not tracking, or whose logger is not
    logging, hands over nothing. *)
Theorem key_press_effects (key : string) p :
  exists acts,
    saved (pressKey key p) = saved p ++ acts
    /\ checked (pressKey key p)
       = checked p
           ++ (if Tracker.enableAutomationSuggestions
                    (Tracker.settings (tracker p))
               then acts else [])
    /\ Tracker.notified (tracker (pressKey key p))
       = Tracker.notified (tracker p) ++ activityEvents acts
    /\ length acts <= 1
    /\ Forall (fun a => atype a = "keyboard") acts
    /\ (Tracker.isTracking (tracker p) = false -> acts = [])
    /\ (Tracker.isLogging (Tracker.keyboardLogger (tracker p)) = false ->
        acts = []).
Proof.
  unfold pressKey.
  pose proof (handleKeyPress_one_event key (clockReads p)
                (Tracker.keyboardLogger (tracker p))) as Hone.
  destruct (handleKeyPress key (clockReads p)
              (Tracker.keyboardLogger (tracker p))) as [[kl evs] k] eqn:Hkey.
  simpl in Hone.
  destruct (deliver_effects kl evs k p) as (Hs & Hc & Hn).
  eexists. split; [exact Hs|]. split; [exact Hc|]. split; [exact Hn|].
  split; [|split; [|split]].
  - destruct (Tracker.isTracking (tracker p)); [|simpl; lia].
    by rewrite length_map.
  - destruct (Tracker.isTracking (tracker p)); [|constructor].
    apply List.Forall_forall. by intros a (ev & <- & _)%in_map_iff.
  - by intros ->.
  - intros Hlog. unfold handleKeyPress in Hkey. rewrite Hlog in Hkey.
    injection Hkey as _ <- _. by destruct (Tracker.isTracking (tracker p)).
Qed.

Lemma deliver_stopped kl (evs : list KeyboardEvent) k p :
  Tracker.isTracking (tracker p) = false ->
  deliver (kl, evs, k) p
    = {| tracker := setKeyboardLogger kl (tracker p); clockReads := k;
         saved := saved p; checked := checked p |}.
Proof.
  intros Ht. unfold deliver.
  set (q := {| tracker := setKeyboardLogger kl (tracker p) |}).
  assert (Hq : Tracker.isTracking (tracker q) = false) by exact Ht.
  clearbody q. induction evs as [|ev evs IH]; [done|].
  cbn [fold_left]. unfold onKeypress at 2. by rewrite Hq.
Qed.

Lemma stop_logger k kl :
  fst (fst (Keyboard.stop k kl)) = Tracker.keyboardStop kl.
Proof.
  unfold Keyboard.stop, Tracker.keyboardStop, flushKeyBuffer.
  destruct (Tracker.isLogging kl); [|done].
  cbn [Tracker.keyBuffer]. by destruct (Tracker.keyBuffer kl).
Qed.

(** stop discards the text still in the key buffer: the logger flushes it
    to the keypress listener after isTracking was cleared, and the listener
    returns at once. Nothing is saved or checked for it, the tracker is left
    as ActivityTracker.stop with a logger that drops its buffer leaves it,
    and the buffer is empty afterwards. *)
Theorem stop_discards_buffered_text p :
  tracker (stop p) = fst (Tracker.stop (tracker p))
  /\ saved (stop p) = saved p
  /\ checked (stop p) = checked p
  /\ (Tracker.isTracking (tracker p) = true ->
      Tracker.isLogging (Tracker.keyboardLogger (tracker p)) = true ->
      Tracker.keyBuffer (Tracker.keyboardLogger (tracker (stop p))) = [])
  /\ clockReads p <= clockReads (stop p) <= S (clockReads p).
Proof.
  unfold stop, Tracker.stop.
  destruct (Tracker.isTracking (tracker p)) eqn:Ht; [|repeat split; lia].
  pose proof (stop_logger (clockReads p)
                (Tracker.keyboardLogger (tracker p))) as Hkl.
  assert (Hk : clockReads p
               <= snd (Keyboard.stop (clockReads p)
                         (Tracker.keyboardLogger (tracker p)))
               <= S (clockReads p)).
  { unfold Keyboard.stop, flushKeyBuffer.
    destruct (Tracker.isLogging _); [|simpl; lia].
    cbn [Tracker.keyBuffer].
    destruct (Tracker.keyBuffer _); simpl; lia. }
  destruct (Keyboard.stop (clockReads p) (Tracker.keyboardLogger (tracker p)))
    as [[kl evs] k]. cbn [fst snd] in Hkl, Hk. subst kl.
  rewrite deliver_stopped by done.
  cbn [tracker saved checked clockReads setKeyboardLogger
       Tracker.notifyListeners fst Tracker.isTracking Tracker.settings
       Tracker.captureInterval Tracker.listeners Tracker.keyboardLogger
       Tracker.activeTimers Tracker.nextHandle Tracker.env Tracker.notified].
  split; [done|]. split; [done|]. split; [done|]. split; [|exact Hk].
  intros _ Hlog. unfold Tracker.keyboardStop. by rewrite Hlog.
Qed.
End Wiring.
End PageProps.

(** ** Maps in insertion order *)

Module JsMapProps.
Import JsMap.

Section Laws.
Context {V : Type}.
Implicit Types (m : list (Z * V)) (k : Z) (v : V).

Lemma get_set_same k v m : get k (set k v m) = Some v.
Proof.
  induction m as [|[k' v'] m IH]; simpl.
  - by rewrite Z.eqb_refl.
  - destruct (k' =? k)%Z eqn:Hk; simpl.
    + by rewrite Z.eqb_refl.
    + by rewrite Hk.
Qed.

Lemma get_set_other k k' v m : k <> k' -> get k' (set k v m) = get k' m.
Proof.
  intros Hne. induction m as [|[k0 v0] m IH]; simpl.
  - destruct (k =? k')%Z eqn:Hk; [|done]. apply Z.eqb_eq in Hk. done.
  - destruct (k0 =? k)%Z eqn:Hk; simpl.
    + apply Z.eqb_eq in Hk. subst k0.
      destruct (k =? k')%Z eqn:Hk'; [|done]. apply Z.eqb_eq in Hk'. done.
    + by rewrite IH.
Qed.

Lemma get_Some_In k v m : get k m = Some v -> In (k, v) m.
Proof.
  induction m as [|[k' v'] m IH]; simpl; [done|].
  destruct (k' =? k)%Z eqn:Hk.
  - apply Z.eqb_eq in Hk. intros [= ->]. left. by subst.
  - intros H. right. by apply IH.
Qed.

Lemma get_None_keys k m : get k m = None <-> ~ In k (keys m).
Proof.
  induction m as [|[k' v'] m IH]; simpl; [tauto|].
  destruct (k' =? k)%Z eqn:Hk.
  - apply Z.eqb_eq in Hk. split; [done|]. intros H. destruct H. by left.
  - apply Z.eqb_neq in Hk. rewrite IH. tauto.
Qed.

Lemma keys_set_present k v m :
  In k (keys m) -> keys (set k v m) = keys m.
Proof.
  induction m as [|[k' v'] m IH]; simpl; [done|].
  destruct (k' =? k)%Z eqn:Hk; simpl.
  - apply Z.eqb_eq in Hk. by subst.
  - apply Z.eqb_neq in Hk. intros [H|H]; [done|]. by rewrite IH.
Qed.

Lemma set_absent k v m : ~ In k (keys m) -> set k v m = m ++ [(k, v)].
Proof.
  induction m as [|[k' v'] m IH]; simpl; [done|].
  intros Hnot. destruct (k' =? k)%Z eqn:Hk.
  - apply Z.eqb_eq in Hk. destruct Hnot. by left.
  - rewrite IH; [done|]. tauto.
Qed.

Lemma below_absent k m :
  Forall (fun k' => (k' < k)%Z) (keys m) -> ~ In k (keys m).
Proof.
  intros Hall Hin. rewrite List.Forall_forall in Hall.
  specialize (Hall k Hin). lia.
Qed.

Lemma get_filter_keys (keep : Z -> bool) k m :
  get k (List.filter (fun e => keep (fst e)) m)
  = if keep k then get k m else None.
Proof.
  induction m as [|[k' v'] m IH]; simpl.
  - by destruct (keep k).
  - destruct (keep k') eqn:Hkeep; simpl.
    + destruct (k' =? k)%Z eqn:Hk; [|done].
      apply Z.eqb_eq in Hk. subst k'. by rewrite Hkeep.
    + rewrite IH. destruct (k' =? k)%Z eqn:Hk; [|done].
      apply Z.eqb_eq in Hk. subst k'. by rewrite Hkeep.
Qed.

Lemma get_delete k k' m :
  get k' (delete k m) = if (k' =? k)%Z then None else get k' m.
Proof.
  unfold delete.
  rewrite (get_filter_keys (fun key => negb (key =? k)%Z)).
  by destruct (k' =? k)%Z.
Qed.

(** A row stands in a map with distinct keys iff [get] finds it. *)
Lemma In_get k v m : NoDup (keys m) -> In (k, v) m -> get k m = Some v.
Proof.
  induction m as [|[k' v'] m IH]; simpl; [done|].
  intros Hnd [Hin|Hin].
  - injection Hin as -> ->. by rewrite Z.eqb_refl.
  - apply NoDup_cons in Hnd as [Hnot Hnd].
    destruct (k' =? k)%Z eqn:Hk; [|by apply IH].
    apply Z.eqb_eq in Hk. subst k'. destruct Hnot.
    apply list_elem_of_In. unfold keys.
    apply (in_map fst) in Hin. exact Hin.
Qed.
End Laws.

(** *** Tables *)

Section Tables.
Context {R : Type} (rowId : R -> Z).
Implicit Types (m : list (Z * R)) (k next : Z) (row : R).

Lemma tableOk_nil next : Store.tableOk rowId next [].
Proof. split; [constructor|]. split; constructor. Qed.

Lemma tableOk_NoDup next m :
  Store.tableOk rowId next m -> NoDup (keys m).
Proof.
  intros [Hsorted _]. induction Hsorted as [|k ks Hs IH Hall].
  - constructor.
  - apply NoDup_cons. split; [|done]. intros Hin.
    apply list_elem_of_In in Hin. rewrite List.Forall_forall in Hall.
    specialize (Hall k Hin). lia.
Qed.

Lemma sorted_snoc (ks : list Z) k :
  StronglySorted Z.lt ks -> Forall (fun k' => (k' < k)%Z) ks ->
  StronglySorted Z.lt (ks ++ [k]).
Proof.
  induction 1 as [|k0 ks Hs IH Hall]; intros Hlt; simpl.
  - constructor; constructor.
  - apply Forall_cons in Hlt as [Hk0 Hlt]. constructor; [by apply IH|].
    apply Forall_app. split; [done|]. by constructor.
Qed.

(** A create: the row goes under the counter, which moves on. *)
Lemma tableOk_create next row m :
  Store.tableOk rowId next m -> rowId row = next ->
  set next row m = m ++ [(next, row)]
  /\ Store.tableOk rowId (next + 1) (m ++ [(next, row)]).
Proof.
  intros (Hsorted & Hbelow & Hkeyed) Hid.
  split; [by apply set_absent, below_absent|].
  unfold Store.tableOk, keys in *. rewrite map_app. simpl.
  split; [by apply sorted_snoc|]. split.
  - apply Forall_app. split.
    + eapply Forall_impl; [exact Hbelow|]. simpl. intros; lia.
    + constructor; [lia|constructor].
  - apply Forall_app. split; [done|]. by constructor.
Qed.

Lemma keyed_set k row m :
  rowId row = k ->
  Forall (fun e => rowId (snd e) = fst e) m ->
  Forall (fun e => rowId (snd e) = fst e) (set k row m).
Proof.
  intros Hid. induction 1 as [|[k' v'] m Hx Hm IH]; simpl.
  - by constructor.
  - destruct (k' =? k)%Z; constructor; done.
Qed.

(** An update of a row the table holds. *)
Lemma tableOk_update next k row old m :
  Store.tableOk rowId next m -> get k m = Some old -> rowId row = k ->
  Store.tableOk rowId next (set k row m).
Proof.
  intros (Hsorted & Hbelow & Hkeyed) Hget Hid.
  assert (Hin : In k (keys m)).
  { apply get_Some_In in Hget. by apply (in_map fst) in Hget. }
  unfold Store.tableOk. rewrite (keys_set_present _ _ _ Hin).
  split; [done|]. split; [done|]. by apply keyed_set.
Qed.

Lemma sorted_filter (keep : Z -> bool) (ks : list Z) :
  StronglySorted Z.lt ks -> StronglySorted Z.lt (List.filter keep ks).
Proof.
  induction 1 as [|k ks Hs IH Hall]; simpl; [constructor|].
  destruct (keep k); [|done]. constructor; [done|].
  rewrite List.Forall_forall in *. intros k' Hin.
  apply List.filter_In in Hin as [Hin _]. by apply Hall.
Qed.

Lemma keys_filter (keep : Z -> bool) m :
  keys (List.filter (fun e => keep (fst e)) m) = List.filter keep (keys m).
Proof.
  induction m as [|[k v] m IH]; simpl; [done|].
  destruct (keep k); simpl; by rewrite IH.
Qed.

Lemma tableOk_filter (keep : Z -> bool) next m :
  Store.tableOk rowId next m ->
  Store.tableOk rowId next (List.filter (fun e => keep (fst e)) m).
Proof.
  intros (Hsorted & Hbelow & Hkeyed). unfold Store.tableOk.
  rewrite keys_filter. split; [by apply sorted_filter|]. split.
  - rewrite List.Forall_forall in *. intros k Hin.
    apply List.filter_In in Hin as [Hin _]. by apply Hbelow.
  - rewrite List.Forall_forall in *. intros e Hin.
    apply List.filter_In in Hin as [Hin _]. by apply Hkeyed.
Qed.

(** The loop of deletions is one filter: the entries whose key is the id
    of none of the rows stay. *)
Lemma deleteEach_filter (rows : list R) m :
  Store.deleteEach rowId rows m
  = List.filter (fun e => Store.spared rowId rows (fst e)) m.
Proof.
  unfold Store.deleteEach. revert m.
  induction rows as [|row rows IH]; intros m; simpl.
  - unfold Store.spared. simpl. induction m as [|e m IHm]; simpl; [done|].
    by rewrite <- IHm.
  - rewrite IH. unfold delete. clear IH.
    induction m as [|[k v] m IHm]; simpl; [done|].
    unfold Store.spared at 2. simpl.
    rewrite (Z.eqb_sym (rowId row) k).
    destruct (k =? rowId row)%Z; simpl; [done|].
    fold (Store.spared rowId rows k).
    destruct (Store.spared rowId rows k); simpl; by rewrite IHm.
Qed.

Lemma tableOk_deleteEach (rows : list R) next m :
  Store.tableOk rowId next m ->
  Store.tableOk rowId next (Store.deleteEach rowId rows m).
Proof.
  intros Hok. rewrite deleteEach_filter. by apply tableOk_filter.
Qed.

Lemma tableOk_delete k next m :
  Store.tableOk rowId next m -> Store.tableOk rowId next (delete k m).
Proof.
  intros Hok. unfold delete.
  by apply (tableOk_filter (fun key => negb (key =? k)%Z)).
Qed.

Lemma tableOk_get next k row m :
  Store.tableOk rowId next m ->
  (get k m = Some row <-> In (k, row) m).
Proof.
  intros Hok. split; [apply get_Some_In|].
  apply In_get. by eapply tableOk_NoDup.
Qed.

Lemma tableOk_row_id next k row m :
  Store.tableOk rowId next m -> get k m = Some row -> rowId row = k.
Proof.
  intros (_ & _ & Hkeyed) Hget. apply get_Some_In in Hget.
  rewrite List.Forall_forall in Hkeyed. exact (Hkeyed _ Hget).
Qed.

Lemma tableOk_fresh next m :
  Store.tableOk rowId next m -> get next m = None.
Proof.
  intros (_ & Hbelow & _). by apply get_None_keys, below_absent.
Qed.
End Tables.
End JsMapProps.

(** ** The store: rows, ids and counters *)

Module StoreProps.
Import Store JsMapProps.

Section Invariant.
Context {rt : JsRuntime} {Json : Type}.
Implicit Types (st : @MemStorage Json) (op : @Op Json).
Implicit Types (ops : list (@Op Json)).

Lemma tableOk_set_next {R : Type} (rowId : R -> Z) next row
    (m : list (Z * R)) :
  tableOk rowId next m -> rowId row = next ->
  tableOk rowId (next + 1) (JsMap.set next row m).
Proof.
  intros Hok Hid. destruct (tableOk_create rowId next row m Hok Hid) as [-> H].
  exact H.
Qed.

Lemma storeOk_empty reads : storeOk (@empty Json reads).
Proof.
  split; [right; done|].
  repeat split; constructor.
Qed.

Lemma users_after_create u st :
  (tableOk userId (currentUserId st) (users st)
   \/ (currentUserId st = 1%Z /\ users st = [(1%Z, defaultUser)])) ->
  tableOk userId (currentUserId st + 1)
    (JsMap.set (currentUserId st)
       {| userId := currentUserId st; account := u |} (users st)).
Proof.
  intros [Hok|[Hnext Husers]].
  - by apply tableOk_set_next.
  - rewrite Hnext, Husers. simpl. split; [|split].
    + repeat constructor.
    + repeat constructor.
    + repeat constructor.
Qed.

Lemma storeOk_clearUserData owner st :
  storeOk st -> storeOk (clearUserData owner st).
Proof.
  intros (Hu & Hs & Hl & Ht & Hp). unfold clearUserData.
  set (st1 := setScreenshots _ st).
  set (st2 := setActivityLogs _ st1).
  set (st3 := setAutomationTasks _ _ st2).
  assert (H3 : storeOk st3).
  { split; [exact Hu|]. split; [|split; [|split]]; simpl.
    - by apply tableOk_deleteEach.
    - by apply tableOk_deleteEach.
    - by apply (tableOk_deleteEach (fun task => id (Server.core task))).
    - exact Hp. }
  destruct (getSettingsByUserId owner st3) as [s|]; [|exact H3].
  destruct H3 as (Hu3 & Hs3 & Hl3 & Ht3 & Hp3).
  split; [exact Hu3|]. split; [exact Hs3|]. split; [exact Hl3|].
  split; [exact Ht3|]. simpl. by apply tableOk_delete.
Qed.

Lemma storeOk_applyOp op st : storeOk st -> storeOk (applyOp op st).
Proof.
  intros Hok. pose proof Hok as (Hu & Hs & Hl & Ht & Hp).
  destruct op as [u|s|i full mouse|l|t|i|s|i s|owner]; simpl.
  - split; [left; by apply users_after_create|]. done.
  - split; [exact Hu|]. split; [by apply tableOk_set_next|]. done.
  - unfold updateScreenshotPaths.
    destruct (JsMap.get i (screenshots st)) as [old|] eqn:Hget; [|exact Hok].
    simpl. split; [exact Hu|]. split; [|done].
    eapply tableOk_update; [exact Hs | exact Hget|]. simpl.
    by eapply tableOk_row_id.
  - split; [exact Hu|]. split; [exact Hs|].
    split; [by apply tableOk_set_next|]. done.
  - split; [exact Hu|]. split; [exact Hs|]. split; [exact Hl|].
    split; [by apply (tableOk_set_next (fun task => id (Server.core task)))|].
    done.
  - unfold updateAutomationTaskExecutionCount.
    destruct (JsMap.get i (automationTasks st)) as [old|] eqn:Hget;
      [|exact Hok].
    simpl. split; [exact Hu|]. split; [exact Hs|]. split; [exact Hl|].
    split; [|exact Hp].
    eapply (tableOk_update (fun task => id (Server.core task)));
      [exact Ht | exact Hget|]. simpl.
    by eapply (tableOk_row_id (fun task => id (Server.core task))).
  - split; [exact Hu|]. split; [exact Hs|]. split; [exact Hl|].
    split; [exact Ht|]. by apply tableOk_set_next.
  - unfold updateSettings.
    destruct (JsMap.get i (userSettings st)) as [old|] eqn:Hget; [|exact Hok].
    simpl. split; [exact Hu|]. split; [exact Hs|]. split; [exact Hl|].
    split; [exact Ht|].
    eapply tableOk_update; [exact Hp | exact Hget|]. simpl.
    by eapply tableOk_row_id.
  - by apply storeOk_clearUserData.
Qed.

Lemma storeOk_fold ops st :
  storeOk st -> storeOk (fold_left (fun st' op => applyOp op st') ops st).
Proof.
  revert st. induction ops as [|op ops IH]; intros st Hok; [done|].
  simpl. apply IH. by apply storeOk_applyOp.
Qed.

Lemma storeOk_runOps ops reads : storeOk (runOps ops reads).
Proof. apply storeOk_fold, storeOk_empty. Qed.

Lemma runOps_snoc ops op reads :
  runOps (ops ++ [op]) reads = applyOp op (runOps ops reads).
Proof. unfold runOps. by rewrite fold_left_app. Qed.

Lemma runOps_app ops1 ops2 reads :
  runOps (ops1 ++ ops2) reads
  = fold_left (fun st op => applyOp op st) ops2 (runOps ops1 reads).
Proof. unfold runOps. by rewrite fold_left_app. Qed.

Lemma clearUserData_counters owner st :
  counters (clearUserData owner st) = counters st
  /\ users (clearUserData owner st) = users st
  /\ clockReads (clearUserData owner st) = clockReads st.
Proof. unfold clearUserData. by case_match. Qed.

Lemma counters_applyOp op st :
  Forall2 Z.le (counters st) (counters (applyOp op st)).
Proof.
  destruct op as [u|s|i full mouse|l|t|i|s|i s|owner]; simpl;
    try (unfold counters; simpl; repeat constructor; lia).
  - unfold updateScreenshotPaths. case_match; simpl;
      unfold counters; simpl; repeat constructor; lia.
  - unfold updateAutomationTaskExecutionCount. case_match; simpl;
      unfold counters; simpl; repeat constructor; lia.
  - unfold updateSettings. case_match; simpl;
      unfold counters; simpl; repeat constructor; lia.
  - destruct (clearUserData_counters owner st) as [-> _].
    unfold counters. repeat constructor; lia.
Qed.

Lemma Forall2_le_trans (l1 l2 l3 : list Z) :
  Forall2 Z.le l1 l2 -> Forall2 Z.le l2 l3 -> Forall2 Z.le l1 l3.
Proof.
  intros H. revert l3. induction H as [|a b l1 l2 Hab H IH]; intros l3 H3.
  - by inversion H3.
  - inversion H3 as [|b' c l2' l3' Hbc H3']; subst.
    constructor; [lia|]. by apply IH.
Qed.

Lemma counters_fold ops st :
  Forall2 Z.le (counters st)
    (counters (fold_left (fun st' op => applyOp op st') ops st)).
Proof.
  revert st. induction ops as [|op ops IH]; intros st; simpl.
  - unfold counters. repeat constructor; lia.
  - eapply Forall2_le_trans; [apply counters_applyOp | apply IH].
Qed.

(** In every store a run of calls leaves, each row of each table
    stands under its own id, the rows stand in the order of their ids, and
    every id is below the counter of the table: the next id is new. *)
Theorem rows_stand_under_increasing_ids ops reads :
  let st := runOps ops reads in
  tableOk shotId (currentScreenshotId st) (screenshots st)
  /\ tableOk logId (currentActivityLogId st) (activityLogs st)
  /\ tableOk (fun task => id (Server.core task))
             (currentAutomationTaskId st) (automationTasks st)
  /\ tableOk settingsId (currentSettingsId st) (userSettings st)
  /\ Forall (fun e => userId (snd e) = fst e) (users st)
  /\ NoDup (JsMap.keys (users st)).
Proof.
  intros st. destruct (storeOk_runOps ops reads) as (Hu & Hs & Hl & Ht & Hp).
  fold st in Hu, Hs, Hl, Ht, Hp.
  split; [exact Hs|]. split; [exact Hl|]. split; [exact Ht|].
  split; [exact Hp|].
  destruct Hu as [Hu|[_ ->]].
  - split; [apply Hu | by eapply tableOk_NoDup].
  - split; repeat constructor. simpl. set_solver.
Qed.

(** Ids are never given twice, whatever is called in between, a
    clearUserData included: of two rows created in one table, the later
    one has the greater id. *)
Theorem created_ids_increase ops1 ops2 reads :
  let st1 := runOps ops1 reads in
  (forall u u',
     let st2 := runOps (ops1 ++ OpCreateUser u :: ops2) reads in
     (userId (snd (createUser u st1)) < userId (snd (createUser u' st2)))%Z)
  /\ (forall s s',
     let st2 := runOps (ops1 ++ OpCreateScreenshot s :: ops2) reads in
     (shotId (snd (createScreenshot s st1))
      < shotId (snd (createScreenshot s' st2)))%Z)
  /\ (forall l l',
     let st2 := runOps (ops1 ++ OpCreateActivityLog l :: ops2) reads in
     (logId (snd (createActivityLog l st1))
      < logId (snd (createActivityLog l' st2)))%Z)
  /\ (forall t t',
     let st2 := runOps (ops1 ++ OpCreateAutomationTask t :: ops2) reads in
     (id (Server.core (snd (createAutomationTask t st1)))
      < id (Server.core (snd (createAutomationTask t' st2))))%Z)
  /\ (forall s s',
     let st2 := runOps (ops1 ++ OpCreateSettings s :: ops2) reads in
     (settingsId (snd (createSettings s st1))
      < settingsId (snd (createSettings s' st2)))%Z).
Proof.
  intros st1. subst st1.
  assert (Hgrow : forall op,
            Forall2 Z.le (counters (applyOp op (runOps ops1 reads)))
              (counters (runOps (ops1 ++ op :: ops2) reads))).
  { intros op. rewrite runOps_app. simpl. apply counters_fold. }
  repeat split; intros a a'; simpl.
  - specialize (Hgrow (OpCreateUser a)). unfold counters in Hgrow.
    simpl in Hgrow. inversion Hgrow; subst. lia.
  - specialize (Hgrow (OpCreateScreenshot a)). unfold counters in Hgrow.
    simpl in Hgrow.
    repeat match goal with H : Forall2 _ (_ :: _) _ |- _ =>
      inversion H; clear H; subst end. lia.
  - specialize (Hgrow (OpCreateActivityLog a)). unfold counters in Hgrow.
    simpl in Hgrow.
    repeat match goal with H : Forall2 _ (_ :: _) _ |- _ =>
      inversion H; clear H; subst end. lia.
  - specialize (Hgrow (OpCreateAutomationTask a)). unfold counters in Hgrow.
    simpl in Hgrow.
    repeat match goal with H : Forall2 _ (_ :: _) _ |- _ =>
      inversion H; clear H; subst end. lia.
  - specialize (Hgrow (OpCreateSettings a)). unfold counters in Hgrow.
    simpl in Hgrow.
    repeat match goal with H : Forall2 _ (_ :: _) _ |- _ =>
      inversion H; clear H; subst end. lia.
Qed.
End Invariant.
End StoreProps.

(** ** The store: what the reads answer after the writes *)

Module ReadProps.
Import Store JsMapProps StoreProps.

Section Generic.
Context {R : Type} (rowId : R -> Z).
Implicit Types (m : list (Z * R)) (p : R -> bool).

Lemma values_app m1 m2 :
  JsMap.values (m1 ++ m2) = JsMap.values m1 ++ JsMap.values m2.
Proof. unfold JsMap.values. apply map_app. Qed.

Lemma same_key_same_entry m (e e' : Z * R) :
  NoDup (JsMap.keys m) -> In e m -> In e' m -> fst e = fst e' -> e = e'.
Proof.
  intros Hnd Hin Hin' Hfst. destruct e as [k v], e' as [k' v'].
  simpl in Hfst. subst k'.
  pose proof (In_get k v m Hnd Hin) as H1.
  pose proof (In_get k v' m Hnd Hin') as H2.
  congruence.
Qed.

Lemma values_filter (f : Z * R -> bool) (g : R -> bool) m :
  (forall e, In e m -> f e = g (snd e)) ->
  JsMap.values (List.filter f m) = List.filter g (JsMap.values m).
Proof.
  induction m as [|e m IH]; intros Hfg; simpl; [done|].
  rewrite <- (Hfg e (or_introl eq_refl)).
  destruct (f e); simpl; (rewrite IH; [done|]);
    intros e' Hin; apply Hfg; by right.
Qed.

(** Deleting the rows a filter found leaves the other rows, in their
    order; the order of the deletions does not matter. *)
Lemma deleteEach_found next p (rows : list R) m :
  tableOk rowId next m ->
  (forall r, In r rows <-> In r (List.filter p (JsMap.values m))) ->
  JsMap.values (deleteEach rowId rows m)
  = List.filter (fun r => negb (p r)) (JsMap.values m).
Proof.
  intros Hok Hrows. rewrite deleteEach_filter.
  apply values_filter. intros e Hin. unfold spared. f_equal.
  pose proof Hok as (_ & _ & Hkeyed).
  rewrite List.Forall_forall in Hkeyed.
  destruct (p (snd e)) eqn:Hp.
  - apply existsb_exists. exists (snd e). split.
    + apply Hrows. apply List.filter_In. split; [|done].
      unfold JsMap.values. by apply in_map.
    + apply Z.eqb_eq. by apply Hkeyed.
  - apply not_true_is_false. intros Hex.
    apply existsb_exists in Hex as (row & Hrow & Hid).
    apply Z.eqb_eq in Hid.
    apply Hrows, List.filter_In in Hrow as [Hrow Hprow].
    unfold JsMap.values in Hrow. apply in_map_iff in Hrow as (e' & <- & Hin').
    assert (e' = e) as ->; [|congruence].
    eapply same_key_same_entry; [by eapply tableOk_NoDup|done|done|].
    rewrite <- Hid. symmetry. by apply Hkeyed.
Qed.

Lemma delete_absent k m : ~ In k (JsMap.keys m) -> JsMap.delete k m = m.
Proof.
  unfold JsMap.delete. induction m as [|[k' v] m IH]; simpl; [done|].
  intros Hnot. destruct (k' =? k)%Z eqn:Hk; simpl.
  - apply Z.eqb_eq in Hk. destruct Hnot. by left.
  - rewrite IH; [done|]. tauto.
Qed.

(** Deleting the row a find answered leaves the array without the first
    row the predicate holds for. *)
Lemma delete_found next p m :
  tableOk rowId next m ->
  JsMap.values
    (match List.find p (JsMap.values m) with
     | Some row => JsMap.delete (rowId row) m
     | None => m
     end)
  = StoreSpec.removeFirst p (JsMap.values m).
Proof.
  intros Hok. pose proof (tableOk_NoDup _ _ _ Hok) as Hnd.
  destruct Hok as (_ & _ & Hkeyed).
  induction m as [|[k v] m IH]; simpl; [done|].
  apply Forall_cons in Hkeyed as [Hk Hkeyed]. simpl in Hk.
  apply NoDup_cons in Hnd as [Hnot Hnd]. rewrite list_elem_of_In in Hnot.
  destruct (p v) eqn:Hp.
  - unfold JsMap.delete. simpl. rewrite Hk, Z.eqb_refl. simpl.
    fold (JsMap.delete k m). by rewrite delete_absent.
  - specialize (IH Hkeyed Hnd).
    destruct (List.find p (JsMap.values m)) as [row|] eqn:Hfind;
      [|simpl in *; by rewrite <- IH].
    unfold JsMap.delete. simpl.
    destruct (k =? rowId row)%Z eqn:Hrow.
    + apply Z.eqb_eq in Hrow. apply List.find_some in Hfind as [Hin _].
      unfold JsMap.values in Hin.
      apply in_map_iff in Hin as (e & <- & Hin).
      rewrite List.Forall_forall in Hkeyed.
      rewrite (Hkeyed e Hin) in Hrow. destruct Hnot. subst k.
      simpl. rewrite Hrow. exact (in_map fst m e Hin).
    + simpl. f_equal. exact IH.
Qed.

Lemma sorted_values next m :
  tableOk rowId next m ->
  StronglySorted (fun a b => (rowId a < rowId b)%Z) (JsMap.values m).
Proof.
  intros (Hsorted & _ & Hkeyed).
  induction m as [|[k v] m IH]; simpl; [constructor|].
  apply Forall_cons in Hkeyed as [Hk Hkeyed]. simpl in Hk, Hsorted.
  apply StronglySorted_inv in Hsorted as [Hsorted Hall].
  constructor; [by apply IH|].
  rewrite List.Forall_forall in *. intros row Hin.
  unfold JsMap.values in Hin. apply in_map_iff in Hin as (e & <- & Hin).
  rewrite (Hkeyed e Hin), Hk. apply Hall.
  unfold JsMap.keys. by apply in_map.
Qed.

Lemma sorted_filter_rows p (rows : list R) :
  StronglySorted (fun a b => (rowId a < rowId b)%Z) rows ->
  StronglySorted (fun a b => (rowId a < rowId b)%Z) (List.filter p rows).
Proof.
  induction 1 as [|row rows Hs IH Hall]; simpl; [constructor|].
  destruct (p row); [|done]. constructor; [done|].
  rewrite List.Forall_forall in *. intros r Hin.
  apply List.filter_In in Hin as [Hin _]. by apply Hall.
Qed.

(** In an array sorted by id, find answers the row of least id the
    predicate holds for. *)
Lemma find_least p (rows : list R) :
  StronglySorted (fun a b => (rowId a < rowId b)%Z) rows ->
  match List.find p rows with
  | Some row =>
      In row rows /\ p row = true
      /\ forall other, In other rows -> p other = true ->
                       (rowId row <= rowId other)%Z
  | None => forall other, In other rows -> p other = false
  end.
Proof.
  induction 1 as [|row rows Hs IH Hall]; simpl; [done|].
  destruct (p row) eqn:Hp.
  - split; [by left|]. split; [done|].
    intros other [<-|Hin] _; [lia|].
    rewrite List.Forall_forall in Hall. specialize (Hall other Hin). lia.
  - destruct (List.find p rows) as [found|].
    + destruct IH as (Hin & Hfound & Hleast). split; [by right|].
      split; [done|]. intros other [<-|Hother] Hpo; [congruence|].
      by apply Hleast.
    + intros other [<-|Hother]; [done|]. by apply IH.
Qed.
End Generic.

Section Reads.
Context {rt : JsRuntime} {Json : Type}.
Implicit Types (st : @MemStorage Json) (op : @Op Json).
Implicit Types (ops : list (@Op Json)).

(** A screenshot or a task that is created gets an id no row of the
    table has, is answered StoreSpec.under that id from then on, changes what no
    other id answers, and stands last in the listings, of all rows and of
    its owner's. *)
Theorem created_row_is_stored ops reads :
  let st := runOps ops reads in
  (forall ins,
     let st' := fst (createScreenshot ins st) in
     let row := snd (createScreenshot ins st) in
     shot row = ins
     /\ getScreenshot (shotId row) st = None
     /\ getScreenshot (shotId row) st' = Some row
     /\ (forall k, k <> shotId row ->
           getScreenshot k st' = getScreenshot k st)
     /\ (forall owner,
           getScreenshotsByUserId owner st'
           = getScreenshotsByUserId owner st
               ++ (if ownedBy owner (shotUserId ins) then [row] else [])))
  /\ (forall ins,
     let st' := fst (createAutomationTask ins st) in
     let task := snd (createAutomationTask ins st) in
     executionCount (Server.core task) = 0%Z
     /\ Server.lastExecuted task = None
     /\ getAutomationTask (id (Server.core task)) st = None
     /\ getAutomationTask (id (Server.core task)) st' = Some task
     /\ (forall k, k <> id (Server.core task) ->
           getAutomationTask k st' = getAutomationTask k st)
     /\ getAutomationTasks st' = getAutomationTasks st ++ [task]
     /\ (forall owner,
           getAutomationTasksByUserId owner st'
           = getAutomationTasksByUserId owner st
               ++ (if ownedBy owner (newUserId ins) then [task] else []))).
Proof.
  intros st. destruct (storeOk_runOps ops reads) as (_ & Hs & _ & Ht & _).
  fold st in Hs, Ht. split.
  - intros ins st' row. subst st' row. simpl.
    destruct (tableOk_create shotId (currentScreenshotId st)
                {| shotId := currentScreenshotId st;
                   shotTimestamp := clockAt (clockReads st);
                   shot := ins |} (screenshots st) Hs eq_refl) as [Hset _].
    split; [done|]. split; [by eapply tableOk_fresh|].
    unfold getScreenshot, getScreenshotsByUserId. simpl.
    split; [apply get_set_same|]. split; [intros k Hk; by apply get_set_other|].
    intros owner. rewrite Hset, values_app, List.filter_app. simpl.
    by destruct (ownedBy owner (shotUserId ins)).
  - intros ins st' task. subst st' task. simpl.
    set (task := {| Server.core := _; Server.userId := _;
                    Server.lastExecuted := _ |}).
    destruct (tableOk_create (fun t => id (Server.core t))
                (currentAutomationTaskId st) task (automationTasks st)
                Ht eq_refl) as [Hset _].
    split; [done|]. split; [done|].
    split; [by eapply (tableOk_fresh (fun t => id (Server.core t)))|].
    unfold getAutomationTask, getAutomationTasks,
      getAutomationTasksByUserId. simpl.
    split; [apply get_set_same|]. split; [intros k Hk; by apply get_set_other|].
    rewrite Hset, values_app. split; [done|].
    intros owner. rewrite List.filter_app. simpl.
    by destruct (ownedBy owner (newUserId ins)).
Qed.

(** The settings a user has are the first row created for that user:
    a createSettings for a user who has settings changes nothing of what
    getSettingsByUserId answers, for any user; for a user who has none it
    answers the new row from then on. *)
Theorem first_settings_row_wins ops reads ins :
  let st := runOps ops reads in
  let st' := fst (createSettings ins st) in
  let row := snd (createSettings ins st) in
  prefs row = ins
  /\ forall owner,
       getSettingsByUserId owner st'
       = match getSettingsByUserId owner st with
         | Some settings => Some settings
         | None =>
             if (settingsUserId ins =? owner)%Z then Some row else None
         end.
Proof.
  intros st st' row. subst st' row. simpl. split; [done|].
  destruct (storeOk_runOps ops reads) as (_ & _ & _ & _ & Hp).
  fold st in Hp. intros owner. unfold getSettingsByUserId. simpl.
  destruct (tableOk_create settingsId (currentSettingsId st)
              {| settingsId := currentSettingsId st; prefs := ins |}
              (userSettings st) Hp eq_refl) as [-> _].
  rewrite values_app.
  induction (JsMap.values (userSettings st)) as [|s rows IH]; simpl; [done|].
  by destruct (settingsUserId (prefs s) =? owner)%Z.
Qed.

(** *** The accounts *)

Lemma numbered_app next (l1 l2 : list InsertUser) :
  StoreSpec.numbered next (l1 ++ l2)
  = StoreSpec.numbered next l1
      ++ StoreSpec.numbered (next + Z.of_nat (length l1)) l2.
Proof.
  revert next. induction l1 as [|a l1 IH]; intros next; simpl.
  - by rewrite Z.add_0_r.
  - rewrite IH. do 3 f_equal. lia.
Qed.

Lemma numbered_ids next (l : list InsertUser) :
  Forall (fun u => (next <= userId u < next + Z.of_nat (length l))%Z)
         (StoreSpec.numbered next l).
Proof.
  revert next. induction l as [|a l IH]; intros next; simpl; constructor.
  - simpl. lia.
  - eapply Forall_impl; [apply IH|]. simpl. intros; lia.
Qed.

Lemma createdUsers_snoc ops op :
  StoreSpec.createdUsers (ops ++ [op])
  = StoreSpec.createdUsers ops
      ++ match op with OpCreateUser u => [u] | _ => [] end.
Proof.
  unfold StoreSpec.createdUsers. rewrite flat_map_app. simpl.
  by rewrite app_nil_r.
Qed.

Lemma users_untouched op st :
  match op with OpCreateUser _ => False | _ => True end ->
  users (applyOp op st) = users st
  /\ currentUserId (applyOp op st) = currentUserId st.
Proof.
  destruct op as [u|s|i full mouse|l|t|i|s|i s|owner]; simpl; try done;
    intros _.
  - unfold updateScreenshotPaths. by case_match.
  - unfold updateAutomationTaskExecutionCount. by case_match.
  - unfold updateSettings. by case_match.
  - unfold clearUserData. by case_match.
Qed.

Lemma set_numbered next (l : list InsertUser) u :
  JsMap.set (next + Z.of_nat (length l))
    {| userId := next + Z.of_nat (length l); account := u |}
    (map StoreSpec.under (StoreSpec.numbered next l))
  = map StoreSpec.under (StoreSpec.numbered next (l ++ [u])).
Proof.
  rewrite numbered_app, map_app. apply set_absent, below_absent.
  unfold JsMap.keys. rewrite map_map. apply List.Forall_map.
  eapply Forall_impl; [apply numbered_ids|]. simpl. intros; lia.
Qed.

Lemma users_of_run ops reads :
  users (runOps ops reads) = map StoreSpec.under (StoreSpec.expectedUsers ops)
  /\ currentUserId (runOps ops reads)
     = (1 + Z.of_nat (length (StoreSpec.createdUsers ops)))%Z.
Proof.
  induction ops as [|op ops IH] using rev_ind; [done|].
  rewrite runOps_snoc. destruct IH as [Husers Hnext].
  unfold StoreSpec.expectedUsers in *. rewrite createdUsers_snoc.
  destruct op as [u|s|i full mouse|l|t|i|s|i s|owner];
    try (rewrite app_nil_r;
         match goal with |- context [applyOp ?op _] =>
           destruct (users_untouched op (runOps ops reads) I) as [-> ->]
         end; done).
  cbn [applyOp createUser fst users currentUserId].
  rewrite Hnext, Husers, length_app. split; [|simpl; lia].
  destruct (StoreSpec.createdUsers ops) as [|a accounts] eqn:Hcreated.
  - done.
  - by rewrite set_numbered.
Qed.

(** The users of the store are the accounts created, numbered from 1
    in the order of their creation; the built-in default account is there
    only as long as no account was created: the first createUser takes its
    id and its place. *)
Theorem first_account_replaces_default ops reads :
  let st := runOps ops reads in
  JsMap.values (users st) = StoreSpec.expectedUsers ops
  /\ getUser 1 st
     = Some {| userId := 1;
               account := hd (account defaultUser)
                             (StoreSpec.createdUsers ops) |}
  /\ (forall name,
        getUserByUsername name st
        = List.find (fun user => username (account user) =? name)
                    (StoreSpec.expectedUsers ops)).
Proof.
  intros st. destruct (users_of_run ops reads) as [Husers _].
  fold st in Husers.
  assert (Hvalues : JsMap.values (users st) = StoreSpec.expectedUsers ops).
  { rewrite Husers. unfold JsMap.values. rewrite map_map. simpl.
    apply map_id. }
  split; [exact Hvalues|]. split.
  - unfold getUser. rewrite Husers. unfold StoreSpec.expectedUsers.
    destruct (StoreSpec.createdUsers ops) as [|a accounts]; done.
  - intros name. unfold getUserByUsername. by rewrite Hvalues.
Qed.
End Reads.
End ReadProps.

(** ** The store: updates, the log listing, clearUserData *)

Module WriteProps.
Import Store JsMapProps StoreProps ReadProps.

Section Logs.
Context {Json : Type}.
Implicit Types (log : @ActivityLog Json) (logs : list (@ActivityLog Json)).

Lemma insertByTime_In log other logs :
  In other (insertByTime log logs) <-> other = log \/ In other logs.
Proof.
  induction logs as [|l logs IH]; simpl; [intuition congruence|].
  destruct (logTimestamp log <? logTimestamp l)%Z; simpl;
    [rewrite IH|]; intuition congruence.
Qed.

Lemma insertByTime_sorted log logs :
  StronglySorted newerFirst logs ->
  StronglySorted newerFirst (insertByTime log logs).
Proof.
  induction 1 as [|l logs Hs IH Hall]; simpl; [repeat constructor|].
  destruct (logTimestamp log <? logTimestamp l)%Z eqn:Hlt.
  - apply Z.ltb_lt in Hlt. constructor; [done|].
    rewrite List.Forall_forall in *. intros other Hin.
    apply insertByTime_In in Hin as [->|Hin].
    + unfold newerFirst. lia.
    + by apply Hall.
  - apply Z.ltb_ge in Hlt. constructor; [by constructor|].
    constructor; [exact Hlt|].
    rewrite List.Forall_forall in *. intros other Hin.
    specialize (Hall other Hin). unfold newerFirst in *. lia.
Qed.

Lemma newestFirst_sorted logs : StronglySorted newerFirst (newestFirst logs).
Proof.
  induction logs as [|l logs IH]; simpl; [constructor|].
  by apply insertByTime_sorted.
Qed.

Lemma insertByTime_perm log logs :
  Permutation (insertByTime log logs) (log :: logs).
Proof.
  induction logs as [|l logs IH]; simpl; [done|].
  destruct (logTimestamp log <? logTimestamp l)%Z; [|done].
  rewrite IH. apply perm_swap.
Qed.

Lemma newestFirst_perm logs : Permutation (newestFirst logs) logs.
Proof.
  induction logs as [|l logs IH]; simpl; [done|].
  rewrite insertByTime_perm. by constructor.
Qed.

Lemma newestFirst_In log logs : In log (newestFirst logs) <-> In log logs.
Proof.
  split; apply Permutation_in; [|symmetry]; apply newestFirst_perm.
Qed.

(** The logs of one instant keep their order: the sort is stable. *)
Lemma insertByTime_instant (t : Z) log logs :
  List.filter (fun l => (logTimestamp l =? t)%Z) (insertByTime log logs)
  = List.filter (fun l => (logTimestamp l =? t)%Z) (log :: logs).
Proof.
  induction logs as [|l logs IH]; simpl; [done|].
  destruct (logTimestamp log <? logTimestamp l)%Z eqn:Hlt; [|done].
  apply Z.ltb_lt in Hlt. simpl. rewrite IH. simpl.
  destruct (logTimestamp log =? t)%Z eqn:H1; [|done].
  destruct (logTimestamp l =? t)%Z eqn:H2; [|done].
  apply Z.eqb_eq in H1, H2. lia.
Qed.

Lemma newestFirst_instant (t : Z) logs :
  List.filter (fun l => (logTimestamp l =? t)%Z) (newestFirst logs)
  = List.filter (fun l => (logTimestamp l =? t)%Z) logs.
Proof.
  induction logs as [|l logs IH]; simpl; [done|].
  rewrite insertByTime_instant. simpl. by rewrite IH.
Qed.

(** Filtering and sorting commute. *)
Lemma insertByTime_filter (p : @ActivityLog Json -> bool) log logs :
  StronglySorted newerFirst logs ->
  List.filter p (insertByTime log logs)
  = if p log then insertByTime log (List.filter p logs)
    else List.filter p logs.
Proof.
  induction 1 as [|l logs Hs IH Hall]; simpl.
  - by destruct (p log).
  - destruct (logTimestamp log <? logTimestamp l)%Z eqn:Hlt; simpl.
    + rewrite IH. destruct (p l), (p log); simpl; try done.
      by rewrite Hlt.
    + destruct (p log) eqn:Hplog; [|done].
      destruct (p l) eqn:Hpl; simpl; [by rewrite Hlt|].
      apply Z.ltb_ge in Hlt. clear IH.
      induction logs as [|l' logs IH']; simpl; [done|].
      apply Forall_cons in Hall as [Hl' Hall].
      apply StronglySorted_inv in Hs as [Hs Hall'].
      destruct (p l'); simpl.
      * unfold newerFirst in Hl'.
        destruct (logTimestamp log <? logTimestamp l')%Z eqn:Hlt'; [|done].
        apply Z.ltb_lt in Hlt'. lia.
      * by apply IH'.
Qed.

Lemma newestFirst_filter (p : @ActivityLog Json -> bool) logs :
  newestFirst (List.filter p logs) = List.filter p (newestFirst logs).
Proof.
  induction logs as [|l logs IH]; simpl; [done|].
  rewrite insertByTime_filter by apply newestFirst_sorted.
  destruct (p l); simpl; by rewrite IH.
Qed.
End Logs.

Section Writes.
Context {rt : JsRuntime} {Json : Type}.
Implicit Types (st : @MemStorage Json) (op : @Op Json).
Implicit Types (ops : list (@Op Json)).

(** getActivityLogs answers every stored log once, the newest first,
    logs of one instant in the order of their creation;
    getActivityLogsByUserId answers those of them the user owns, in the
    same order; a log that is created is answered from then on. *)
Theorem activity_logs_newest_first st :
  StronglySorted newerFirst (getActivityLogs st)
  /\ Permutation (getActivityLogs st) (JsMap.values (activityLogs st))
  /\ (forall t,
        List.filter (fun l => (logTimestamp l =? t)%Z) (getActivityLogs st)
        = List.filter (fun l => (logTimestamp l =? t)%Z)
                      (JsMap.values (activityLogs st)))
  /\ (forall owner,
        getActivityLogsByUserId owner st
        = List.filter (fun l => ownedBy owner (logUserId (entry l)))
                      (getActivityLogs st))
  /\ (forall ins,
        entry (snd (createActivityLog ins st)) = ins
        /\ logTimestamp (snd (createActivityLog ins st))
           = clockAt (clockReads st)
        /\ In (snd (createActivityLog ins st))
              (getActivityLogs (fst (createActivityLog ins st)))).
Proof.
  unfold getActivityLogs, getActivityLogsByUserId.
  split; [apply newestFirst_sorted|]. split; [apply newestFirst_perm|].
  split; [intros t; apply newestFirst_instant|].
  split; [intros owner; apply newestFirst_filter|].
  intros ins. split; [done|]. split; [done|].
  apply newestFirst_In. simpl. unfold JsMap.values. apply in_map_iff.
  eexists (_, _). split; [done|]. apply get_Some_In, get_set_same.
Qed.

(** An update of a row creates and removes nothing: on an id the
    table lacks it throws and the store stays as it was; on an id the
    table has, the row under that id is replaced where it stands, by the
    row the call answers, and what the other ids answer, the order of the
    rows and the counters stay. *)
Theorem updates_replace_one_row st :
  (forall i full mouse,
     let r := updateScreenshotPaths i full mouse st in
     JsMap.keys (screenshots (fst r)) = JsMap.keys (screenshots st)
     /\ counters (fst r) = counters st
     /\ match getScreenshot i st with
        | None =>
            r = (st, Thrown ("Screenshot with ID " +:+ pretty i
                             +:+ " not found"))
        | Some old =>
            snd r = Returned (withPaths full mouse old)
            /\ getScreenshot i (fst r) = Some (withPaths full mouse old)
            /\ forall k, k <> i ->
                 getScreenshot k (fst r) = getScreenshot k st
        end)
  /\ (forall i,
     let r := updateAutomationTaskExecutionCount i st in
     JsMap.keys (automationTasks (fst r)) = JsMap.keys (automationTasks st)
     /\ counters (fst r) = counters st
     /\ match getAutomationTask i st with
        | None =>
            r = (st, Thrown ("Automation task with ID " +:+ pretty i
                             +:+ " not found"))
        | Some old =>
            let new := Server.executed (clockAt (clockReads st)) old in
            snd r = Returned new
            /\ executionCount (Server.core new)
               = (executionCount (Server.core old) + 1)%Z
            /\ getAutomationTask i (fst r) = Some new
            /\ forall k, k <> i ->
                 getAutomationTask k (fst r) = getAutomationTask k st
        end)
  /\ (forall i updated,
     let r := updateSettings i updated st in
     JsMap.keys (userSettings (fst r)) = JsMap.keys (userSettings st)
     /\ counters (fst r) = counters st
     /\ match JsMap.get i (userSettings st) with
        | None =>
            r = (st, Thrown ("Settings with ID " +:+ pretty i
                             +:+ " not found"))
        | Some old =>
            snd r = Returned (mergeSettings old updated)
            /\ settingsId (mergeSettings old updated) = settingsId old
            /\ JsMap.get i (userSettings (fst r))
               = Some (mergeSettings old updated)
            /\ forall k, k <> i ->
                 JsMap.get k (userSettings (fst r))
                 = JsMap.get k (userSettings st)
        end).
Proof.
  split; [|split].
  - intros i full mouse r. subst r.
    unfold updateScreenshotPaths, getScreenshot.
    destruct (JsMap.get i (screenshots st)) as [old|] eqn:Hget; [|done].
    simpl. split.
    { apply keys_set_present. apply get_Some_In in Hget.
      by apply (in_map fst) in Hget. }
    split; [done|]. split; [done|].
    split; [apply get_set_same|]. intros k Hk. by apply get_set_other.
  - intros i r. subst r.
    unfold updateAutomationTaskExecutionCount, getAutomationTask.
    destruct (JsMap.get i (automationTasks st)) as [old|] eqn:Hget; [|done].
    simpl. split.
    { apply keys_set_present. apply get_Some_In in Hget.
      by apply (in_map fst) in Hget. }
    split; [done|]. split; [done|]. split; [done|].
    split; [apply get_set_same|]. intros k Hk. by apply get_set_other.
  - intros i updated r. subst r. unfold updateSettings.
    destruct (JsMap.get i (userSettings st)) as [old|] eqn:Hget; [|done].
    simpl. split.
    { apply keys_set_present. apply get_Some_In in Hget.
      by apply (in_map fst) in Hget. }
    split; [done|]. split; [done|]. split; [done|].
    split; [apply get_set_same|]. intros k Hk. by apply get_set_other.
Qed.

(** captureScreen leaves one new screenshot record of the user, under
    an id no record had. When the files are written the record has the
    two API paths of its id and the call answers them; when writing fails
    the call throws and the record stays, with its placeholder paths. The
    update of the record never fails: the record was just created. *)
Theorem capture_screen_record ops reads owner mx my written :
  let st := runOps ops reads in
  let newId := currentScreenshotId st in
  let r := captureScreen owner mx my written st in
  let created :=
    {| shotId := newId; shotTimestamp := clockAt (clockReads st);
       shot := placeholder owner mx my |} in
  getScreenshot newId st = None
  /\ (forall k, k <> newId -> getScreenshot k (fst r) = getScreenshot k st)
  /\ currentScreenshotId (fst r) = (newId + 1)%Z
  /\ (if written then
        snd r
        = Returned
            {| capturedId := newId;
               capturedFullScreenPath := apiFullScreenPath newId;
               capturedMouseAreaPath := apiMouseAreaPath newId;
               capturedMouseX := mx; capturedMouseY := my;
               capturedTimestamp := clockAt (clockReads st) |}
        /\ getScreenshot newId (fst r)
           = Some (withPaths (apiFullScreenPath newId)
                             (apiMouseAreaPath newId) created)
      else
        snd r = Thrown "Failed to capture screen"
        /\ getScreenshot newId (fst r) = Some created).
Proof.
  intros st newId r created.
  destruct (storeOk_runOps ops reads) as (_ & Hs & _). fold st in Hs.
  split; [by eapply tableOk_fresh|].
  subst r. unfold captureScreen, updateScreenshotPaths.
  cbn [createScreenshot fst snd screenshots shotId]. fold newId.
  rewrite get_set_same. fold created.
  destruct written; cbn [fst snd].
  - unfold getScreenshot. cbn [setScreenshots screenshots
      currentScreenshotId].
    split; [|split; [done|]].
    + intros k Hk. rewrite !get_set_other by done. done.
    + split; [done|]. apply get_set_same.
  - unfold getScreenshot. cbn [screenshots currentScreenshotId].
    split; [|split; [done|]].
    + intros k Hk. by rewrite get_set_other.
    + split; [done|]. apply get_set_same.
Qed.

(** *** clearUserData *)

Lemma clearUserData_tables owner st :
  storeOk st ->
  let st' := clearUserData owner st in
  JsMap.values (screenshots st')
  = List.filter (fun s => negb (ownedBy owner (shotUserId (shot s))))
                (JsMap.values (screenshots st))
  /\ JsMap.values (activityLogs st')
     = List.filter (fun l => negb (ownedBy owner (logUserId (entry l))))
                   (JsMap.values (activityLogs st))
  /\ JsMap.values (automationTasks st')
     = List.filter (fun t => negb (ownedBy owner (Server.userId t)))
                   (JsMap.values (automationTasks st))
  /\ JsMap.values (userSettings st')
     = StoreSpec.removeFirst
         (fun s => (settingsUserId (prefs s) =? owner)%Z)
         (JsMap.values (userSettings st)).
Proof.
  intros (_ & Hs & Hl & Ht & Hp) st'. subst st'. unfold clearUserData.
  set (st1 := setScreenshots _ st).
  set (st2 := setActivityLogs _ st1).
  set (st3 := setAutomationTasks _ _ st2).
  assert (H1 : JsMap.values (screenshots st3)
               = List.filter
                   (fun s => negb (ownedBy owner (shotUserId (shot s))))
                   (JsMap.values (screenshots st))).
  { simpl. eapply deleteEach_found; [exact Hs|]. done. }
  assert (H2 : JsMap.values (activityLogs st3)
               = List.filter
                   (fun l => negb (ownedBy owner (logUserId (entry l))))
                   (JsMap.values (activityLogs st))).
  { simpl. eapply deleteEach_found; [exact Hl|].
    intros log. unfold getActivityLogsByUserId. simpl.
    apply newestFirst_In. }
  assert (H3 : JsMap.values (automationTasks st3)
               = List.filter
                   (fun t => negb (ownedBy owner (Server.userId t)))
                   (JsMap.values (automationTasks st))).
  { simpl.
    eapply (deleteEach_found (fun t => id (Server.core t))); [exact Ht|].
    done. }
  pose proof (delete_found settingsId (currentSettingsId st)
                (fun s => (settingsUserId (prefs s) =? owner)%Z)
                (userSettings st) Hp) as H4.
  unfold getSettingsByUserId.
  change (userSettings st3) with (userSettings st).
  destruct (List.find _ (JsMap.values (userSettings st))) as [s|];
    by repeat split.
Qed.

Lemma filter_filter_none {A : Type} (p : A -> bool) (l : list A) :
  List.filter p (List.filter (fun a => negb (p a)) l) = [].
Proof.
  induction l as [|a l IH]; simpl; [done|].
  destruct (p a) eqn:Hp; simpl; [done|]. by rewrite Hp.
Qed.

Lemma filter_filter_other {A : Type} (p q : A -> bool) (l : list A) :
  (forall a, q a = true -> p a = false) ->
  List.filter q (List.filter (fun a => negb (p a)) l) = List.filter q l.
Proof.
  intros Hpq. induction l as [|a l IH]; simpl; [done|].
  destruct (p a) eqn:Hp; simpl.
  - destruct (q a) eqn:Hq; [|done]. rewrite (Hpq a Hq) in Hp. done.
  - by rewrite IH.
Qed.

Lemma find_removeFirst_other {A : Type} (p q : A -> bool) (l : list A) :
  (forall a, q a = true -> p a = false) ->
  List.find q (StoreSpec.removeFirst p l) = List.find q l.
Proof.
  intros Hpq. induction l as [|a l IH]; simpl; [done|].
  destruct (p a) eqn:Hp; simpl.
  - destruct (q a) eqn:Hq; [|done]. rewrite (Hpq a Hq) in Hp. done.
  - by rewrite IH.
Qed.

Lemma ownedBy_other owner other column :
  other <> owner -> ownedBy other column = true ->
  ownedBy owner column = false.
Proof.
  intros Hne. destruct column as [u|]; simpl; [|done].
  intros ->%Z.eqb_eq. by apply Z.eqb_neq.
Qed.

(** clearUserData removes the screenshots, the activity logs and the
    automation tasks of the user, and the first settings row of the user;
    nothing else: rows of other users and rows of no user stay, in their
    order, the users' table and the counters stay (no id is given again),
    and a second settings row of the user comes into view. *)
Theorem clear_user_data_removes ops reads owner :
  let st := runOps ops reads in
  let st' := clearUserData owner st in
  (JsMap.values (screenshots st')
   = List.filter (fun s => negb (ownedBy owner (shotUserId (shot s))))
                 (JsMap.values (screenshots st))
   /\ JsMap.values (activityLogs st')
      = List.filter (fun l => negb (ownedBy owner (logUserId (entry l))))
                    (JsMap.values (activityLogs st))
   /\ JsMap.values (automationTasks st')
      = List.filter (fun t => negb (ownedBy owner (Server.userId t)))
                    (JsMap.values (automationTasks st))
   /\ JsMap.values (userSettings st')
      = StoreSpec.removeFirst
          (fun s => (settingsUserId (prefs s) =? owner)%Z)
          (JsMap.values (userSettings st)))
  /\ (getScreenshotsByUserId owner st' = []
      /\ getActivityLogsByUserId owner st' = []
      /\ getAutomationTasksByUserId owner st' = [])
  /\ (forall other, other <> owner ->
        getScreenshotsByUserId other st' = getScreenshotsByUserId other st
        /\ getActivityLogsByUserId other st'
           = getActivityLogsByUserId other st
        /\ getAutomationTasksByUserId other st'
           = getAutomationTasksByUserId other st
        /\ getSettingsByUserId other st' = getSettingsByUserId other st)
  /\ users st' = users st
  /\ counters st' = counters st
  /\ clockReads st' = clockReads st.
Proof.
  intros st st'.
  destruct (clearUserData_tables owner st (storeOk_runOps ops reads))
    as (Hs & Hl & Ht & Hp). fold st' in Hs, Hl, Ht, Hp.
  split; [by repeat split|]. split; [|split].
  - unfold getScreenshotsByUserId, getActivityLogsByUserId,
      getAutomationTasksByUserId. rewrite Hs, Hl, Ht.
    rewrite (filter_filter_none
               (fun s => ownedBy owner (shotUserId (shot s)))).
    rewrite (filter_filter_none
               (fun l => ownedBy owner (logUserId (entry l)))).
    rewrite (filter_filter_none (fun t => ownedBy owner (Server.userId t))).
    done.
  - intros other Hne.
    unfold getScreenshotsByUserId, getActivityLogsByUserId,
      getAutomationTasksByUserId, getSettingsByUserId.
    rewrite Hs, Hl, Ht, Hp.
    rewrite (filter_filter_other
               (fun s => ownedBy owner (shotUserId (shot s))))
      by (intros a; by apply ownedBy_other).
    rewrite (filter_filter_other
               (fun l => ownedBy owner (logUserId (entry l))))
      by (intros a; by apply ownedBy_other).
    rewrite (filter_filter_other (fun t => ownedBy owner (Server.userId t)))
      by (intros a; by apply ownedBy_other).
    rewrite find_removeFirst_other; [done|].
    intros a Ha%Z.eqb_eq. apply Z.eqb_neq. lia.
  - destruct (clearUserData_counters owner st) as (Hc & Hu & Hk).
    by repeat split.
Qed.

(** *** checkTriggers on the store *)

(** The server's checkTriggers answers the oldest task of the user
    that fires on the activity, that is the one of least id among the
    user's active tasks with a matching trigger, as it is stored; null
    exactly when no task of the user fires. *)
Theorem server_answers_oldest_firing_task ops reads owner activity :
  let st := runOps ops reads in
  match checkTriggers owner activity st with
  | Some task =>
      getAutomationTask (id (Server.core task)) st = Some task
      /\ Server.userId task = Some owner
      /\ StoreSpec.fires activity task = true
      /\ forall other,
           In other (getAutomationTasksByUserId owner st) ->
           StoreSpec.fires activity other = true ->
           (id (Server.core task) <= id (Server.core other))%Z
  | None =>
      forall other,
        In other (getAutomationTasksByUserId owner st) ->
        StoreSpec.fires activity other = false
  end.
Proof.
  intros st. destruct (storeOk_runOps ops reads) as (_ & _ & _ & Ht & _).
  fold st in Ht. unfold checkTriggers.
  rewrite TriggerProps.server_checkTriggers.
  fold (StoreSpec.fires activity).
  pose proof (find_least (fun t => id (Server.core t))
                (StoreSpec.fires activity)
                (getAutomationTasksByUserId owner st)) as Hleast.
  unfold getAutomationTasksByUserId in *.
  specialize (Hleast (sorted_filter_rows _ _ _ (sorted_values _ _ _ Ht))).
  destruct (List.find _ _) as [task|]; [|exact Hleast].
  destruct Hleast as (Hin & Hfires & Hleast).
  apply List.filter_In in Hin as [Hin Howned].
  split; [|split; [|by split]].
  - unfold getAutomationTask.
    apply (tableOk_get (fun t => id (Server.core t)) _ _ _ _ Ht).
    unfold JsMap.values in Hin. apply in_map_iff in Hin as ([k t] & <- & Hin).
    destruct Ht as (_ & _ & Hkeyed). rewrite List.Forall_forall in Hkeyed.
    pose proof (Hkeyed _ Hin) as Hk. simpl in Hk. simpl. by rewrite Hk.
  - destruct (Server.userId task) as [u|]; [|done].
    simpl in Howned. apply Z.eqb_eq in Howned. by subst.
Qed.
End Writes.
End WriteProps.

(** ** The code on concrete inputs *)

Module Cases.
Import ClientSpec Sample.

(** C1: a request that fails leaves the count where it was. *)
Lemma failed_request_not_counted :
  let s := manager0 [Sample.task 7 [] true] in
  let r := Client.executeTask 7 Client.ResponseNotOk s in
  snd r = Returned false
  /\ executionCount <$> Client.tasks (fst r) = [0%Z]
  /\ executionCount <$> Client.tasks (fst r) <> [(0 + 1)%Z].
Proof. split; [reflexivity|]. split; [reflexivity|]. discriminate. Qed.



(** C3: in the client a keyboard event fires a time trigger. *)
Lemma client_time_trigger_fires_on_keyboard_event :
  let trigger := {| ttype := "time"; value := "09:30" |} in
  let a := Sample.keyPress "a" in
  atype a <> "system"
  /\ @Client.triggerFires rtHalfPastNine halfPastNine a trigger = true
  /\ Client.executeCalls
       (@Client.checkTriggers rtHalfPastNine unit a
          (manager0 [Sample.task 1 [trigger] true])) = [1%Z].
Proof. split; [discriminate|]. split; reflexivity. Qed.

Lemma time_trigger_witness :
  let trigger := {| ttype := "time"; value := "09" +:+ ":" +:+ "30" |} in
  let a := Sample.systemAt halfPastNine in
  (@Server.activityMatchesTrigger rt0 a trigger = true
     <-> atype a = "system"
         /\ exists t, timestamp a = Some t
                      /\ @getHours rt0 t = 9%Z /\ @getMinutes rt0 t = 30%Z)
  /\ (@Client.triggerFires rt0 halfPastNine a trigger = true
        <-> @getHours rt0 halfPastNine = 9%Z
            /\ @getMinutes rt0 halfPastNine = 30%Z)
  /\ (forall k, @Client.checkTaskTriggers rt0 k a [trigger]
                = (@Client.triggerFires rt0 (@clockAt rt0 k) a trigger, S k)).
Proof.
  apply (@TriggerProps.time_trigger_match rt0 (Sample.systemAt halfPastNine)
           "09" "30" 9%Z 30%Z halfPastNine); reflexivity.
Defined.

Lemma history_buffer_witness :
  let h := Client.activityHistory (@Client.feed rt0 unit (clicks 3) (manager0 [])) in
  length h = Nat.min 1000 (length (clicks 3))
  /\ (exists evicted, clicks 3 = evicted ++ h)
  /\ forall a,
       Client.activityHistory
         (@Client.checkForPatterns rt0 unit a
            (@Client.feed rt0 unit (clicks 3) (manager0 [])))
       = drop (if (length (clicks 3) <? 1000)%nat then 0 else 1) (h ++ [a]).
Proof.
  apply (@ClientProps.history_buffer_keeps_most_recent rt0 unit (clicks 3)
           (manager0 [])). reflexivity.
Defined.

Lemma suggestion_dedup_witness :
  (forall recent type count,
      Client.hasExistingSuggestion "repeated_sequence" type afterTenClicks = true ->
      @Client.repeatedEntry rt0 unit recent (type, count) afterTenClicks
        = afterTenClicks)
  /\ (Client.hasExistingSuggestion "app_sequence"
        (String.concat ","
           (Client.collectApps
              (rev (List.filter Client.isAppActivity
                      (Client.activityHistory afterTenClicks))) []))
        afterTenClicks = true ->
      @Client.detectApplicationPatterns rt0 unit afterTenClicks = afterTenClicks)
  /\ (forall a, NoDup (keys (@Client.checkForPatterns rt0 unit a afterTenClicks)))
  /\ (forall evs, NoDup (keys (@Client.feed rt0 unit evs afterTenClicks))).
Proof.
  apply (@ClientProps.suggestion_dedup rt0 unit afterTenClicks).
  vm_compute. apply NoDup_singleton.
Defined.

(** C6: the server answers one task where two match. *)
Lemma server_reports_first_task_only :
  let trigger := {| ttype := "keyboard"; value := "F5" |} in
  let t1 := Sample.task 1 [trigger] true in
  let t2 := Sample.task 2 [trigger] true in
  let a := Sample.keyPress "F5" in
  isActive t2 = true
  /\ @Server.activityMatchesTrigger rt0 a trigger = true
  /\ @Server.checkTriggers rt0 [stored t1; stored t2] a = Some (stored t1)
  /\ Client.executeCalls (@Client.checkTriggers rt0 unit a (manager0 [t1; t2]))
     = [1%Z; 2%Z].
Proof. repeat split; reflexivity. Qed.

(** C7: three distinct application names and no suggestion: on a history
    shorter than 10, and when the sequence was suggested before. *)
Lemma three_names_no_suggestion :
  let short :=
    @Client.feed rt0 unit (map Sample.application ["A"; "B"; "C"])
      (manager0 []) in
  threeDistinct (observedNames (Client.activityHistory short))
  /\ Client.suggestions short = [] /\ Client.notified short = []
  /\ threeDistinct (observedNames (Client.activityHistory afterThreeApps))
  /\ (subtype <$> Client.suggestions afterThreeApps) = ["mouse_click"; "C,B,A"]
  /\ @Client.detectApplicationPatterns rt0 unit afterThreeApps = afterThreeApps
  /\ Client.notified
       (@Client.checkForPatterns rt0 unit (Sample.click 5 5) afterThreeApps)
     = Client.notified afterThreeApps.
Proof.
  assert (Hthree : threeDistinct ["C"; "B"; "A"]).
  { exists "C", "B", "A". simpl. repeat split; auto; discriminate. }
  split; [exact Hthree|]. split; [reflexivity|]. split; [reflexivity|].
  split; [exact Hthree|]. split; [reflexivity|].
  split; vm_compute; reflexivity.
Qed.

Lemma suggestion_store_witness :
  let s' := @Client.createSuggestion rt0 unit "t" "d" 0.6%Q [] "repeated_sequence"
              "mouse_click" fullStore in
  let new := @built rt0 unit "t" "d" 0.6%Q [] "repeated_sequence" "mouse_click"
               fullStore in
  (forall evs, length (Client.suggestions (@Client.feed rt0 unit evs fullStore)) <= 10)
  /\ length (Client.suggestions s') <= 10
  /\ (length (Client.suggestions fullStore) < 10 ->
      Client.suggestions s' = Client.suggestions fullStore ++ [new])
  /\ (length (Client.suggestions fullStore) = 10 ->
      exists oldest others,
        Client.suggestions fullStore = oldest :: others
        /\ Client.suggestions s' = others ++ [new]
        /\ length (Client.suggestions s') = 10).
Proof.
  apply (@ClientProps.suggestion_store_bounded_fifo rt0 unit "t" "d" 0.6%Q []
           "repeated_sequence" "mouse_click" fullStore).
  simpl. lia.
Defined.
End Cases.

(** ** The further properties on concrete inputs *)

Module MoreCases.
Import Sample Measures Shapes.

Lemma click_region_witness :
  let tr := {| ttype := "click";
               value := "10" +:+ "," +:+ "10" +:+ "," +:+ "50" +:+ "," +:+ "50" |} in
  let a := Sample.click 60 60 in
  (@Server.activityMatchesTrigger rt0 a tr = true
     <-> atype a = "mouse_click"
         /\ exists ax ay, x a = Some ax /\ y a = Some ay
              /\ (10 <= ax <= 10 + 50)%Z /\ (10 <= ay <= 10 + 50)%Z)
  /\ @Client.triggerFires rt0 0 a tr = @Server.activityMatchesTrigger rt0 a tr.
Proof.
  apply (@MatcherProps.click_region_match rt0 (Sample.click 60 60)
           "10" "10" "50" "50" 10%Z 10%Z 50%Z 50%Z 0%Z); reflexivity.
Defined.

Lemma mouse_position_witness :
  let tr := {| ttype := "mouse"; value := "100" +:+ "," +:+ "200" |} in
  let a := captureAt 120 180 in
  (@Server.activityMatchesTrigger rt0 a tr = true
     <-> atype a = "screen_capture"
         /\ exists mx my, mousePosition a = Some (mx, my)
              /\ (Z.abs (mx - 100) <= 20)%Z /\ (Z.abs (my - 200) <= 20)%Z)
  /\ @Client.triggerFires rt0 0 a tr = @Server.activityMatchesTrigger rt0 a tr.
Proof.
  apply (@MatcherProps.mouse_position_match rt0 (captureAt 120 180)
           "100" "200" 100%Z 200%Z 0%Z); reflexivity.
Defined.

Lemma matching_trigger_witness :
  let tr := {| ttype := "click"; value := "10,10,50,50" |} in
  (ttype tr = "time" ->
   exists h m rest,
     @Client.numbersOf rt0 ":" (value tr) = JNum h :: JNum m :: rest)
  /\ (ttype tr = "mouse" ->
      exists tx ty rest,
        @Client.numbersOf rt0 "," (value tr) = JNum tx :: JNum ty :: rest)
  /\ (ttype tr = "click" ->
      exists x0 y0 w h rest,
        @Client.numbersOf rt0 "," (value tr)
          = JNum x0 :: JNum y0 :: JNum w :: JNum h :: rest).
Proof.
  apply (@MoreMatcherProps.matching_trigger_reads_as_numbers rt0
           (Sample.click 60 60) {| ttype := "click"; value := "10,10,50,50" |}
           0%Z).
  left. reflexivity.
Defined.

Lemma execution_count_witness :
  let s := manager0 [Sample.task 7 [] true] in
  let outcomes :=
    [Client.ResponseOk; Client.ResponseNotOk; Client.ResponseOk;
     Client.FetchRejected "offline"] in
  exists task',
    Client.findTask 7 (Client.tasks (executeAll 7 outcomes s)) = Some task'
    /\ executionCount task'
       = (executionCount (Sample.task 7 [] true)
          + Z.of_nat (length (List.filter succeeded outcomes)))%Z
    /\ length (Client.notified (executeAll 7 outcomes s))
       = length (Client.notified s) + length outcomes.
Proof.
  apply (@AuditProps.execution_count_counts_successes unit 7
           [Client.ResponseOk; Client.ResponseNotOk; Client.ResponseOk;
            Client.FetchRejected "offline"]
           (manager0 [Sample.task 7 [] true]) (Sample.task 7 [] true)).
  reflexivity.
Defined.

Lemma server_executions_witness :
  let st' :=
    Nat.iter 3 (fun st0 => fst (@Server.executeTask rt0 7 st0)) storage0 in
  (exists t', Server.automationTasks st' !! 7%Z = Some t'
              /\ executionCount (Server.core t')
                 = (executionCount (Server.core (stored (Sample.task 7 [] true)))
                    + Z.of_nat 3)%Z)
  /\ Server.currentActivityLogId st'
     = (Server.currentActivityLogId storage0 + Z.of_nat 3)%Z.
Proof.
  apply (@AuditProps.server_executions_accumulate rt0 7 storage0
           (stored (Sample.task 7 [] true)) 3).
  reflexivity.
Defined.

Lemma stored_shapes_witness :
  Forall suggestionShape
    (Client.suggestions (@Client.feed rt0 unit (clicks 12) (manager0 []))).
Proof.
  apply (@DetectorProps.stored_suggestions_have_known_shapes rt0 unit
           (clicks 12) (manager0 [])).
  simpl. constructor.
Defined.

Lemma no_detection_witness :
  Client.suggestions (@Client.feed rt0 unit (clicks 9) (manager0 []))
    = Client.suggestions (manager0 [])
  /\ Client.notified (@Client.feed rt0 unit (clicks 9) (manager0 []))
     = Client.notified (manager0 []).
Proof.
  apply (@WarmUpProps.no_detection_below_ten_events rt0 unit (clicks 9)
           (manager0 [])).
  simpl. lia.
Defined.

Lemma cadence_witness :
  let ops :=
    [Tracker.OpStart; Tracker.OpStart; Tracker.OpUpdateSettings halfSecond;
     Tracker.OpStop; Tracker.OpStart] in
  Tracker.cadenceFollowsSettings (Tracker.runOps ops tracker0)
  /\ length (Tracker.activeTimers (Tracker.runOps ops tracker0)) <= 1
  /\ forall op,
       snd (Tracker.applyOp op (Tracker.runOps ops tracker0)) = Returned tt.
Proof.
  apply (@CadenceProps.cadence_follows_settings unit
           [Tracker.OpStart; Tracker.OpStart;
            Tracker.OpUpdateSettings halfSecond; Tracker.OpStop;
            Tracker.OpStart] tracker0).
  split; [split; reflexivity | reflexivity].
Defined.

Lemma update_settings_witness :
  let t' := fst (Tracker.updateSettings halfSecond trackingTracker) in
  Tracker.isTracking t' = Tracker.isTracking trackingTracker
  /\ Tracker.settings t'
     = Tracker.mergeSettings (Tracker.settings trackingTracker) halfSecond
  /\ (Tracker.isTracking trackingTracker = true ->
      Tracker.enableScreenCapture
        (Tracker.mergeSettings (Tracker.settings trackingTracker) halfSecond)
        = true ->
      exists handle,
        Tracker.activeTimers t'
          = [(handle,
              Tracker.captureIntervalMs
                (Tracker.mergeSettings (Tracker.settings trackingTracker)
                   halfSecond))])
  /\ (Tracker.enableScreenCapture
        (Tracker.mergeSettings (Tracker.settings trackingTracker) halfSecond)
        = false ->
      Tracker.activeTimers t' = []).
Proof.
  apply (@CadenceProps.update_settings_applies unit halfSecond
           trackingTracker).
  split; [|reflexivity]. simpl. exists 1%positive. split; reflexivity.
Defined.

Lemma typed_text_witness :
  let keys := ["h"; "i"; " "; "Enter"; "x"] in
  exists kl' evs,
    @Keyboard.typeKeys rt0 keys 0 loggingLogger = (kl', evs, 0 + length evs)
    /\ String.concat "" (map Keyboard.evText evs)
         +:+ String.concat "" (Tracker.keyBuffer kl')
       = String.concat "" (Tracker.keyBuffer loggingLogger)
           +:+ String.concat ""
                 (List.filter (fun key => negb (Keyboard.isSpecial key)) keys)
    /\ map Keyboard.evKey (List.filter Keyboard.evIsSpecialKey evs)
       = List.filter Keyboard.isSpecial keys
    /\ (length (Tracker.keyBuffer loggingLogger) < 20 ->
        length (Tracker.keyBuffer kl') < 20).
Proof.
  apply (@KeyboardProps.typed_text_is_conserved rt0
           ["h"; "i"; " "; "Enter"; "x"] 0 loggingLogger).
  reflexivity.
Defined.
End MoreCases.
